(** * gcr-downloader: the classroom file downloader, embedded and verified

    A shallow embedding of [download_classroom_files.py].  Python [str]
    values are lists of Unicode code points, [bytes] values are lists of
    octets; the console, the file system and the remote services form an
    explicit world that every effectful function threads through.

    The first part holds the definitions: the embedding of the program, then
    the vocabulary of its properties.  The second part holds the proofs. *)

From Stdlib Require Import NArith ZArith Lia Ascii String.

From Stdlib Require Import DecimalString.

From stdpp Require Import gmap list.

Local Open Scope N_scope.

(** ** Strings *)

(** A Python [str]: a sequence of code points. *)
Abbreviation str := (list N).

(** String literals of the source, read as code points. *)
Definition u (s : string) : str := map N_of_ascii (list_ascii_of_string s).

(** [str(n)] for a non-negative integer. *)
Definition str_of_N (n : N) : str := u (NilZero.string_of_uint (N.to_uint n)).

Definition in_range (lo hi c : N) : bool := (lo <=? c) && (c <=? hi).

Module Unicode.

(** [str.isspace] on one code point ([_PyUnicode_IsWhitespace]): what
    [str.strip()] removes. *)
Definition isspace (c : N) : bool :=
  in_range 0x09 0x0D c || in_range 0x1C 0x20 c || (c =? 0x85) || (c =? 0xA0)
  || (c =? 0x1680) || in_range 0x2000 0x200A c || (c =? 0x2028)
  || (c =? 0x2029) || (c =? 0x202F) || (c =? 0x205F) || (c =? 0x3000).

(** General category Nd (Unicode 14.0, the data of CPython 3.11), as
    inclusive ranges. *)
Definition decimal_ranges : list (N * N) :=
  [ (0x30, 0x39); (0x660, 0x669); (0x6F0, 0x6F9); (0x7C0, 0x7C9);
    (0x966, 0x96F); (0x9E6, 0x9EF); (0xA66, 0xA6F); (0xAE6, 0xAEF);
    (0xB66, 0xB6F); (0xBE6, 0xBEF); (0xC66, 0xC6F); (0xCE6, 0xCEF);
    (0xD66, 0xD6F); (0xDE6, 0xDEF); (0xE50, 0xE59); (0xED0, 0xED9);
    (0xF20, 0xF29); (0x1040, 0x1049); (0x1090, 0x1099); (0x17E0, 0x17E9);
    (0x1810, 0x1819); (0x1946, 0x194F); (0x19D0, 0x19D9); (0x1A80, 0x1A89);
    (0x1A90, 0x1A99); (0x1B50, 0x1B59); (0x1BB0, 0x1BB9); (0x1C40, 0x1C49);
    (0x1C50, 0x1C59); (0xA620, 0xA629); (0xA8D0, 0xA8D9); (0xA900, 0xA909);
    (0xA9D0, 0xA9D9); (0xA9F0, 0xA9F9); (0xAA50, 0xAA59); (0xABF0, 0xABF9);
    (0xFF10, 0xFF19); (0x104A0, 0x104A9); (0x10D30, 0x10D39);
    (0x11066, 0x1106F); (0x110F0, 0x110F9); (0x11136, 0x1113F);
    (0x111D0, 0x111D9); (0x112F0, 0x112F9); (0x11450, 0x11459);
    (0x114D0, 0x114D9); (0x11650, 0x11659); (0x116C0, 0x116C9);
    (0x11730, 0x11739); (0x118E0, 0x118E9); (0x11950, 0x11959);
    (0x11C50, 0x11C59); (0x11D50, 0x11D59); (0x11DA0, 0x11DA9);
    (0x16A60, 0x16A69); (0x16AC0, 0x16AC9); (0x16B50, 0x16B59);
    (0x1D7CE, 0x1D7FF); (0x1E140, 0x1E149); (0x1E2F0, 0x1E2F9);
    (0x1E950, 0x1E959); (0x1FBF0, 0x1FBF9) ].

(** [Py_UNICODE_ISDECIMAL]: what [\d] matches in a [str] pattern. *)
Definition isdecimal (c : N) : bool :=
  existsb (fun r => in_range (fst r) (snd r) c) decimal_ranges.

End Unicode.

(** ** String methods and the three regular expressions of the program *)

(** Drop the longest prefix whose characters satisfy [p]. *)
Fixpoint drop_while (p : N -> bool) (s : str) : str :=
  match s with
  | c :: s' => if p c then drop_while p s' else s
  | [] => []
  end.

(** [s.lstrip()], [s.rstrip()], [s.strip()]. *)
Definition lstrip (s : str) : str := drop_while Unicode.isspace s.

Definition rstrip (s : str) : str := reverse (drop_while Unicode.isspace (reverse s)).

Definition strip (s : str) : str := rstrip (lstrip s).

(** Truth value of a [str]: non-empty. *)
Definition truthy (s : str) : bool := match s with [] => false | _ => true end.

(** [s.replace(old, new)] for one-character [old] and [new]. *)
Definition replace_char (old new : N) (s : str) : str :=
  map (fun c => if c =? old then new else c) s.

Module Re.

(** The class [[A-Za-z0-9_-]]. *)
Definition id_char (c : N) : bool :=
  in_range 0x41 0x5A c || in_range 0x61 0x7A c || in_range 0x30 0x39 c
  || (c =? 0x5F) || (c =? 0x2D).

(** The class of the sanitising pattern: less-than, greater-than, colon,
    double quote, slash, backslash, bar, question mark, star. *)
Definition illegal_char (c : N) : bool :=
  (c =? 0x3C) || (c =? 0x3E) || (c =? 0x3A) || (c =? 0x22) || (c =? 0x2F)
  || (c =? 0x5C) || (c =? 0x7C) || (c =? 0x3F) || (c =? 0x2A).

(** The longest prefix whose characters satisfy [p], and the rest: a
    greedy [+] or [*] over a character class. *)
Fixpoint span (p : N -> bool) (s : str) : str * str :=
  match s with
  | c :: s' => if p c then let '(a, b) := span p s' in (c :: a, b) else ([], s)
  | [] => ([], [])
  end.

(** [/c/([A-Za-z0-9_-]+)] anchored at the start of [s]: group 1. *)
Definition course_at (s : str) : option str :=
  match s with
  | c1 :: c2 :: c3 :: rest =>
      if (c1 =? 0x2F) && (c2 =? 0x63) && (c3 =? 0x2F) then
        match fst (span id_char rest) with
        | [] => None
        | seg => Some seg
        end
      else None
  | _ => None
  end.

(** [re.search] of [/c/([A-Za-z0-9_-]+)] in [s]: the leftmost position where
    the pattern matches; the result is group 1 of that match. *)
Fixpoint search_course (s : str) : option str :=
  match course_at s with
  | Some seg => Some seg
  | None => match s with
            | [] => None
            | _ :: s' => search_course s'
            end
  end.

(** [re.sub] of that class by an underscore. *)
Definition sub_illegal (s : str) : str :=
  map (fun c => if illegal_char c then 0x5F else c) s.

(** [re.match(r'^(\d+)\.', s)]: group 1 of the match.  The greedy run of
    digits gives back no character, since none of them is a dot. *)
Definition match_module (s : str) : option str :=
  match span Unicode.isdecimal s with
  | ([], _) => None
  | (ds, 0x2E :: _) => Some ds
  | _ => None
  end.

End Re.

(** ** Exceptions *)

(** The exception classes the program meets, with their places in Python's
    hierarchy. *)
Inductive exn_class : Set :=
  | BaseException | KeyboardInterrupt | SystemExit
  | Exception
  | ValueError | UnicodeDecodeError | BinasciiError
  | KeyError | EOFError | ImportError
  | NameError | UnboundLocalError
  | OSError | PermissionError | FileNotFoundError | FileExistsError
  | IsADirectoryError | NotADirectoryError
  | CalledProcessError | HttpError | RefreshError.

#[global] Instance exn_class_eq_dec : EqDecision exn_class.
Proof. solve_decision. Defined.

(** The nearest base class among the classes above. *)
Definition base (c : exn_class) : option exn_class :=
  match c with
  | BaseException => None
  | KeyboardInterrupt | SystemExit | Exception => Some BaseException
  | UnicodeDecodeError | BinasciiError => Some ValueError
  | UnboundLocalError => Some NameError
  | PermissionError | FileNotFoundError | FileExistsError
  | IsADirectoryError | NotADirectoryError => Some OSError
  | ValueError | KeyError | EOFError | ImportError | NameError | OSError
  | CalledProcessError | HttpError | RefreshError => Some Exception
  end.

(** [issubclass c d]; the hierarchy above is three levels deep. *)
Fixpoint issubclass_upto (n : nat) (c d : exn_class) : bool :=
  bool_decide (c = d)
  || match n, base c with
     | S n', Some b => issubclass_upto n' b d
     | _, _ => false
     end.

Definition issubclass : exn_class -> exn_class -> bool := issubclass_upto 3.

(** A raised exception: its class and [str(e)].  A [SystemExit] carries
    the exit status in its text. *)
Record exn : Type := Exn { exn_cls : exn_class; exn_str : str }.

(** [isinstance(e, c)]: whether [except c] catches [e]. *)
Definition isinstance (e : exn) (c : exn_class) : bool := issubclass (exn_cls e) c.

(** The outcome of a call: a value, or an exception on its way up. *)
Inductive result (A : Type) : Type :=
  | Ok (a : A)
  | Raise (e : exn).

Arguments Ok {A} a.

Arguments Raise {A} e.

(** ** [base64.b64decode] and [bytes.decode] *)

Module Base64.

(** [table_a2b_base64]: the six-bit value of a character of the standard
    alphabet; every other character has none. *)
Definition value (c : N) : option N :=
  if in_range 0x41 0x5A c then Some (c - 0x41)
  else if in_range 0x61 0x7A c then Some (c - 0x61 + 26)
  else if in_range 0x30 0x39 c then Some (c - 0x30 + 52)
  else if c =? 0x2B then Some 62
  else if c =? 0x2F then Some 63
  else None.

Definition PAD : N := 0x3D.

(** One octet of output: the C code stores into an [unsigned char]. *)
Definition octet (n : N) : N := N.land n 0xFF.

Definition incorrect_padding : exn := Exn BinasciiError (u "Incorrect padding").

Definition one_extra_char (written : nat) : exn :=
  Exn BinasciiError
    (u "Invalid base64-encoded string: number of data characters ("
     ++ str_of_N (N.of_nat written / 3 * 4 + 1)
     ++ u ") cannot be 1 more than a multiple of 4").

(** The loop of [binascii.a2b_base64] in its default, non-strict mode:
    [quad_pos] is the position inside the current group of four,
    [leftchar] the bits not yet written, [pads] the padding characters
    seen in a row, [out] the octets written so far. *)
Fixpoint a2b_loop (data : str) (quad_pos leftchar pads : N) (out : list N)
  : result (list N) :=
  match data with
  | [] =>
      if quad_pos =? 0 then Ok out
      else if quad_pos =? 1 then Raise (one_extra_char (length out))
      else Raise incorrect_padding
  | this_ch :: rest =>
      if this_ch =? PAD then
        if 2 <=? quad_pos then
          if 4 <=? quad_pos + (pads + 1) then Ok out
          else a2b_loop rest quad_pos leftchar (pads + 1) out
        else a2b_loop rest quad_pos leftchar pads out
      else
        match value this_ch with
        | None => a2b_loop rest quad_pos leftchar pads out
        | Some v =>
            if quad_pos =? 0 then a2b_loop rest 1 v 0 out
            else if quad_pos =? 1 then
              a2b_loop rest 2 (N.land v 0x0F) 0
                (out ++ [octet (N.lor (N.shiftl leftchar 2) (N.shiftr v 4))])
            else if quad_pos =? 2 then
              a2b_loop rest 3 (N.land v 0x03) 0
                (out ++ [octet (N.lor (N.shiftl leftchar 4) (N.shiftr v 2))])
            else
              a2b_loop rest 0 0 0
                (out ++ [octet (N.lor (N.shiftl leftchar 6) v)])
        end
  end.

(** [base64.b64decode(s)] for a [str] argument: the text must be ASCII,
    then [a2b_base64] runs on its octets. *)
Definition b64decode (s : str) : result (list N) :=
  if forallb (fun c => c <? 128) s then a2b_loop s 0 0 0 []
  else Raise (Exn ValueError (u "string argument should contain only ASCII characters")).

End Base64.

Module Utf8.

Definition cont (b : N) : bool := in_range 0x80 0xBF b.

(** The strict UTF-8 decoder: shortest forms only, no surrogates, nothing
    above U+10FFFF. *)
Fixpoint decode (bs : list N) : option str :=
  match bs with
  | [] => Some []
  | b0 :: t0 =>
      if b0 <? 0x80 then cons b0 <$> decode t0
      else match t0 with
      | [] => None
      | b1 :: t1 =>
          if in_range 0xC2 0xDF b0 then
            if cont b1
            then cons ((b0 - 0xC0) * 64 + (b1 - 0x80)) <$> decode t1
            else None
          else match t1 with
          | [] => None
          | b2 :: t2 =>
              if in_range 0xE0 0xEF b0 then
                if in_range (if b0 =? 0xE0 then 0xA0 else 0x80)
                            (if b0 =? 0xED then 0x9F else 0xBF) b1
                   && cont b2
                then cons ((b0 - 0xE0) * 4096 + (b1 - 0x80) * 64 + (b2 - 0x80))
                       <$> decode t2
                else None
              else match t2 with
              | [] => None
              | b3 :: t3 =>
                  if in_range 0xF0 0xF4 b0
                     && in_range (if b0 =? 0xF0 then 0x90 else 0x80)
                                 (if b0 =? 0xF4 then 0x8F else 0xBF) b1
                     && cont b2 && cont b3
                  then cons ((b0 - 0xF0) * 262144 + (b1 - 0x80) * 4096
                             + (b2 - 0x80) * 64 + (b3 - 0x80))
                         <$> decode t3
                  else None
              end
          end
      end
  end.

(** [bs.decode('utf-8')].  The text of the [UnicodeDecodeError] is
    shortened: Python adds the offending octet and its offset. *)
Definition bytes_decode (bs : list N) : result str :=
  match decode bs with
  | Some s => Ok s
  | None => Raise (Exn UnicodeDecodeError (u "'utf-8' codec can't decode bytes"))
  end.

End Utf8.

(** ** The link decoder *)

(** Lines 60 to 64: the [try] block.  Every failure of the decoding is an
    [Exception] and is re-raised as a [ValueError] whose text quotes it. *)
Definition decode_course_id (encoded_id : str) : result str :=
  match Base64.b64decode encoded_id with
  | Raise e => Raise (Exn ValueError (u "Failed to decode course ID: " ++ exn_str e))
  | Ok raw =>
      match Utf8.bytes_decode raw with
      | Raise e => Raise (Exn ValueError (u "Failed to decode course ID: " ++ exn_str e))
      | Ok decoded_id => Ok decoded_id
      end
  end.

(** [extract_course_id(classroom_link)]: the segment after [/c/], decoded. *)
Definition extract_course_id (classroom_link : str) : result str :=
  match Re.search_course classroom_link with
  | None => Raise (Exn ValueError (u "Invalid Google Classroom link"))
  | Some encoded_id => decode_course_id encoded_id
  end.

(** ** The world around the program *)

(** What a path names, as [os.stat] resolves it. *)
Inductive node : Type :=
  | Dir
  | File (content : list N).

(** A [google.oauth2.credentials.Credentials] object, seen through the
    attributes the program reads. *)
Record credentials : Type := Credentials {
  valid : bool;
  expired : bool;
  refresh_token : option str;
  to_json : str
}.

(** The innermost [driveFile] object of a material. *)
Record drive_file : Type := DriveFileObj {
  file_id_of : str;            (* file['id'] *)
  file_title_of : option str   (* file.get('title') *)
}.

(** One entry of a [materials] list: with a [driveFile] key or without
    (a link, a video, a form). *)
Inductive material : Type :=
  | DriveFile (file : drive_file)
  | OtherMaterial.

(** An announcement or a coursework material: the two keys the program
    reads, each possibly absent. *)
Record group : Type := Group {
  title_of : option str;
  materials_of : option (list material)
}.

Record course : Type := Course { name_of : str }.

(** What one [downloader.next_chunk()] call gives: a piece of content with
    the progress in percent and the [done] flag, or an exception. *)
Inductive reply : Type :=
  | Chunk (data : list N) (percent : N) (done : bool)
  | Failed (e : exn).

(** The environment: everything outside the program that answers it. *)
Record Env : Type := {
  pip_version : option exn;          (* check_call of pip --version *)
  import_package : str -> option exn; (* __import__(package) *)
  pip_install : str -> option exn;   (* check_call of pip install package *)
  from_authorized_user_file : result credentials;
  refresh : credentials -> result credentials;
  from_client_secrets_file : option exn;
  run_local_server : result credentials;
  build : str -> option exn;
  input_line : result str;
  getcwd : str;
  fault : str -> option exn;         (* the OS error on creating or opening a path for writing *)
  broken_link : str -> bool;         (* the path is a symbolic link whose target is missing *)
  courses_get : str -> result course;
  announcements_list : str -> result (list group);
  courseWorkMaterials_list : str -> result (list group);
  media : str -> list reply          (* the successive answers for a file id *)
}.

(** An entry to [download_file]: file id, file name, output directory. *)
Definition call : Type := str * str * str.

(** What the program changes: the file system (path strings as the program
    passes them), the console, the requests sent to the file service, and a
    record of the calls to [download_file]. *)
Record State : Type := {
  fs : gmap str node;
  stdout : list str;
  requests : list str;
  calls : list call
}.

Definition set_fs (f : gmap str node -> gmap str node) (st : State) : State :=
  {| fs := f (fs st); stdout := stdout st; requests := requests st; calls := calls st |}.

(** ** Computations with effects and exceptions *)

Definition M (A : Type) : Type := State -> result A * State.

Definition ret {A} (a : A) : M A := fun st => (Ok a, st).

Definition raise {A} (e : exn) : M A := fun st => (Raise e, st).

Definition bind {A B} (c : M A) (k : A -> M B) : M B :=
  fun st => match c st with
            | (Ok a, st') => k a st'
            | (Raise e, st') => (Raise e, st')
            end.

Notation "x <- c ;; k" := (bind c (fun x => k))
  (at level 100, c at next level, right associativity).

Notation "c ;; k" := (bind c (fun _ => k))
  (at level 100, right associativity).

(** Lift an answer of the environment. *)
Definition lift {A} (r : result A) : M A := fun st => (r, st).

Definition check (o : option exn) : M unit :=
  match o with Some e => raise e | None => ret tt end.

(** [try: c except cls as e: h e], for the handlers [hs] in order.  An
    exception raised by a handler is not offered to the later ones. *)
Fixpoint handle {A} (hs : list (exn_class * (exn -> M A))) (e : exn) : M A :=
  match hs with
  | [] => raise e
  | (cls, h) :: hs' => if isinstance e cls then h e else handle hs' e
  end.

Definition try_except {A} (c : M A) (hs : list (exn_class * (exn -> M A))) : M A :=
  fun st => match c st with
            | (Ok a, st') => (Ok a, st')
            | (Raise e, st') => handle hs e st'
            end.

(** [for x in xs: body x]. *)
Fixpoint for_each {A} (xs : list A) (body : A -> M unit) : M unit :=
  match xs with
  | [] => ret tt
  | x :: xs' => body x ;; for_each xs' body
  end.

(** [print(line)]. *)
Definition print (line : str) : M unit :=
  fun st => (Ok tt, {| fs := fs st; stdout := stdout st ++ [line];
                       requests := requests st; calls := calls st |}).

(** ** Paths *)

Definition SEP : N := 0x2F.

Definition ends_with_sep (s : str) : bool :=
  match last s with Some c => c =? SEP | None => false end.

(** [os.path.join(a, b)] ([posixpath.join]). *)
Definition path_join (a b : str) : str :=
  match b with
  | 0x2F :: _ => b
  | _ => match a with
         | [] => b
         | _ => if ends_with_sep a then a ++ b else a ++ SEP :: b
         end
  end.

(** The leading directories of a path: each non-empty prefix that stops
    just before a separator and does not itself end with one. *)
Fixpoint parents_from (pre rest : str) : list str :=
  match rest with
  | [] => []
  | c :: rest' =>
      (if (c =? SEP) && truthy pre && negb (ends_with_sep pre) then [pre] else [])
      ++ parents_from (pre ++ [c]) rest'
  end.

Definition parents (p : str) : list str := parents_from [] p.

(** [str(x)] of an optional string inside an f-string. *)
Definition fmt (o : option str) : str :=
  match o with Some s => s | None => u "None" end.

(** ** The program *)

Section Program.

Variable env : Env.

(** *** Operating-system calls *)

(** One [mkdir] of [os.makedirs(..., exist_ok=True)]: an existing directory
    is accepted, a file in the way is an error, and so is a broken link
    ([mkdir] finds the name taken, and nothing can be made below it); a new
    directory is made unless the environment refuses. *)
Definition mkdir_step (leaf : bool) (p : str) : M unit :=
  fun st =>
    match fs st !! p with
    | Some Dir => (Ok tt, st)
    | Some (File _) =>
        (Raise (if leaf
                then Exn FileExistsError (u "[Errno 17] File exists: '" ++ p ++ u "'")
                else Exn NotADirectoryError (u "[Errno 20] Not a directory: '" ++ p ++ u "'")),
         st)
    | None =>
        if broken_link env p then
          (Raise (if leaf
                  then Exn FileExistsError (u "[Errno 17] File exists: '" ++ p ++ u "'")
                  else Exn FileNotFoundError
                         (u "[Errno 2] No such file or directory: '" ++ p ++ u "'")),
           st)
        else
          match fault env p with
          | Some e => (Raise e, st)
          | None => (Ok tt, set_fs (insert p Dir) st)
          end
    end.

(** [os.makedirs(p, exist_ok=True)]: the missing leading directories are
    made first, outermost first, then the directory itself. *)
Definition makedirs (p : str) : M unit :=
  for_each (parents p) (mkdir_step false) ;; mkdir_step true p.

(** [os.path.isdir(p)] and [os.path.exists(p)].  Both follow symbolic
    links: the file system [fs] holds what a path leads to, so a broken
    link shows as nothing there. *)
Definition isdir (p : str) : M bool :=
  fun st => (Ok (match fs st !! p with Some Dir => true | _ => false end), st).
Definition exists_ (p : str) : M bool :=
  fun st => (Ok (match fs st !! p with Some _ => true | None => false end), st).

(** [open(p, 'wb')] or [open(p, 'w')]: the file is created or emptied.
    Through a broken link the file is created at the other end, and the
    path leads to it from then on. *)
Definition open_write (p : str) : M unit :=
  fun st =>
    match fault env p with
    | Some e => (Raise e, st)
    | None =>
        match fs st !! p with
        | Some Dir =>
            (Raise (Exn IsADirectoryError (u "[Errno 21] Is a directory: '" ++ p ++ u "'")), st)
        | _ => (Ok tt, set_fs (insert p (File [])) st)
        end
    end.

(** [f.write(data)] on the file opened at [p]. *)
Definition write (p : str) (data : list N) : M unit :=
  fun st =>
    (Ok tt, set_fs (insert p (File (match fs st !! p with
                                    | Some (File old) => old ++ data
                                    | _ => data
                                    end))) st).

(** *** The folder namer *)

(** [get_folder_name_from_title(parent_title, file_name)].  The first
    test is [parent_title is not None and parent_title.strip()], the
    second [file_name and file_name.strip()]. *)
Definition get_folder_name_from_title (parent_title file_name : option str) : M str :=
  print (u "Debug - Raw Parent Title: " ++ fmt parent_title
         ++ u ", File Name: " ++ fmt file_name) ;;
  let stripped_title :=
    match parent_title with
    | Some t => if truthy (strip t) then Some (strip t) else None
    | None => None
    end in
  match stripped_title with
  | Some t => ret (Re.sub_illegal t)
  | None =>
      let found :=
        match file_name with
        | Some f => if truthy f && truthy (strip f)
                    then Re.match_module (strip f) else None
        | None => None
        end in
      match found with
      | Some module_number =>
          print (u "Debug - Extracted Module Number: " ++ module_number) ;;
          ret (u "Module " ++ module_number)
      | None =>
          print (u "Debug - Warning: Empty or invalid filename, defaulting to Other_Materials") ;;
          ret (u "Other_Materials")
      end
  end.

(** *** The file downloader *)

Definition log_call (c : call) : M unit :=
  fun st => (Ok tt, {| fs := fs st; stdout := stdout st;
                       requests := requests st; calls := calls st ++ [c] |}).

(** One [downloader.next_chunk()]: a request goes out, and the content
    that comes back is written to the open file. *)
Definition next_chunk (file_id file_path : str) (r : reply) : M (N * bool) :=
  fun st =>
    let st1 := {| fs := fs st; stdout := stdout st;
                  requests := requests st ++ [file_id]; calls := calls st |} in
    match r with
    | Failed e => (Raise e, st1)
    | Chunk data percent done => (write file_path data ;; ret (percent, done)) st1
    end.

(** The [while not done] loop over the answers the file service gives;
    when the service stops answering, the transport raises. *)
Fixpoint download_loop (file_id file_name file_path : str) (answers : list reply)
  : M unit :=
  match answers with
  | [] => raise (Exn HttpError (u "no response from the server"))
  | r :: answers' =>
      status <- next_chunk file_id file_path r ;;
      print (u "Downloading " ++ file_name ++ u ": " ++ str_of_N (fst status) ++ u "%") ;;
      if snd status then ret tt
      else download_loop file_id file_name file_path answers'
  end.

(** Lines 86 to 89: before [file_path] is assigned. *)
Definition ensure_directory (output_dir : str) : M unit :=
  print (u "Attempting to create directory: " ++ output_dir) ;;
  makedirs output_dir ;;
  ok <- isdir output_dir ;;
  if ok then ret tt
  else raise (Exn OSError (u "Directory " ++ output_dir
                           ++ u " could not be created or is not accessible")).

(** Lines 91 to 104: [file_path] is assigned. *)
Definition transfer (file_id file_name file_path : str) : M unit :=
  present <- exists_ file_path ;;
  if present then
    print (u "File " ++ file_name ++ u " already exists at " ++ file_path
           ++ u ", skipping download.")
  else
    open_write file_path ;;
    download_loop file_id file_name file_path (media env file_id) ;;
    print (u "Downloaded: " ++ file_path).

(** Reading the local variable [file_path]: an [UnboundLocalError] while
    nothing was assigned to it. *)
Definition read_local (name : string) (v : option str) : M str :=
  match v with
  | Some x => ret x
  | None => raise (Exn UnboundLocalError
                     (u "cannot access local variable '" ++ u name
                      ++ u "' where it is not associated with a value"))
  end.

(** The three [except] clauses of [download_file], given the binding of
    the local [file_path] at the time the exception arrives. *)
Definition download_handlers (file_name : str) (file_path : option str)
  : list (exn_class * (exn -> M unit)) :=
  [ (PermissionError, fun pe =>
       p <- read_local "file_path" file_path ;;
       print (u "Permission denied when accessing " ++ p ++ u ": " ++ exn_str pe));
    (OSError, fun oe =>
       p <- read_local "file_path" file_path ;;
       print (u "OS error when accessing " ++ p ++ u ": " ++ exn_str oe));
    (Exception, fun e =>
       print (u "Error downloading file " ++ file_name ++ u ": " ++ exn_str e)) ].

(** [download_file(file_id, file_name, drive_service, output_dir)]; the
    file service is the [media] of the environment.  The first step keeps
    the record of calls and is not in the source. *)
Definition download_file (file_id file_name output_dir : str) : M unit :=
  log_call (file_id, file_name, output_dir) ;;
  fun st =>
    match ensure_directory output_dir st with
    | (Raise e, st1) => handle (download_handlers file_name None) e st1
    | (Ok _, st1) =>
        let file_path := path_join output_dir file_name in
        try_except (transfer file_id file_name file_path)
          (download_handlers file_name (Some file_path)) st1
    end.

(** *** Prerequisites and authentication *)

Definition required_packages : list str :=
  [ u "google-auth"; u "google-auth-oauthlib"; u "google-auth-httplib2";
    u "google-api-python-client" ].

(** [sys.exit(code)]. *)
Definition sys_exit {A} (code : N) : M A := raise (Exn SystemExit (str_of_N code)).

(** [install_prerequisites()]. *)
Definition install_prerequisites : M unit :=
  try_except
    (check (pip_version env) ;;
     print (u "pip is available. Checking and installing required packages...") ;;
     for_each required_packages (fun package =>
       try_except (check (import_package env package))
         [ (ImportError, fun _ =>
              print (u "Installing " ++ package ++ u "...") ;;
              check (pip_install env package) ;;
              print (u "Successfully installed " ++ package)) ]) ;;
     print (u "All prerequisites installed successfully."))
    [ (CalledProcessError, fun _ =>
         print (u "Error: pip is not found. Please ensure Python is installed and try again.") ;;
         print (u "To install Python, visit: https://www.python.org/downloads/") ;;
         sys_exit 1);
      (Exception, fun e =>
         print (u "Error during prerequisite installation: " ++ exn_str e) ;;
         print (u "Please install Python and required packages manually using: pip install google-auth google-auth-oauthlib google-auth-httplib2 google-api-python-client") ;;
         print (u "To install Python, visit: https://www.python.org/downloads/") ;;
         sys_exit 1) ].

Definition token_json : str := u "token.json".
Definition credentials_json : str := u "credentials.json".

(** Lines 75 to 78: the interactive flow, which needs the client secret. *)
Definition interactive_flow : M credentials :=
  have_secret <- exists_ credentials_json ;;
  if have_secret then
    check (from_client_secrets_file env) ;;
    lift (run_local_server env)
  else raise (Exn FileNotFoundError
                (u "credentials.json not found. Please download it from Google Cloud Console.")).

(** Lines 79 to 81: the token is written back and returned. *)
Definition persist (creds : credentials) : M credentials :=
  open_write token_json ;;
  write token_json (to_json creds) ;;
  ret creds.

(** [authenticate()].  [creds] is [None] or an object, and an object is
    always true: [not creds or not creds.valid] is the second and the
    fourth case below, and [creds and creds.expired and
    creds.refresh_token] sends an object to [refresh]. *)
Definition authenticate : M credentials :=
  have_token <- exists_ token_json ;;
  creds <- (if have_token then c <- lift (from_authorized_user_file env) ;; ret (Some c)
            else ret None) ;;
  match creds with
  | Some c =>
      if valid c then ret c
      else
        creds' <- (if expired c && match refresh_token c with
                                   | Some t => truthy t
                                   | None => false
                                   end
                   then lift (refresh env c)
                   else interactive_flow) ;;
        persist creds'
  | None =>
      creds' <- interactive_flow ;;
      persist creds'
  end.

(** *** The orchestrator *)

(** [file.get('title', f'file_{file_id}')]. *)
Definition file_name_of (file : drive_file) : str :=
  match file_title_of file with
  | Some t => t
  | None => u "file_" ++ file_id_of file
  end.

(** Lines 159 and 160: the name of the first material when it is a drive
    file, the empty string otherwise. *)
Definition first_file_name (materials : list material) : str :=
  match materials with
  | DriveFile file :: _ => file_name_of file
  | _ => []
  end.

(** [group.get('title', '')]. *)
Definition get_title (g : group) : str :=
  match title_of g with Some t => t | None => [] end.

(** Lines 157 to 169: one announcement. *)
Definition process_announcement (output_dir : str) (announcement : group) : M unit :=
  match materials_of announcement with
  | None => ret tt
  | Some materials =>
      folder_name <- get_folder_name_from_title
                       (Some (get_title announcement))
                       (Some (first_file_name materials)) ;;
      let folder_dir := path_join output_dir folder_name in
      makedirs folder_dir ;;
      for_each materials (fun material =>
        match material with
        | DriveFile file =>
            download_file (file_id_of file) (file_name_of file) folder_dir
        | OtherMaterial => ret tt
        end)
  end.

(** Lines 174 to 192: one coursework material. *)
Definition process_coursework (output_dir : str) (material : group) : M unit :=
  match materials_of material with
  | None => ret tt
  | Some materials =>
      folder_name <- get_folder_name_from_title
                       (Some (get_title material))
                       (Some (first_file_name materials)) ;;
      makedirs (path_join output_dir folder_name) ;;
      for_each materials (fun item =>
        match item with
        | DriveFile file =>
            let file_name := file_name_of file in
            folder_name' <-
              (if truthy (strip (get_title material))
               then get_folder_name_from_title (Some (get_title material)) (Some [])
               else get_folder_name_from_title None (Some file_name)) ;;
            let folder_dir := path_join output_dir folder_name' in
            makedirs folder_dir ;;
            download_file (file_id_of file) file_name folder_dir
        | OtherMaterial => ret tt
        end)
  end.

(** Lines 150 to 194: what follows a successful course lookup. *)
Definition mirror_course (course_id : str) (c : course) : M unit :=
  let course_name := replace_char 0x2F 0x5F (replace_char 0x20 0x5F (name_of c)) in
  let output_dir := path_join (getcwd env) course_name in
  makedirs output_dir ;;
  announcements <- lift (announcements_list env course_id) ;;
  for_each announcements (process_announcement output_dir) ;;
  materials <- lift (courseWorkMaterials_list env course_id) ;;
  for_each materials (process_coursework output_dir) ;;
  print (u "All files downloaded to: " ++ output_dir).

(** Lines 133 to 194: the [try] block of [main].  [input] shows its prompt
    on the console, then reads a line; the two services are the
    environment. *)
Definition main_body : M unit :=
  install_prerequisites ;;
  creds <- authenticate ;;
  check (build env (u "classroom")) ;;
  check (build env (u "drive")) ;;
  print (u "Enter the Google Classroom link: ") ;;
  classroom_link <- lift (input_line env) ;;
  course_id <- lift (extract_course_id classroom_link) ;;
  print (u "Using Course ID: " ++ course_id) ;;
  found <- try_except
             (c <- lift (courses_get env course_id) ;;
              print (u "Course found: " ++ name_of c) ;;
              ret (Some c))
             [ (Exception, fun e =>
                  print (u "Error accessing course: " ++ exn_str e) ;;
                  ret None) ] ;;
  match found with
  | None => ret tt
  | Some c => mirror_course course_id c
  end.

(** [main()]: the block under its one handler. *)
Definition main : M unit :=
  try_except main_body
    [ (Exception, fun e => print (u "An error occurred: " ++ exn_str e)) ].

(** How the process ends. *)
Inductive termination : Type :=
  | Normal                    (* the script ran to its end: status 0 *)
  | Exited (e : exn)          (* a SystemExit reached the top: sys.exit *)
  | Traceback (e : exn).      (* any other exception reached the top *)

(** Lines 199 and 200: the script calls [main()]. *)
Definition script (st : State) : termination * State :=
  match main st with
  | (Ok _, st') => (Normal, st')
  | (Raise e, st') =>
      (if isinstance e SystemExit then Exited e else Traceback e, st')
  end.

End Program.

(** * The vocabulary of the properties *)

(** ** The folder namer *)

Definition empty_state : State :=
  {| fs := ∅; stdout := []; requests := []; calls := [] |}.

(** The characters the sanitiser replaces; the last one is the double quote. *)
Definition illegal_chars : str := u "<>:/\|?*" ++ [0x22].

Definition UNDERSCORE : N := 0x5F.

(** What the folder namer returns, whatever the console showed before. *)
Definition folder_name (parent_title file_name : option str) (st : State) : result str :=
  fst (get_folder_name_from_title parent_title file_name st).

(** A parent title that is absent, empty or all whitespace. *)
Definition blank (parent_title : option str) : Prop :=
  match parent_title with
  | Some t => strip t = []
  | None => True
  end.

(** ** The link decoder *)

(** The reference the decoder is compared with, written from the words of
    the specification, not from the code: standard base64 (RFC 4648,
    section 4).  The text is made of groups of four characters of the
    standard alphabet, the last group possibly ending in one or two padding
    characters; four six-bit values give three octets. *)
Module Rfc4648.

Definition group (a b c d : N) : list N :=
  [a * 4 + b / 16; (b mod 16) * 16 + c / 4; (c mod 4) * 64 + d].

Fixpoint octets (vals : list N) : list N :=
  match vals with
  | a :: b :: c :: d :: vs => group a b c d ++ octets vs
  | [a; b; c] => take 2 (group a b c 0)
  | [a; b] => take 1 (group a b 0 0)
  | _ => []
  end.

(** The text without its padding. *)
Definition unpad (s : str) : str :=
  match reverse s with
  | 0x3D :: 0x3D :: r => reverse r
  | 0x3D :: r => reverse r
  | _ => s
  end.

Definition decode (s : str) : option (list N) :=
  if N.of_nat (length s) mod 4 =? 0
  then octets <$> mapM Base64.value (unpad s)
  else None.

End Rfc4648.

(** All pairs of six-bit values. *)
Definition sextets : list N := map N.of_nat (seq 0 64).

(** The three octets the C loop writes for a full group, from its shifts
    and masks. *)
Definition loop_octet1 (a b : N) : N :=
  Base64.octet (N.lor (N.shiftl a 2) (N.shiftr b 4)).

Definition loop_octet2 (b c : N) : N :=
  Base64.octet (N.lor (N.shiftl (N.land b 0x0F) 4) (N.shiftr c 2)).

Definition loop_octet3 (c d : N) : N :=
  Base64.octet (N.lor (N.shiftl (N.land c 0x03) 6) d).

(** The six-bit values of the alphabet characters of a text; the other
    characters leave no trace. *)
Definition values (s : str) : list N := omap Base64.value s.

(** What the C loop amounts to on a text without padding: full groups are
    written out, and a partial group at the end is an error. *)
Fixpoint finish (out vals : list N) : result (list N) :=
  match vals with
  | [] => Ok out
  | [_] => Raise (Base64.one_extra_char (length out))
  | a :: b :: c :: d :: vs =>
      finish (out ++ [loop_octet1 a b; loop_octet2 b c; loop_octet3 c d]) vs
  | _ => Raise Base64.incorrect_padding
  end.

(** The two characters of the segment class that are outside the standard
    alphabet: hyphen and underscore. *)
Definition url_only (c : N) : bool := (c =? 0x2D) || (c =? 0x5F).

(** The segment without its hyphens and underscores. *)
Definition standard_part (seg : str) : str := List.filter (fun c => negb (url_only c)) seg.

(** The literal start of the pattern. *)
Definition course_prefix : str := u "/c/".

(** [seg] is a maximal run of segment characters right after an occurrence
    of the prefix, [pre] being what comes before that occurrence. *)
Definition occurs_at (link pre seg post : str) : Prop :=
  link = pre ++ course_prefix ++ seg ++ post
  /\ seg <> []
  /\ Forall (fun c => Re.id_char c = true) seg
  /\ (forall c, head post = Some c -> Re.id_char c = false).

(** No occurrence of the prefix that starts before position [n] is followed
    by a segment character. *)
Definition no_match_before (link : str) (n : nat) : Prop :=
  forall pre c rest,
    link = pre ++ course_prefix ++ c :: rest -> (length pre < n)%nat ->
    Re.id_char c = false.

(** [seg] is the segment of [link]: the first maximal run of segment
    characters that follows the prefix. *)
Definition segment_of (link seg : str) : Prop :=
  exists pre post, occurs_at link pre seg post /\ no_match_before link (length pre).

(** [link] has no segment at all. *)
Definition no_segment (link : str) : Prop :=
  forall pre c rest, link = pre ++ course_prefix ++ c :: rest -> Re.id_char c = false.

(** The two failures of the link decoder.  Both are [ValueError]s in the
    code; the text tells them apart. *)
Definition invalid_link_error : exn := Exn ValueError (u "Invalid Google Classroom link").

Definition is_decode_error (e : exn) : Prop :=
  exists cause, e = Exn ValueError (u "Failed to decode course ID: " ++ cause).

(** ** Frames: what a computation leaves alone *)

(** [c] relates every state to the state it ends in. *)
Definition preserves {A} (R : State -> State -> Prop) (c : M A) : Prop :=
  forall st, R st (snd (c st)).

(** No file is created or changed and no request is sent: directories may
    appear, the console and the call record may grow. *)
Definition no_transfer (st st' : State) : Prop :=
  fs st ⊆ fs st'
  /\ (forall p c, fs st' !! p = Some (File c) -> fs st !! p = Some (File c))
  /\ requests st' = requests st.

(** The call record is untouched. *)
Definition same_calls (st st' : State) : Prop := calls st' = calls st.

(** Only the console changes. *)
Definition console_only (st st' : State) : Prop :=
  fs st' = fs st /\ requests st' = requests st /\ calls st' = calls st.

(** The state once the entry into [download_file] is recorded. *)
Definition with_call (c : call) (st : State) : State := snd (log_call c st).

(** ** Concrete worlds *)

Definition sample_credentials : credentials :=
  {| valid := true; expired := false; refresh_token := Some (u "r-token");
     to_json := u "{}" |}.

(** Everything goes well: no fault, a valid link typed in, an empty course. *)
Definition quiet_env : Env :=
  {| pip_version := None;
     import_package := fun p => Some (Exn ImportError (u "No module named '" ++ p ++ u "'"));
     pip_install := fun _ => None;
     from_authorized_user_file := Ok sample_credentials;
     refresh := fun c => Ok c;
     from_client_secrets_file := None;
     run_local_server := Ok sample_credentials;
     build := fun _ => None;
     input_line := Ok (u "https://classroom.google.com/c/NjA1MDk3MzYzMjQ2");
     getcwd := u "/data";
     fault := fun _ => None;
     broken_link := fun _ => false;
     courses_get := fun _ => Ok {| name_of := u "OS" |};
     announcements_list := fun _ => Ok [];
     courseWorkMaterials_list := fun _ => Ok [];
     media := fun _ => [Chunk (u "fresh") 100 true] |}.

Definition with_fault (f : str -> option exn) (env : Env) : Env :=
  {| pip_version := pip_version env; import_package := import_package env;
     pip_install := pip_install env;
     from_authorized_user_file := from_authorized_user_file env;
     refresh := refresh env; from_client_secrets_file := from_client_secrets_file env;
     run_local_server := run_local_server env; build := build env;
     input_line := input_line env; getcwd := getcwd env;
     fault := f; broken_link := broken_link env;
     courses_get := courses_get env; announcements_list := announcements_list env;
     courseWorkMaterials_list := courseWorkMaterials_list env; media := media env |}.

Definition with_input (r : result str) (env : Env) : Env :=
  {| pip_version := pip_version env; import_package := import_package env;
     pip_install := pip_install env;
     from_authorized_user_file := from_authorized_user_file env;
     refresh := refresh env; from_client_secrets_file := from_client_secrets_file env;
     run_local_server := run_local_server env; build := build env;
     input_line := r; getcwd := getcwd env;
     fault := fault env; broken_link := broken_link env;
     courses_get := courses_get env; announcements_list := announcements_list env;
     courseWorkMaterials_list := courseWorkMaterials_list env; media := media env |}.

Definition with_groups (announcements materials : list group) (env : Env) : Env :=
  {| pip_version := pip_version env; import_package := import_package env;
     pip_install := pip_install env;
     from_authorized_user_file := from_authorized_user_file env;
     refresh := refresh env; from_client_secrets_file := from_client_secrets_file env;
     run_local_server := run_local_server env; build := build env;
     input_line := input_line env; getcwd := getcwd env;
     fault := fault env; broken_link := broken_link env;
     courses_get := courses_get env;
     announcements_list := fun _ => Ok announcements;
     courseWorkMaterials_list := fun _ => Ok materials; media := media env |}.

(** A file system given by its entries. *)
Definition state_of (entries : list (str * node)) : State :=
  {| fs := list_to_map entries; stdout := []; requests := []; calls := [] |}.

(** A sentinel file sits where the download would go. *)
Definition sentinel_state : State :=
  state_of [ (u "/data/OS/Week 1", Dir);
             (u "/data/OS/Week 1/notes.pdf", File (u "sentinel")) ].

(** A directory sits where the download would go. *)
Definition blocked_state : State :=
  state_of [ (u "/data/OS/Week 1", Dir);
             (u "/data/OS/Week 1/notes.pdf", Dir) ].

Definition unbound_file_path : exn :=
  Exn UnboundLocalError
    (u "cannot access local variable 'file_path' where it is not associated with a value").

Definition permission_denied (p : str) : exn :=
  Exn PermissionError (u "[Errno 13] Permission denied: '" ++ p ++ u "'").

(** Creating the folder of the first week is refused. *)
Definition denied_env : Env :=
  with_fault (fun p => if bool_decide (p = u "/data/OS/Week 1")
                       then Some (permission_denied p) else None)
    quiet_env.

Definition week (n : string) (file : string) : group :=
  {| title_of := Some (u "Week " ++ u n);
     materials_of := Some [ DriveFile {| file_id_of := u "id-" ++ u n;
                                         file_title_of := Some (u file) |} ] |}.

(** A stored token, and a course with two coursework groups. *)
Definition token_state : State := state_of [ (u "token.json", File (u "{}")) ].

Definition two_weeks (env : Env) : Env :=
  with_groups [] [ week "1" "notes.pdf"; week "2" "slides.pdf" ] env.

(** ** The record of calls *)

(** The name the folder namer returns; it does not depend on the state. *)
Definition named_folder (parent_title file_name : option str) : str :=
  match folder_name parent_title file_name empty_state with
  | Ok r => r
  | Raise _ => []
  end.

(** The drive files among the materials, in order. *)
Definition drive_files (materials : list material) : list drive_file :=
  omap (fun m => match m with DriveFile f => Some f | OtherMaterial => None end) materials.

(** The call that downloads [file] into [folder]. *)
Definition call_into (folder : drive_file -> str) (file : drive_file) : call :=
  (file_id_of file, file_name_of file, folder file).

(** A run made the calls [expected], in order, or stopped on the way after
    the first few of them; a run that came to its end made them all. *)
Definition made_calls {A} (r : result A * State) (st : State) (expected : list call) : Prop :=
  exists made,
    calls (snd r) = calls st ++ made
    /\ made `prefix_of` expected
    /\ (forall a, fst r = Ok a -> made = expected).

(** An untitled group with a link and two numbered files. *)
Definition untitled_materials : list material :=
  [ DriveFile {| file_id_of := u "id-a"; file_title_of := Some (u "1.3 Threads.pdf") |};
    OtherMaterial;
    DriveFile {| file_id_of := u "id-b"; file_title_of := Some (u "2.1 Scheduling.pdf") |} ].

Definition untitled_group : group :=
  {| title_of := Some (u "  "); materials_of := Some untitled_materials |}.

(** ** The top level *)

Definition secret_missing : exn :=
  Exn FileNotFoundError
    (u "credentials.json not found. Please download it from Google Cloud Console.").

(** No stored token that is valid or can be refreshed: there is no token
    file, or the token it holds is neither valid nor refreshable. *)
Definition no_usable_token (env : Env) (st : State) : Prop :=
  fs st !! token_json = None
  \/ exists c, from_authorized_user_file env = Ok c
               /\ valid c = false
               /\ (expired c && match refresh_token c with
                                | Some t => truthy t
                                | None => false
                                end = false).

(** Someone types a link without a segment. *)
Definition bad_link_env : Env :=
  with_input (Ok (u "https://classroom.google.com/h")) quiet_env.

(** The prompt is answered with Ctrl-C. *)
Definition interrupted_env : Env :=
  with_input (Raise (Exn KeyboardInterrupt [])) quiet_env.

(** * Further vocabulary *)

(** ** The link decoder, the other way round *)

(** Standard base64 encoding (RFC 4648, section 4), the inverse of the
    reference decoder: the link a classroom shows is built this way from
    the course id. *)
Module Encode.

Definition alphabet_char (v : N) : N :=
  if v <? 26 then 0x41 + v
  else if v <? 52 then 0x61 + (v - 26)
  else if v <? 62 then 0x30 + (v - 52)
  else if v =? 62 then 0x2B
  else 0x2F.

(** The four characters of three octets. *)
Definition quad (a b c : N) : str :=
  map alphabet_char [a / 4; (a mod 4) * 16 + b / 16; (b mod 16) * 4 + c / 64; c mod 64].

Fixpoint b64encode (bs : list N) : str :=
  match bs with
  | a :: b :: c :: rest => quad a b c ++ b64encode rest
  | [a; b] => take 3 (quad a b 0) ++ [Base64.PAD]
  | [a] => take 2 (quad a 0 0) ++ [Base64.PAD; Base64.PAD]
  | [] => []
  end.

End Encode.

(** An ASCII decimal digit. *)
Definition ascii_digit (c : N) : bool := in_range 0x30 0x39 c.

Definition ascii_digits : list N := map N.of_nat (seq 48 10).

(** The three digits pass through the encoder and the C loop unharmed, and
    their four characters are segment characters of the standard alphabet. *)
Definition digit_quad_ok (a b c : N) : bool :=
  forallb (fun x => Re.id_char x && negb (url_only x) && (x <? 128)
                    && negb (x =? Base64.PAD)) (Encode.quad a b c)
  && match values (Encode.quad a b c) with
     | [v1; v2; v3; v4] =>
         bool_decide ([loop_octet1 v1 v2; loop_octet2 v2 v3; loop_octet3 v3 v4] = [a; b; c])
     | _ => false
     end.

(** The characters that encode one or two last digits, before the padding:
    segment characters with two or three six-bit values. *)
Definition digit_tail_ok (a b : N) : bool :=
  forallb (fun x => Re.id_char x && (x <? 128) && negb (x =? Base64.PAD))
    (take 2 (Encode.quad a 0 0) ++ take 3 (Encode.quad a b 0))
  && (length (values (take 2 (Encode.quad a 0 0))) =? 2)%nat
  && (length (values (take 3 (Encode.quad a b 0))) =? 3)%nat.

(** What the link decoder raises when the padding is missing. *)
Definition incorrect_padding_error : exn :=
  Exn ValueError (u "Failed to decode course ID: Incorrect padding").

(** The address under which a classroom shows a course. *)
Definition classroom_url : str := u "https://classroom.google.com/c/".

(** ** The file downloader *)

(** A file name that names an entry of the directory it is joined to: not
    empty, without a separator, and neither of the two dot entries. *)
Definition plain_name (name : str) : Prop :=
  name <> [] /\ (SEP ∉ name) /\ name <> u "." /\ name <> u "..".

(** The directory and its leading directories are there. *)
Definition directory_ready (st : State) (d : str) : Prop :=
  fs st !! d = Some Dir /\ Forall (fun q => fs st !! q = Some Dir) (parents d).

(** Outside [path] every entry stays and no file appears or changes, and
    the only requests sent are for [file_id]. *)
Definition touches_only (path file_id : str) (st st' : State) : Prop :=
  (forall p n, p <> path -> fs st !! p = Some n -> fs st' !! p = Some n)
  /\ (forall p c, p <> path -> fs st' !! p = Some (File c) -> fs st !! p = Some (File c))
  /\ exists k, requests st' = requests st ++ replicate k file_id.

(** The answers of a download in [parts] pieces that are not the last. *)
Definition pieces (parts : list (list N * N)) : list reply :=
  map (fun part => Chunk (fst part) (snd part) false) parts.

(** The progress lines of those pieces. *)
Definition progress_lines (file_name : str) (parts : list (list N * N)) : list str :=
  map (fun part => u "Downloading " ++ file_name ++ u ": " ++ str_of_N (snd part) ++ u "%")
    parts.

Definition with_media (m : str -> list reply) (env : Env) : Env :=
  {| pip_version := pip_version env; import_package := import_package env;
     pip_install := pip_install env;
     from_authorized_user_file := from_authorized_user_file env;
     refresh := refresh env; from_client_secrets_file := from_client_secrets_file env;
     run_local_server := run_local_server env; build := build env;
     input_line := input_line env; getcwd := getcwd env;
     fault := fault env; broken_link := broken_link env;
     courses_get := courses_get env; announcements_list := announcements_list env;
     courseWorkMaterials_list := courseWorkMaterials_list env; media := m |}.

(** The folder exists, the file does not. *)
Definition ready_state : State :=
  state_of [ (u "/data", Dir); (u "/data/OS", Dir); (u "/data/OS/Week 1", Dir) ].

(** The service sends two pieces and the rest. *)
Definition three_piece_env : Env :=
  with_media (fun _ => [ Chunk (u "ab") 40 false; Chunk (u "cd") 80 false;
                         Chunk (u "e") 100 true ]) quiet_env.

(** The service sends one piece, then the connection breaks. *)
Definition broken_env : Env :=
  with_media (fun _ => [ Chunk (u "ab") 40 false;
                         Failed (Exn HttpError (u "connection reset")) ]) quiet_env.

(** ** The orchestrator *)

(** The folder the announcement loop uses for a group. *)
Definition announcement_folder (output_dir : str) (g : group) (materials : list material)
  : str :=
  path_join output_dir
    (named_folder (Some (get_title g)) (Some (first_file_name materials))).

(** The folder the coursework loop uses for one file of a group. *)
Definition coursework_folder (output_dir : str) (g : group) (file : drive_file) : str :=
  path_join output_dir
    (if truthy (strip (get_title g))
     then named_folder (Some (get_title g)) (Some [])
     else named_folder None (Some (file_name_of file))).

(** The calls the two loops make for a group. *)
Definition announcement_calls_of (output_dir : str) (g : group) : list call :=
  match materials_of g with
  | Some ms => call_into (fun _ => announcement_folder output_dir g ms) <$> drive_files ms
  | None => []
  end.

Definition coursework_calls_of (output_dir : str) (g : group) : list call :=
  match materials_of g with
  | Some ms => call_into (coursework_folder output_dir g) <$> drive_files ms
  | None => []
  end.

(** The root folder of a course: spaces and slashes of its name replaced. *)
Definition root_of (env : Env) (c : course) : str :=
  path_join (getcwd env) (replace_char 0x2F 0x5F (replace_char 0x20 0x5F (name_of c))).

Definition with_course (r : str -> result course) (env : Env) : Env :=
  {| pip_version := pip_version env; import_package := import_package env;
     pip_install := pip_install env;
     from_authorized_user_file := from_authorized_user_file env;
     refresh := refresh env; from_client_secrets_file := from_client_secrets_file env;
     run_local_server := run_local_server env; build := build env;
     input_line := input_line env; getcwd := getcwd env;
     fault := fault env; broken_link := broken_link env;
     courses_get := r; announcements_list := announcements_list env;
     courseWorkMaterials_list := courseWorkMaterials_list env; media := media env |}.

(** What [sys.exit(1)] raises. *)
Definition exit_1 : exn := Exn SystemExit (u "1").

Definition with_pip (v : option exn) (env : Env) : Env :=
  {| pip_version := v; import_package := import_package env;
     pip_install := pip_install env;
     from_authorized_user_file := from_authorized_user_file env;
     refresh := refresh env; from_client_secrets_file := from_client_secrets_file env;
     run_local_server := run_local_server env; build := build env;
     input_line := input_line env; getcwd := getcwd env;
     fault := fault env; broken_link := broken_link env;
     courses_get := courses_get env; announcements_list := announcements_list env;
     courseWorkMaterials_list := courseWorkMaterials_list env; media := media env |}.

Definition with_token (r : result credentials) (env : Env) : Env :=
  {| pip_version := pip_version env; import_package := import_package env;
     pip_install := pip_install env;
     from_authorized_user_file := r;
     refresh := refresh env; from_client_secrets_file := from_client_secrets_file env;
     run_local_server := run_local_server env; build := build env;
     input_line := input_line env; getcwd := getcwd env;
     fault := fault env; broken_link := broken_link env;
     courses_get := courses_get env; announcements_list := announcements_list env;
     courseWorkMaterials_list := courseWorkMaterials_list env; media := media env |}.

(** A titled group with a link and two numbered files. *)
Definition titled_group : group :=
  {| title_of := Some (u " Unit 2: I/O "); materials_of := Some untitled_materials |}.

(** A stored token that ran out but can be refreshed. *)
Definition stale_credentials : credentials :=
  {| valid := false; expired := true; refresh_token := Some (u "r-token");
     to_json := u "{stale}" |}.

Definition fresh_credentials : credentials :=
  {| valid := true; expired := false; refresh_token := Some (u "r-token");
     to_json := u "{fresh}" |}.

Definition stale_env : Env :=
  {| pip_version := None;
     import_package := fun _ => None;
     pip_install := fun _ => None;
     from_authorized_user_file := Ok stale_credentials;
     refresh := fun _ => Ok fresh_credentials;
     from_client_secrets_file := None;
     run_local_server := Raise (Exn RefreshError (u "no browser"));
     build := fun _ => None;
     input_line := Ok (u "https://classroom.google.com/c/NjA1MDk3MzYzMjQ2");
     getcwd := u "/data";
     fault := fun _ => None;
     broken_link := fun _ => false;
     courses_get := fun _ => Ok {| name_of := u "OS" |};
     announcements_list := fun _ => Ok [];
     courseWorkMaterials_list := fun _ => Ok [];
     media := fun _ => [Chunk (u "fresh") 100 true] |}.

(** * The vocabulary of whole runs *)

(** ** Runs that come to their end *)

(** A directory with its leading directories, outermost first: what
    [os.makedirs] goes through. *)
Definition chain (d : str) : list str := parents d ++ [d].

(** The file service raises nothing but exceptions of class [Exception]
    for the file. *)
Definition gentle (env : Env) (file_id : str) : Prop :=
  Forall (fun r => match r with
                   | Failed e => isinstance e Exception = true
                   | Chunk _ _ _ => True
                   end) (media env file_id).

(** The directories [dirs] can be made: the environment refuses none of
    them, and neither a file nor a broken link is in the way. *)
Definition can_make (env : Env) (st : State) (dirs : list str) : Prop :=
  forall q, q ∈ dirs ->
    fault env q = None
    /\ broken_link env q = false
    /\ forall c, fs st !! q <> Some (File c).

(** The call [c] can be served without harm to the directories [dirs]:
    its destination is none of them, and what opening the destination or
    the file service may raise is of class [Exception]. *)
Definition can_serve (env : Env) (dirs : list str) (c : call) : Prop :=
  let '(file_id, file_name, output_dir) := c in
  (path_join output_dir file_name ∉ dirs)
  /\ (forall e, fault env (path_join output_dir file_name) = Some e ->
                isinstance e Exception = true)
  /\ gentle env file_id.

(** The world lets a group be processed: the folder of the group and the
    folders of the calls can be made, and every call can be served. *)
Definition cooperative (env : Env) (st : State) (group_folder : str) (expected : list call)
  : Prop :=
  let dirs := chain group_folder ++ (expected ≫= fun c => chain (snd c)) in
  can_make env st dirs /\ Forall (can_serve env dirs) expected.

(** ** The guard of the file downloader *)

Definition with_broken_link (b : str -> bool) (env : Env) : Env :=
  {| pip_version := pip_version env; import_package := import_package env;
     pip_install := pip_install env;
     from_authorized_user_file := from_authorized_user_file env;
     refresh := refresh env; from_client_secrets_file := from_client_secrets_file env;
     run_local_server := run_local_server env; build := build env;
     input_line := input_line env; getcwd := getcwd env;
     fault := fault env; broken_link := b;
     courses_get := courses_get env; announcements_list := announcements_list env;
     courseWorkMaterials_list := courseWorkMaterials_list env; media := media env |}.

(** The folder exists, and a directory sits where the download would go. *)
Definition taken_state : State :=
  state_of [ (u "/data", Dir); (u "/data/OS", Dir); (u "/data/OS/Week 1", Dir);
             (u "/data/OS/Week 1/notes.pdf", Dir) ].

(** A symbolic link whose target is missing sits where the download would
    go. *)
Definition link_env : Env :=
  with_broken_link (fun p => bool_decide (p = u "/data/OS/Week 1/notes.pdf")) quiet_env.

(** The line [download_file] prints when it skips a download. *)
Definition skip_line (file_name file_path : str) : str :=
  u "File " ++ file_name ++ u " already exists at " ++ file_path ++ u ", skipping download.".

(** ** The last line of a run *)

(** The classroom service does not know the course. *)
Definition no_course_env : Env :=
  with_course (fun _ => Raise (Exn HttpError (u "404 not found"))) quiet_env.

(** The lines [main] ends with: the completion line, or the line of one of
    its two handlers. *)
Definition final_line (line : str) : Prop :=
  (exists dir, line = u "All files downloaded to: " ++ dir)
  \/ (exists text, line = u "Error accessing course: " ++ text)
  \/ (exists text, line = u "An error occurred: " ++ text).

(** * Proofs *)

(** ** Runs of the link decoder *)

Example utf8_ex1 :
  Utf8.decode [0x41; 0xC3; 0xA9; 0xE2; 0x82; 0xAC; 0xF0; 0x9F; 0x98; 0x80]
  = Some [0x41; 0xE9; 0x20AC; 0x1F600].
Proof. vm_compute. reflexivity. Qed.

Example utf8_ex2 :
  Utf8.decode [0xC0; 0x80] = None /\ Utf8.decode [0xED; 0xA0; 0x80] = None
  /\ Utf8.decode [0xFF] = None /\ Utf8.decode [0xE2; 0x82] = None
  /\ Utf8.decode [0xF4; 0x90; 0x80; 0x80] = None.
Proof. vm_compute. repeat split; reflexivity. Qed.

Example extract_ex1 :
  extract_course_id (u "https://classroom.google.com/c/NjA1MDk3MzYzMjQ2?cjc=abc")
  = Ok (u "605097363246").
Proof. vm_compute. reflexivity. Qed.

Example extract_ex2 :
  extract_course_id (u "https://classroom.google.com/c/QU-JD") = Ok (u "ABC").
Proof. vm_compute. reflexivity. Qed.

Example extract_ex3 :
  extract_course_id (u "https://classroom.google.com/c/QUJDR")
  = Raise (Exn ValueError (u "Failed to decode course ID: Invalid base64-encoded string: number of data characters (5) cannot be 1 more than a multiple of 4")).
Proof. vm_compute. reflexivity. Qed.

(** ** Strings and patterns *)

Lemma drop_while_split p s :
  exists l, s = l ++ drop_while p s /\ Forall (fun c => p c = true) l
            /\ (forall c, head (drop_while p s) = Some c -> p c = false).
Proof.
  induction s as [|c s IH]; simpl.
  - exists []. repeat split; [constructor | intros c [=]].
  - destruct (p c) eqn:Hc.
    + destruct IH as (l & Hl & Hall & Hhd).
      exists (c :: l). repeat split; [simpl; congruence | constructor; assumption | assumption].
    + exists []. repeat split; [constructor |]. intros c' [= <-]. exact Hc.
Qed.

(** [strip] removes a run of whitespace at each end and leaves a text that
    neither starts nor ends with whitespace. *)
Lemma strip_spec s :
  exists l r, s = l ++ strip s ++ r
    /\ Forall (fun c => Unicode.isspace c = true) l
    /\ Forall (fun c => Unicode.isspace c = true) r
    /\ (forall c, head (strip s) = Some c -> Unicode.isspace c = false)
    /\ (forall c, last (strip s) = Some c -> Unicode.isspace c = false).
Proof.
  unfold strip, rstrip, lstrip.
  destruct (drop_while_split Unicode.isspace s) as (l & Hl & Hall & Hhd).
  set (m := drop_while Unicode.isspace s) in *.
  destruct (drop_while_split Unicode.isspace (reverse m)) as (r & Hr & Hrall & Hrhd).
  set (k := drop_while Unicode.isspace (reverse m)) in *.
  assert (Hm : m = reverse k ++ reverse r).
  { rewrite <- reverse_app, <- Hr, reverse_involutive. reflexivity. }
  exists l, (reverse r). repeat split.
  - rewrite <- Hm. exact Hl.
  - exact Hall.
  - apply Forall_reverse, Hrall.
  - intros c Hc. apply Hhd. rewrite Hm. destruct (reverse k); [discriminate|].
    simpl in *. exact Hc.
  - intros c Hc. apply Hrhd. rewrite last_reverse in Hc. exact Hc.
Qed.

Lemma span_app p ds c rest :
  Forall (fun x => p x = true) ds -> p c = false ->
  Re.span p (ds ++ c :: rest) = (ds, c :: rest).
Proof.
  intros Hds Hc. induction Hds as [|d ds Hd _ IH]; simpl.
  - rewrite Hc. reflexivity.
  - rewrite Hd, IH. reflexivity.
Qed.

Lemma span_spec p s a b :
  Re.span p s = (a, b) ->
  s = a ++ b /\ Forall (fun x => p x = true) a
  /\ (forall c, head b = Some c -> p c = false).
Proof.
  revert a b. induction s as [|c s IH]; simpl; intros a b H.
  - injection H as <- <-. repeat split; [constructor | intros c [=]].
  - destruct (p c) eqn:Hc.
    + destruct (Re.span p s) as [a' b'] eqn:Hs. injection H as <- <-.
      destruct (IH _ _ eq_refl) as (-> & Ha & Hb).
      repeat split; [constructor; assumption | assumption].
    + injection H as <- <-. repeat split; [constructor |].
      intros c' [= <-]. exact Hc.
Qed.

(** The pattern of the module number matches exactly the texts that start
    with a non-empty run of decimal digits followed by a dot, and group 1
    is that run. *)
Lemma match_module_spec s ds :
  Re.match_module s = Some ds <->
  exists rest, s = ds ++ 0x2E :: rest /\ ds <> []
               /\ Forall (fun c => Unicode.isdecimal c = true) ds.
Proof.
  unfold Re.match_module. split.
  - destruct (Re.span Unicode.isdecimal s) as [a b] eqn:Hs.
    destruct (span_spec _ _ _ _ Hs) as (-> & Ha & _).
    destruct a as [|a0 a]; [discriminate|].
    destruct b as [|b0 b]; [discriminate|].
    destruct (N.eq_dec b0 0x2E) as [->|Hne].
    + intros [= <-]. exists b. repeat split; [discriminate | assumption].
    + intros H. exfalso. destruct b0 as [|q]; [discriminate|].
      do 6 (destruct q as [q|q|]; try discriminate); congruence.
  - intros (rest & -> & Hne & Hds).
    rewrite (span_app _ ds 0x2E rest Hds eq_refl).
    destruct ds; [congruence | reflexivity].
Qed.

(** ** The folder namer *)

Lemma illegal_char_spec c : Re.illegal_char c = true <-> c ∈ illegal_chars.
Proof.
  unfold Re.illegal_char. rewrite !orb_true_iff, !N.eqb_eq.
  change illegal_chars with [0x3C; 0x3E; 0x3A; 0x2F; 0x5C; 0x7C; 0x3F; 0x2A; 0x22].
  rewrite !elem_of_cons, elem_of_nil. tauto.
Qed.

Lemma sub_illegal_lookup s i c :
  s !! i = Some c ->
  Re.sub_illegal s !! i = Some (if bool_decide (c ∈ illegal_chars) then UNDERSCORE else c).
Proof.
  intros H. unfold Re.sub_illegal.
  change (map ?f s) with (f <$> s). rewrite list_lookup_fmap, H. simpl. f_equal.
  destruct (Re.illegal_char c) eqn:Hc.
  - apply illegal_char_spec in Hc. rewrite bool_decide_eq_true_2; auto.
  - rewrite bool_decide_eq_false_2; auto.
    intros Hin. apply illegal_char_spec in Hin. congruence.
Qed.

Lemma truthy_nonempty (s : str) : truthy s = true <-> s <> [].
Proof. destruct s; simpl; split; congruence. Qed.

Lemma folder_name_titled t file_name st :
  strip t <> [] ->
  folder_name (Some t) file_name st = Ok (Re.sub_illegal (strip t)).
Proof.
  intros H. apply truthy_nonempty in H.
  unfold folder_name, get_folder_name_from_title, bind, print, ret. simpl.
  rewrite H. reflexivity.
Qed.

Lemma folder_name_untitled parent_title file_name st :
  blank parent_title ->
  folder_name parent_title file_name st =
    match file_name with
    | Some f =>
        match Re.match_module (strip f) with
        | Some ds => if truthy f then Ok (u "Module " ++ ds) else Ok (u "Other_Materials")
        | None => Ok (u "Other_Materials")
        end
    | None => Ok (u "Other_Materials")
    end.
Proof.
  intros Hb.
  assert (Hsel : match parent_title with
                 | Some t => if truthy (strip t) then Some (strip t) else None
                 | None => None
                 end = @None str).
  { destruct parent_title as [t|]; [|reflexivity]. simpl in Hb. rewrite Hb. reflexivity. }
  unfold folder_name, get_folder_name_from_title, bind, print, ret. simpl.
  rewrite Hsel.
  destruct file_name as [f|]; [|reflexivity].
  destruct (truthy f) eqn:Hf; simpl.
  - destruct (truthy (strip f)) eqn:Hsf.
    + destruct (Re.match_module (strip f)); reflexivity.
    + destruct (strip f); [|discriminate]. reflexivity.
  - destruct (Re.match_module (strip f)); reflexivity.
Qed.

(** C2, as the code has it: for every parent title that is non-empty after
    trimming, the folder namer returns the trimmed title in which each of
    the nine characters less-than, greater-than, colon, double quote,
    slash, backslash, bar, question mark and star is replaced by an
    underscore and every other character, a space included, is kept; so
    the title Week 1: Intro gives Week 1_ Intro. *)
Theorem folder_name_from_title (t : str) (file_name : option str) (st : State) :
  strip t <> [] ->
  (exists r,
      folder_name (Some t) file_name st = Ok r
      /\ length r = length (strip t)
      /\ forall i c, strip t !! i = Some c ->
           r !! i = Some (if bool_decide (c ∈ illegal_chars) then UNDERSCORE else c))
  /\ folder_name (Some (u "Week 1: Intro")) (Some (u "")) st = Ok (u "Week 1_ Intro").
Proof.
  intros H. split.
  - exists (Re.sub_illegal (strip t)). split; [|split].
    + apply folder_name_titled, H.
    + unfold Re.sub_illegal. apply length_map.
    + intros i c Hi. apply sub_illegal_lookup, Hi.
  - rewrite folder_name_titled; [reflexivity | vm_compute; discriminate].
Qed.

Lemma folder_name_from_title_witness :
  strip (u "  a/b:c ") <> []
  /\ exists r,
      folder_name (Some (u "  a/b:c ")) None empty_state = Ok r
      /\ length r = length (strip (u "  a/b:c "))
      /\ forall i c, strip (u "  a/b:c ") !! i = Some c ->
           r !! i = Some (if bool_decide (c ∈ illegal_chars) then UNDERSCORE else c).
Proof.
  assert (H : strip (u "  a/b:c ") <> []) by (vm_compute; discriminate).
  split; [exact H|].
  exact (proj1 (folder_name_from_title (u "  a/b:c ") None empty_state H)).
Defined.

(** C2 as stated fails: the title Week 1: Intro keeps its two spaces, and
    the folder namer does not return Week_1__Intro. *)
Lemma folder_name_week1_keeps_spaces :
  folder_name (Some (u "Week 1: Intro")) (Some (u "")) empty_state
    = Ok (u "Week 1_ Intro")
  /\ folder_name (Some (u "Week 1: Intro")) (Some (u "")) empty_state
    <> Ok (u "Week_1__Intro").
Proof. split; [vm_compute; reflexivity | vm_compute; discriminate]. Qed.

(** C5: for every parent title that is absent, empty or all whitespace: when
    the trimmed file name starts with a non-empty run of decimal digits
    followed by a dot, the folder namer returns Module followed by that run
    (so a file named 3.2 Scheduling.pdf goes to Module 3); in every other
    case it returns Other_Materials (so an empty file name goes there). *)
Theorem folder_name_from_file_name (parent_title file_name : option str) (st : State) :
  blank parent_title ->
  (forall f ds rest,
      file_name = Some f -> strip f = ds ++ 0x2E :: rest -> ds <> [] ->
      Forall (fun c => Unicode.isdecimal c = true) ds ->
      folder_name parent_title file_name st = Ok (u "Module " ++ ds))
  /\ ((forall f ds rest,
          file_name = Some f -> strip f = ds ++ 0x2E :: rest -> ds <> [] ->
          ~ Forall (fun c => Unicode.isdecimal c = true) ds) ->
      folder_name parent_title file_name st = Ok (u "Other_Materials"))
  /\ folder_name (Some (u "")) (Some (u "3.2 Scheduling.pdf")) st = Ok (u "Module 3")
  /\ folder_name (Some (u "")) (Some (u "")) st = Ok (u "Other_Materials").
Proof.
  intros Hb. split; [|split; [|split]].
  - intros f ds rest -> Hf Hne Hds.
    rewrite (folder_name_untitled _ _ _ Hb).
    assert (Hm : Re.match_module (strip f) = Some ds).
    { apply match_module_spec. exists rest. auto. }
    rewrite Hm.
    destruct f as [|c f]; [|reflexivity].
    exfalso. vm_compute in Hf. destruct ds; discriminate.
  - intros Hno. rewrite (folder_name_untitled _ _ _ Hb).
    destruct file_name as [f|]; [|reflexivity].
    destruct (Re.match_module (strip f)) as [ds|] eqn:Hm; [|reflexivity].
    exfalso. apply match_module_spec in Hm. destruct Hm as (rest & Hf & Hne & Hds).
    exact (Hno f ds rest eq_refl Hf Hne Hds).
  - rewrite folder_name_untitled; [reflexivity | reflexivity].
  - rewrite folder_name_untitled; [reflexivity | reflexivity].
Qed.

Lemma folder_name_from_file_name_witness :
  blank (Some (u "   "))
  /\ folder_name (Some (u "   ")) (Some (u " 12.1 Threads.pdf")) empty_state
     = Ok (u "Module 12").
Proof.
  assert (H : blank (Some (u "   "))) by (vm_compute; reflexivity).
  split; [exact H|].
  apply (proj1 (folder_name_from_file_name (Some (u "   "))
                  (Some (u " 12.1 Threads.pdf")) empty_state H)
           (u " 12.1 Threads.pdf") (u "12") (u "1 Threads.pdf")).
  - reflexivity.
  - vm_compute. reflexivity.
  - discriminate.
  - repeat constructor.
Defined.

(** ** The link decoder *)

Example rfc4648_ex1 : Rfc4648.decode (u "QUJD") = Some (u "ABC").
Proof. vm_compute. reflexivity. Qed.

Example rfc4648_ex2 : Rfc4648.decode (u "QUI=") = Some (u "AB").
Proof. vm_compute. reflexivity. Qed.

Example rfc4648_ex3 : Rfc4648.decode (u "QQ==") = Some (u "A").
Proof. vm_compute. reflexivity. Qed.

Example rfc4648_ex4 : Rfc4648.decode (u "QU-JD") = None.
Proof. vm_compute. reflexivity. Qed.

Lemma value_lt c v : Base64.value c = Some v -> v < 64.
Proof.
  unfold Base64.value, in_range.
  repeat (match goal with |- context [if ?b then _ else _] => destruct b eqn:? end);
    intros [= <-]; try lia;
    repeat match goal with
           | H : (_ && _)%bool = true |- _ => apply andb_true_iff in H; destruct H
           | H : (_ <=? _) = true |- _ => apply N.leb_le in H
           end; lia.
Qed.

Lemma in_sextets v : v < 64 -> In v sextets.
Proof.
  intros H. unfold sextets. apply in_map_iff. exists (N.to_nat v). split.
  - apply N2Nat.id.
  - apply in_seq. lia.
Qed.

Lemma for_all_pairs (P : N -> N -> bool) :
  forallb (fun a => forallb (P a) sextets) sextets = true ->
  forall a b, a < 64 -> b < 64 -> P a b = true.
Proof.
  intros H a b Ha Hb.
  rewrite forallb_forall in H. specialize (H a (in_sextets a Ha)).
  rewrite forallb_forall in H. exact (H b (in_sextets b Hb)).
Qed.

Lemma loop_octets_group a b c d :
  a < 64 -> b < 64 -> c < 64 -> d < 64 ->
  [loop_octet1 a b; loop_octet2 b c; loop_octet3 c d] = Rfc4648.group a b c d.
Proof.
  intros Ha Hb Hc Hd. unfold Rfc4648.group.
  assert (H1 := for_all_pairs (fun a b => loop_octet1 a b =? a * 4 + b / 16)
                  ltac:(vm_compute; reflexivity) a b Ha Hb).
  assert (H2 := for_all_pairs (fun b c => loop_octet2 b c =? (b mod 16) * 16 + c / 4)
                  ltac:(vm_compute; reflexivity) b c Hb Hc).
  assert (H3 := for_all_pairs (fun c d => loop_octet3 c d =? (c mod 4) * 64 + d)
                  ltac:(vm_compute; reflexivity) c d Hc Hd).
  apply N.eqb_eq in H1, H2, H3. congruence.
Qed.

Lemma a2b_loop_pad_free s :
  Base64.PAD ∉ s ->
  forall out pads,
    (forall lc, Base64.a2b_loop s 0 lc pads out = finish out (values s))
    /\ (forall a, Base64.a2b_loop s 1 a pads out = finish out (a :: values s))
    /\ (forall a b, Base64.a2b_loop s 2 (N.land b 0x0F) pads (out ++ [loop_octet1 a b])
                    = finish out (a :: b :: values s))
    /\ (forall a b c, Base64.a2b_loop s 3 (N.land c 0x03) pads
                        (out ++ [loop_octet1 a b; loop_octet2 b c])
                      = finish out (a :: b :: c :: values s)).
Proof.
  induction s as [|ch s IH]; intros Hpad out pads.
  - repeat split; reflexivity.
  - assert (Hch : (ch =? Base64.PAD) = false).
    { apply N.eqb_neq. intros ->. apply Hpad. left. }
    assert (Hs : Base64.PAD ∉ s).
    { intros Hin. apply Hpad. right. exact Hin. }
    specialize (IH Hs).
    unfold values in *. simpl omap. simpl Base64.a2b_loop. rewrite Hch.
    destruct (Base64.value ch) as [v|] eqn:Hv.
    + repeat split; intros.
      * apply (IH out 0).
      * apply (IH out 0).
      * rewrite <- app_assoc. apply (IH out 0).
      * rewrite <- app_assoc. simpl app.
        change (out ++ [loop_octet1 a b; loop_octet2 b c;
                        Base64.octet (N.lor (N.shiftl (N.land c 3) 6) v)])
          with (out ++ [loop_octet1 a b; loop_octet2 b c; loop_octet3 c v]).
        apply (IH _ 0).
    + repeat split; intros; apply (IH out pads).
Qed.

Lemma quad_ind (P : list N -> Prop) :
  P [] -> (forall a, P [a]) -> (forall a b, P [a; b]) -> (forall a b c, P [a; b; c]) ->
  (forall a b c d vs, P vs -> P (a :: b :: c :: d :: vs)) ->
  forall vs, P vs.
Proof.
  intros H0 H1 H2 H3 H4.
  assert (H : forall vs, P vs /\ (forall a, P (a :: vs)) /\ (forall a b, P (a :: b :: vs))
                         /\ (forall a b c, P (a :: b :: c :: vs))).
  { induction vs as [|v vs (Ha & Hb & Hc & Hd)]; [auto|].
    repeat split; auto. }
  intros vs. apply H.
Qed.

(** On sextets, the loop ends well exactly for whole groups, with the
    octets of the reference. *)
Lemma finish_octets vs :
  Forall (fun v => v < 64) vs ->
  forall out,
    if N.of_nat (length vs) mod 4 =? 0
    then finish out vs = Ok (out ++ Rfc4648.octets vs)
    else exists e, finish out vs = Raise e /\ exn_cls e = BinasciiError.
Proof.
  induction vs as [| a | a b | a b c | a b c d vs IH] using quad_ind; intros Hlt out.
  - simpl. rewrite app_nil_r. reflexivity.
  - simpl. eexists; split; reflexivity.
  - simpl. eexists; split; reflexivity.
  - simpl. eexists; split; reflexivity.
  - inversion Hlt as [|? ? Ha Hlt1]; subst. inversion Hlt1 as [|? ? Hb Hlt2]; subst.
    inversion Hlt2 as [|? ? Hc Hlt3]; subst. inversion Hlt3 as [|? ? Hd Hlt4]; subst.
    specialize (IH Hlt4 (out ++ [loop_octet1 a b; loop_octet2 b c; loop_octet3 c d])).
    replace (N.of_nat (length (a :: b :: c :: d :: vs)) mod 4)
      with (N.of_nat (length vs) mod 4).
    2:{ simpl length. rewrite !Nat2N.inj_succ.
        replace (N.succ (N.succ (N.succ (N.succ (N.of_nat (length vs))))))
          with (N.of_nat (length vs) + 1 * 4) by lia.
        rewrite N.Div0.mod_add. reflexivity. }
    change (finish out (a :: b :: c :: d :: vs))
      with (finish (out ++ [loop_octet1 a b; loop_octet2 b c; loop_octet3 c d]) vs).
    destruct (N.of_nat (length vs) mod 4 =? 0).
    + rewrite IH. rewrite loop_octets_group by assumption.
      rewrite <- app_assoc. reflexivity.
    + exact IH.
Qed.

Ltac bool_to_prop :=
  unfold in_range in *;
  repeat match goal with
         | H : (_ || _)%bool = true |- _ => apply orb_true_iff in H; destruct H
         | H : (_ || _)%bool = false |- _ => apply orb_false_iff in H; destruct H
         | H : (_ && _)%bool = true |- _ => apply andb_true_iff in H; destruct H
         | H : (_ && _)%bool = false |- _ => apply andb_false_iff in H; destruct H
         | H : (_ <=? _) = true |- _ => apply N.leb_le in H
         | H : (_ <=? _) = false |- _ => apply N.leb_gt in H
         | H : (_ <? _) = true |- _ => apply N.ltb_lt in H
         | H : (_ <? _) = false |- _ => apply N.ltb_ge in H
         | H : (_ =? _) = true |- _ => apply N.eqb_eq in H
         | H : (_ =? _) = false |- _ => apply N.eqb_neq in H
         end.

Lemma id_char_ascii c : Re.id_char c = true -> c < 128 /\ c <> Base64.PAD.
Proof.
  unfold Re.id_char, Base64.PAD. intros H. bool_to_prop; lia.
Qed.

Lemma id_char_value c :
  Re.id_char c = true ->
  if url_only c then Base64.value c = None else exists v, Base64.value c = Some v.
Proof.
  unfold Re.id_char, url_only, Base64.value. intros H.
  destruct ((c =? 0x2D) || (c =? 0x5F))%bool eqn:Hu.
  - repeat (match goal with |- context [if ?b then _ else _] => destruct b eqn:? end);
      try reflexivity; exfalso; bool_to_prop; lia.
  - repeat (match goal with |- context [if ?b then _ else _] => destruct b eqn:? end);
      eauto; exfalso; bool_to_prop; lia.
Qed.

Lemma values_standard_part seg :
  Forall (fun c => Re.id_char c = true) seg ->
  values seg = values (standard_part seg)
  /\ mapM Base64.value (standard_part seg) = Some (values seg)
  /\ Base64.PAD ∉ standard_part seg.
Proof.
  induction 1 as [|c seg Hc _ (IH1 & IH2 & IH3)].
  - split; [reflexivity | split; [reflexivity | apply not_elem_of_nil]].
  - pose proof (id_char_value c Hc) as Hv.
    pose proof (id_char_ascii c Hc) as [_ Hp].
    unfold values, standard_part in *. simpl.
    destruct (url_only c); simpl.
    + rewrite Hv. auto.
    + destruct Hv as [v Hv]. rewrite Hv. simpl.
      split; [f_equal; exact IH1 | split].
      * rewrite IH2. reflexivity.
      * rewrite not_elem_of_cons. split; [congruence | exact IH3].
Qed.

Lemma unpad_pad_free s : Base64.PAD ∉ s -> Rfc4648.unpad s = s.
Proof.
  intros H. unfold Rfc4648.unpad.
  destruct (reverse s) as [|c r] eqn:Hr; [reflexivity|].
  assert (Hc : c <> Base64.PAD).
  { intros ->. apply H. apply elem_of_reverse. rewrite Hr. left. }
  unfold Base64.PAD in Hc.
  destruct c as [|q]; [reflexivity|].
  do 6 (destruct q as [q|q|]; try reflexivity); congruence.
Qed.

Lemma values_lt s : Forall (fun v => v < 64) (values s).
Proof.
  unfold values. induction s as [|c s IH]; simpl; [constructor|].
  destruct (Base64.value c) eqn:Hv; [|exact IH].
  constructor; [eapply value_lt, Hv | exact IH].
Qed.

Lemma length_values_standard_part seg :
  Forall (fun c => Re.id_char c = true) seg ->
  length (values seg) = length (standard_part seg).
Proof.
  intros H. destruct (values_standard_part seg H) as (_ & Hm & _).
  symmetry. apply (length_mapM _ _ _ Hm).
Qed.

(** On a segment, Python's lenient decoder does what the reference decoder
    does on the segment without its hyphens and underscores. *)
Lemma b64decode_segment seg :
  Forall (fun c => Re.id_char c = true) seg ->
  match Rfc4648.decode (standard_part seg) with
  | Some raw => Base64.b64decode seg = Ok raw
  | None => exists e, Base64.b64decode seg = Raise e
  end.
Proof.
  intros Hseg.
  assert (Hascii : forallb (fun c => c <? 128) seg = true).
  { apply forallb_forall. intros c Hc. apply N.ltb_lt.
    rewrite Forall_forall in Hseg. apply id_char_ascii, Hseg, list_elem_of_In, Hc. }
  assert (Hpad : Base64.PAD ∉ seg).
  { intros Hin. rewrite Forall_forall in Hseg.
    destruct (id_char_ascii _ (Hseg _ Hin)) as [_ Hne]. congruence. }
  destruct (values_standard_part seg Hseg) as (Hvals & Hmap & Hpad').
  unfold Base64.b64decode. rewrite Hascii.
  destruct (a2b_loop_pad_free seg Hpad [] 0) as (-> & _).
  unfold Rfc4648.decode.
  rewrite <- (length_values_standard_part seg Hseg), (unpad_pad_free _ Hpad'), Hmap.
  pose proof (finish_octets (values seg) (values_lt seg) []) as Hfin.
  destruct (N.of_nat (length (values seg)) mod 4 =? 0).
  - simpl. exact Hfin.
  - destruct Hfin as (e & He & _). eauto.
Qed.

Lemma span_run p ds post :
  Forall (fun x => p x = true) ds ->
  (forall c, head post = Some c -> p c = false) ->
  Re.span p (ds ++ post) = (ds, post).
Proof.
  intros Hds Hpost. destruct post as [|c post].
  - rewrite app_nil_r. induction Hds as [|d ds Hd _ IH]; simpl; [reflexivity|].
    rewrite Hd, IH. reflexivity.
  - apply span_app; auto.
Qed.

Ltac show_prefix := change course_prefix with [0x2F; 0x63; 0x2F] in *.

Lemma search_course_cons a s :
  Re.search_course (a :: s) =
    match Re.course_at (a :: s) with
    | Some seg => Some seg
    | None => Re.search_course s
    end.
Proof. reflexivity. Qed.

Lemma course_at_some s seg :
  Re.course_at s = Some seg <-> exists post, occurs_at s [] seg post.
Proof.
  unfold occurs_at, Re.course_at. show_prefix. simpl. split.
  - destruct s as [|c1 [|c2 [|c3 rest]]]; try discriminate.
    destruct ((c1 =? 0x2F) && (c2 =? 0x63) && (c3 =? 0x2F))%bool eqn:Hp; [|discriminate].
    bool_to_prop. subst.
    destruct (Re.span Re.id_char rest) as [a b] eqn:Hs.
    destruct (span_spec _ _ _ _ Hs) as (-> & Ha & Hb). simpl.
    destruct a as [|a0 a]; [discriminate|]. intros [= <-].
    exists b. repeat split; [discriminate | exact Ha | exact Hb].
  - intros (post & -> & Hne & Hseg & Hpost). simpl.
    rewrite (span_run _ _ _ Hseg Hpost). simpl.
    destruct seg; [congruence | reflexivity].
Qed.

Lemma course_at_none s :
  Re.course_at s = None <->
  forall c rest, s = course_prefix ++ c :: rest -> Re.id_char c = false.
Proof.
  unfold Re.course_at. show_prefix. split.
  - intros H c rest ->. simpl in H.
    destruct (Re.id_char c) eqn:Hc; [|reflexivity].
    destruct (Re.span Re.id_char rest); discriminate.
  - intros H. destruct s as [|c1 [|c2 [|c3 rest]]]; try reflexivity.
    destruct ((c1 =? 0x2F) && (c2 =? 0x63) && (c3 =? 0x2F))%bool eqn:Hp; [|reflexivity].
    bool_to_prop. subst.
    destruct rest as [|c rest]; [reflexivity|].
    simpl. rewrite (H c rest eq_refl). reflexivity.
Qed.

Lemma search_course_none s : Re.search_course s = None <-> no_segment s.
Proof.
  unfold no_segment. show_prefix. induction s as [|a s IH].
  - split; [|reflexivity]. intros _ pre c rest H.
    destruct pre; discriminate H.
  - rewrite search_course_cons.
    destruct (Re.course_at (a :: s)) as [seg|] eqn:Hat.
    + split; [discriminate|]. intros H. exfalso.
      apply course_at_some in Hat. destruct Hat as (post & Heq & Hne & Hseg & _).
      destruct seg as [|c seg]; [congruence|].
      inversion Hseg as [|? ? Hc _]; subst.
      simpl in Heq. rewrite (H [] c (seg ++ post) Heq) in Hc. discriminate.
    + rewrite IH. split.
      * intros H pre c rest Heq. destruct pre as [|a' pre].
        -- eapply course_at_none; [exact Hat | exact Heq].
        -- injection Heq as -> Heq. eapply H, Heq.
      * intros H pre c rest ->. apply (H (a :: pre) c rest). reflexivity.
Qed.

Lemma search_course_some s seg : Re.search_course s = Some seg <-> segment_of s seg.
Proof.
  unfold segment_of, no_match_before, occurs_at. show_prefix. revert seg.
  induction s as [|a s IH]; intros seg.
  - split; [discriminate|]. intros (pre & post & (Heq & _) & _).
    destruct pre; discriminate Heq.
  - rewrite search_course_cons.
    destruct (Re.course_at (a :: s)) as [seg'|] eqn:Hat.
    + apply course_at_some in Hat. destruct Hat as (post' & Hocc').
      split.
      * intros [= <-]. exists [], post'. split; [exact Hocc'|].
        simpl. intros ? ? ? _ Hlt. lia.
      * intros (pre & post & Hocc & Hleft). f_equal.
        destruct pre as [|a' pre].
        -- destruct Hocc as (Heq & _ & Hseg & Hpost).
           destruct Hocc' as (Heq' & _ & Hseg' & Hpost').
           rewrite Heq in Heq'. simpl in Heq'. injection Heq' as Heq'.
           pose proof (span_run _ _ _ Hseg Hpost) as H1.
           pose proof (span_run _ _ _ Hseg' Hpost') as H2.
           rewrite Heq' in H1. congruence.
        -- exfalso. destruct Hocc' as (Heq' & Hne' & Hseg' & _).
           destruct seg' as [|c seg']; [congruence|].
           inversion Hseg' as [|? ? Hc _]; subst.
           rewrite (Hleft [] c (seg' ++ post') Heq') in Hc; [discriminate | simpl; lia].
    + rewrite IH. split.
      * intros (pre & post & (Heq & Hrest) & Hleft).
        exists (a :: pre), post. split; [split; [simpl; f_equal; exact Heq | exact Hrest]|].
        intros pre' c rest Heq' Hlt. destruct pre' as [|a' pre'].
        -- eapply course_at_none; [exact Hat | exact Heq'].
        -- injection Heq' as -> Heq'. apply (Hleft pre' c rest Heq'). simpl in Hlt. lia.
      * intros (pre & post & (Heq & Hrest) & Hleft). destruct pre as [|a' pre].
        -- exfalso. assert (Hs : Re.course_at (a :: s) = Some seg).
           { apply course_at_some. exists post. split; [exact Heq | exact Hrest]. }
           congruence.
        -- injection Heq as -> Heq. exists pre, post. split; [split; assumption|].
           intros pre' c rest -> Hlt. apply (Hleft (a' :: pre') c rest); [reflexivity|].
           simpl. lia.
Qed.

Lemma segment_chars link seg :
  segment_of link seg -> Forall (fun c => Re.id_char c = true) seg.
Proof. intros (pre & post & (_ & _ & H & _) & _). exact H. Qed.

Lemma decode_course_id_spec seg :
  Forall (fun c => Re.id_char c = true) seg ->
  match Rfc4648.decode (standard_part seg) with
  | Some raw =>
      match Utf8.decode raw with
      | Some s => decode_course_id seg = Ok s
      | None => exists e, decode_course_id seg = Raise e /\ is_decode_error e
      end
  | None => exists e, decode_course_id seg = Raise e /\ is_decode_error e
  end.
Proof.
  intros Hseg. pose proof (b64decode_segment seg Hseg) as H.
  unfold decode_course_id, Utf8.bytes_decode, is_decode_error.
  destruct (Rfc4648.decode (standard_part seg)) as [raw|].
  - rewrite H. destruct (Utf8.decode raw); [reflexivity|]. eauto.
  - destruct H as [e ->]. eauto.
Qed.

(** C1, as the code has it: a link without a segment fails with the
    invalid-link error; a link with a segment returns the UTF-8 text of the
    standard base64 decoding of the segment from which the hyphens and
    underscores are dropped, and fails with the decode error when what is
    left is not valid base64 or does not decode to valid UTF-8. *)
Theorem extract_course_id_spec (link : str) :
  (no_segment link -> extract_course_id link = Raise invalid_link_error)
  /\ (forall seg, segment_of link seg ->
        match Rfc4648.decode (standard_part seg) with
        | Some raw =>
            match Utf8.decode raw with
            | Some s => extract_course_id link = Ok s
            | None => exists e, extract_course_id link = Raise e /\ is_decode_error e
            end
        | None => exists e, extract_course_id link = Raise e /\ is_decode_error e
        end).
Proof.
  unfold extract_course_id. split.
  - intros H. apply search_course_none in H. rewrite H. reflexivity.
  - intros seg H. pose proof (segment_chars _ _ H) as Hseg.
    apply search_course_some in H. rewrite H.
    apply decode_course_id_spec, Hseg.
Qed.

Lemma extract_course_id_spec_witness :
  no_segment (u "https://classroom.google.com/h")
  /\ extract_course_id (u "https://classroom.google.com/h") = Raise invalid_link_error
  /\ segment_of (u "https://classroom.google.com/c/NjA1MDk3-MzYzMjQ2?cjc=x")
       (u "NjA1MDk3-MzYzMjQ2")
  /\ extract_course_id (u "https://classroom.google.com/c/NjA1MDk3-MzYzMjQ2?cjc=x")
     = Ok (u "605097363246").
Proof.
  assert (H1 : no_segment (u "https://classroom.google.com/h")).
  { apply search_course_none. vm_compute. reflexivity. }
  assert (H2 : segment_of (u "https://classroom.google.com/c/NjA1MDk3-MzYzMjQ2?cjc=x")
                 (u "NjA1MDk3-MzYzMjQ2")).
  { apply search_course_some. vm_compute. reflexivity. }
  split; [exact H1|]. split; [exact (proj1 (extract_course_id_spec _) H1)|].
  split; [exact H2|].
  pose proof (proj2 (extract_course_id_spec _) _ H2) as H.
  assert (Hd : Rfc4648.decode (standard_part (u "NjA1MDk3-MzYzMjQ2"))
               = Some (u "605097363246")) by (vm_compute; reflexivity).
  rewrite Hd in H.
  assert (Hu : Utf8.decode (u "605097363246") = Some (u "605097363246"))
    by (vm_compute; reflexivity).
  rewrite Hu in H. exact H.
Defined.

(** C1 as stated fails: the segment QU-JD is not valid standard base64, yet
    the link decoder does not fail on it; it returns ABC. *)
Lemma extract_course_id_accepts_invalid_base64 :
  segment_of (u "https://classroom.google.com/c/QU-JD") (u "QU-JD")
  /\ Rfc4648.decode (u "QU-JD") = None
  /\ extract_course_id (u "https://classroom.google.com/c/QU-JD") = Ok (u "ABC").
Proof.
  split; [apply search_course_some; vm_compute; reflexivity|].
  split; vm_compute; reflexivity.
Qed.

(** C9: the text the link decoder hands to the base64 decoder is exactly the
    segment of the link, the first maximal run of characters of the class
    A-Z a-z 0-9 underscore hyphen that follows the prefix; every other
    character ends the run, so a plus, a slash or an equals sign is never
    in it.  A link without a segment reaches no decoder. *)
Theorem extract_course_id_segment (link : str) :
  (exists seg,
      segment_of link seg
      /\ (forall seg', segment_of link seg' -> seg' = seg)
      /\ extract_course_id link = decode_course_id seg
      /\ forall c, c ∈ seg -> Re.id_char c = true /\ c ∉ u "+/=")
  \/ (no_segment link /\ extract_course_id link = Raise invalid_link_error).
Proof.
  unfold extract_course_id.
  destruct (Re.search_course link) as [seg|] eqn:Hs.
  - left. exists seg. split; [apply search_course_some, Hs|].
    split; [|split; [reflexivity|]].
    + intros seg' H'. apply search_course_some in H'. congruence.
    + intros c Hc. apply search_course_some in Hs.
      pose proof (segment_chars _ _ Hs) as Hseg. rewrite Forall_forall in Hseg.
      specialize (Hseg c Hc). split; [exact Hseg|].
      change (u "+/=") with [0x2B; 0x2F; 0x3D].
      rewrite !not_elem_of_cons. unfold Re.id_char in Hseg.
      repeat split; try apply not_elem_of_nil; intros ->; discriminate Hseg.
  - right. split; [apply search_course_none, Hs | reflexivity].
Qed.

Lemma extract_course_id_segment_witness :
  exists seg,
    segment_of (u "https://classroom.google.com/c/QUJD+x/y=z") seg
    /\ seg = u "QUJD"
    /\ extract_course_id (u "https://classroom.google.com/c/QUJD+x/y=z")
       = decode_course_id seg.
Proof.
  assert (H : segment_of (u "https://classroom.google.com/c/QUJD+x/y=z") (u "QUJD")).
  { apply search_course_some. vm_compute. reflexivity. }
  destruct (extract_course_id_segment (u "https://classroom.google.com/c/QUJD+x/y=z"))
    as [(seg & Hs & Hu & He & _) | (Hn & _)].
  - exists seg. split; [exact Hs|]. split; [symmetry; exact (Hu _ H) | exact He].
  - exfalso. apply search_course_none in Hn. vm_compute in Hn. discriminate Hn.
Defined.

(** ** Frames *)

#[global] Instance no_transfer_preorder : PreOrder no_transfer.
Proof.
  split.
  - intros st. repeat split; auto.
  - intros a b c (H1 & H2 & H3) (H1' & H2' & H3'). repeat split.
    + etransitivity; eassumption.
    + auto.
    + congruence.
Qed.

#[global] Instance same_calls_preorder : PreOrder same_calls.
Proof. split; unfold same_calls; [intros ?; reflexivity | intros ? ? ?; congruence]. Qed.

#[global] Instance console_only_preorder : PreOrder console_only.
Proof.
  split.
  - intros st. repeat split.
  - intros a b c (? & ? & ?) (? & ? & ?). repeat split; congruence.
Qed.

Lemma console_only_no_transfer st st' : console_only st st' -> no_transfer st st'.
Proof. intros (H1 & H2 & _). repeat split; [rewrite H1; reflexivity | rewrite H1; auto | auto]. Qed.

Lemma console_only_same_calls st st' : console_only st st' -> same_calls st st'.
Proof. intros (_ & _ & H). exact H. Qed.

Section Frames.

Context {R : State -> State -> Prop} `{!PreOrder R}.

Lemma preserves_ret {A} (a : A) : preserves R (ret a).
Proof. intros st. reflexivity. Qed.

Lemma preserves_raise {A} e : preserves R (@raise A e).
Proof. intros st. reflexivity. Qed.

Lemma preserves_lift {A} (r : result A) : preserves R (lift r).
Proof. intros st. reflexivity. Qed.

Lemma preserves_check o : preserves R (check o).
Proof. destruct o; [apply preserves_raise | apply preserves_ret]. Qed.

Lemma preserves_bind {A B} (c : M A) (k : A -> M B) :
  preserves R c -> (forall a, preserves R (k a)) -> preserves R (bind c k).
Proof.
  intros Hc Hk st. unfold bind. specialize (Hc st).
  destruct (c st) as [[a|e] st1]; simpl in *; [|exact Hc].
  etransitivity; [exact Hc | apply Hk].
Qed.

Lemma preserves_handle {A} (hs : list (exn_class * (exn -> M A))) e :
  Forall (fun h => forall e, preserves R (snd h e)) hs -> preserves R (handle hs e).
Proof.
  induction 1 as [|[cls h] hs Hh _ IH]; simpl; [apply preserves_raise|].
  destruct (isinstance e cls); [apply Hh | exact IH].
Qed.

Lemma preserves_try_except {A} (c : M A) hs :
  preserves R c -> Forall (fun h => forall e, preserves R (snd h e)) hs ->
  preserves R (try_except c hs).
Proof.
  intros Hc Hhs st. unfold try_except. specialize (Hc st).
  destruct (c st) as [[a|e] st1]; simpl in *; [exact Hc|].
  etransitivity; [exact Hc | apply preserves_handle, Hhs].
Qed.

Lemma preserves_for_each {A} (xs : list A) (body : A -> M unit) :
  (forall x, preserves R (body x)) -> preserves R (for_each xs body).
Proof.
  intros Hb. induction xs as [|x xs IH]; simpl; [apply preserves_ret|].
  apply preserves_bind; [apply Hb | intros _; exact IH].
Qed.

End Frames.

Lemma preserves_weaken {A} (R R' : State -> State -> Prop) (c : M A) :
  (forall st st', R st st' -> R' st st') -> preserves R c -> preserves R' c.
Proof. intros H Hc st. apply H, Hc. Qed.

Lemma print_console line : preserves console_only (print line).
Proof. intros st. repeat split. Qed.

Lemma folder_namer_console parent_title file_name :
  preserves console_only (get_folder_name_from_title parent_title file_name).
Proof.
  unfold get_folder_name_from_title.
  apply preserves_bind; [apply print_console|]. intros _.
  repeat (match goal with
          | |- preserves _ (match ?x with _ => _ end) => destruct x
          | |- preserves _ (bind _ _) => apply preserves_bind; [|intros ?]
          | |- preserves _ (print _) => apply print_console
          | |- preserves _ (ret _) => apply preserves_ret
          | |- preserves _ (let _ := _ in _) => cbv zeta
          end).
Qed.

Create HintDb frame.

Lemma print_no_transfer line : preserves no_transfer (print line).
Proof. eapply preserves_weaken; [apply console_only_no_transfer | apply print_console]. Qed.

Lemma print_same_calls line : preserves same_calls (print line).
Proof. eapply preserves_weaken; [apply console_only_same_calls | apply print_console]. Qed.

Lemma folder_namer_no_transfer parent_title file_name :
  preserves no_transfer (get_folder_name_from_title parent_title file_name).
Proof. eapply preserves_weaken; [apply console_only_no_transfer | apply folder_namer_console]. Qed.

Lemma folder_namer_same_calls parent_title file_name :
  preserves same_calls (get_folder_name_from_title parent_title file_name).
Proof. eapply preserves_weaken; [apply console_only_same_calls | apply folder_namer_console]. Qed.

Lemma isdir_frame R `{!PreOrder R} p : preserves R (isdir p).
Proof. intros st. reflexivity. Qed.

Lemma exists_frame R `{!PreOrder R} p : preserves R (exists_ p).
Proof. intros st. reflexivity. Qed.

#[global] Hint Resolve print_console print_no_transfer print_same_calls
  folder_namer_console folder_namer_no_transfer folder_namer_same_calls
  isdir_frame exists_frame : frame.

Ltac each_handler :=
  repeat match goal with
         | |- Forall _ (_ :: _) => constructor; [simpl; intros ?|]
         | |- Forall _ [] => constructor
         end.

Ltac frame_step :=
  match goal with
  | |- preserves _ (bind _ _) => apply preserves_bind; [|intros ?]
  | |- preserves _ (ret _) => apply preserves_ret
  | |- preserves _ (raise _) => apply preserves_raise
  | |- preserves _ (sys_exit _) => apply preserves_raise
  | |- preserves _ (lift _) => apply preserves_lift
  | |- preserves _ (check _) => apply preserves_check
  | |- preserves _ (for_each _ _) => apply preserves_for_each; intros ?
  | |- preserves _ (try_except _ _) =>
      apply preserves_try_except; [|each_handler]
  | |- preserves _ (handle _ _) =>
      apply preserves_handle; each_handler
  | |- preserves _ (if ?b then _ else _) => destruct b
  | |- preserves _ (match ?x with _ => _ end) => destruct x
  | |- preserves _ _ => solve [eauto with frame typeclass_instances]
  end.

Ltac frame := repeat frame_step.

Section OsFrames.

Variable env : Env.

Lemma mkdir_step_no_transfer leaf p : preserves no_transfer (mkdir_step env leaf p).
Proof.
  intros st. unfold mkdir_step.
  destruct (fs st !! p) as [[|c]|] eqn:Hp; simpl; try reflexivity.
  destruct (broken_link env p); simpl; [reflexivity|].
  destruct (fault env p); simpl; [reflexivity|].
  repeat split; simpl.
  - apply insert_subseteq, Hp.
  - intros q c. rewrite lookup_insert. case_decide; [discriminate | auto].
Qed.

Lemma mkdir_step_same_calls leaf p : preserves same_calls (mkdir_step env leaf p).
Proof.
  intros st. unfold mkdir_step, same_calls.
  destruct (fs st !! p) as [[|c]|]; simpl; try reflexivity.
  destruct (broken_link env p); [reflexivity|].
  destruct (fault env p); reflexivity.
Qed.

Hint Resolve mkdir_step_no_transfer mkdir_step_same_calls : frame.

Lemma makedirs_no_transfer p : preserves no_transfer (makedirs env p).
Proof. unfold makedirs. frame. Qed.

Lemma makedirs_same_calls p : preserves same_calls (makedirs env p).
Proof. unfold makedirs. frame. Qed.

Hint Resolve makedirs_no_transfer makedirs_same_calls : frame.

Lemma ensure_directory_no_transfer d : preserves no_transfer (ensure_directory env d).
Proof. unfold ensure_directory. frame. Qed.

Lemma ensure_directory_same_calls d : preserves same_calls (ensure_directory env d).
Proof. unfold ensure_directory. frame. Qed.

Lemma open_write_same_calls p : preserves same_calls (open_write env p).
Proof.
  intros st. unfold open_write, same_calls.
  destruct (fault env p); [reflexivity|].
  destruct (fs st !! p) as [[|c]|]; reflexivity.
Qed.

Lemma write_same_calls p data : preserves same_calls (write p data).
Proof. intros st. reflexivity. Qed.

Hint Resolve open_write_same_calls write_same_calls : frame.

Lemma next_chunk_same_calls file_id file_path r :
  preserves same_calls (next_chunk file_id file_path r).
Proof. intros st. unfold next_chunk. destruct r; reflexivity. Qed.

Hint Resolve next_chunk_same_calls : frame.

Lemma download_loop_same_calls file_id file_name file_path answers :
  preserves same_calls (download_loop file_id file_name file_path answers).
Proof. induction answers as [|r answers IH]; simpl; frame. Qed.

Hint Resolve download_loop_same_calls : frame.

Lemma transfer_same_calls file_id file_name file_path :
  preserves same_calls (transfer env file_id file_name file_path).
Proof. unfold transfer. frame. Qed.

Lemma read_local_frame R `{!PreOrder R} name v : preserves R (read_local name v).
Proof. unfold read_local. frame. Qed.

Hint Resolve read_local_frame : frame.

Lemma handlers_no_transfer file_name file_path e :
  preserves no_transfer (handle (download_handlers file_name file_path) e).
Proof. unfold download_handlers. frame. Qed.

Lemma handlers_same_calls file_name file_path e :
  preserves same_calls (handle (download_handlers file_name file_path) e).
Proof. unfold download_handlers. frame. Qed.

End OsFrames.

#[global] Hint Resolve makedirs_no_transfer makedirs_same_calls
  ensure_directory_no_transfer ensure_directory_same_calls
  transfer_same_calls handlers_no_transfer handlers_same_calls : frame.

(** ** The file downloader *)

Lemma download_file_unfold env file_id file_name output_dir st :
  download_file env file_id file_name output_dir st =
    match ensure_directory env output_dir (with_call (file_id, file_name, output_dir) st) with
    | (Raise e, st1) => handle (download_handlers file_name None) e st1
    | (Ok _, st1) =>
        try_except (transfer env file_id file_name (path_join output_dir file_name))
          (download_handlers file_name (Some (path_join output_dir file_name))) st1
    end.
Proof. reflexivity. Qed.

Lemma transfer_present env file_id file_name file_path node st :
  fs st !! file_path = Some node ->
  transfer env file_id file_name file_path st =
    print (u "File " ++ file_name ++ u " already exists at " ++ file_path
           ++ u ", skipping download.") st.
Proof.
  intros H. unfold transfer, bind, exists_. rewrite H. reflexivity.
Qed.

(** With the destination occupied, a call neither sends a request nor
    creates or changes a file. *)
Lemma download_file_occupied env file_id file_name output_dir node st :
  fs st !! path_join output_dir file_name = Some node ->
  no_transfer st (snd (download_file env file_id file_name output_dir st)).
Proof.
  intros Hocc. rewrite download_file_unfold.
  set (st0 := with_call (file_id, file_name, output_dir) st).
  assert (H0 : no_transfer st st0).
  { split; [reflexivity | split; [intros p c H; exact H | reflexivity]]. }
  pose proof (ensure_directory_no_transfer env output_dir st0) as H1.
  destruct (ensure_directory env output_dir st0) as [[[]|e] st1]; simpl in H1.
  - assert (Hocc1 : fs st1 !! path_join output_dir file_name = Some node).
    { destruct H0 as (Ha & _), H1 as (Hb & _).
      eapply lookup_weaken; [|exact Hb]. eapply lookup_weaken; [exact Hocc | exact Ha]. }
    unfold try_except. rewrite (transfer_present _ _ _ _ _ _ Hocc1). simpl.
    etransitivity; [exact H0|]. etransitivity; [exact H1|].
    apply (print_no_transfer _ st1).
  - etransitivity; [exact H0|]. etransitivity; [exact H1|].
    apply handlers_no_transfer.
Qed.

(** C4: when a file already exists at the destination path, a call to
    download_file sends no request to the file service and leaves the file
    with the content it had. *)
Theorem download_file_keeps_existing_file env file_id file_name output_dir content st :
  fs st !! path_join output_dir file_name = Some (File content) ->
  requests (snd (download_file env file_id file_name output_dir st)) = requests st
  /\ fs (snd (download_file env file_id file_name output_dir st))
       !! path_join output_dir file_name = Some (File content).
Proof.
  intros Hocc.
  destruct (download_file_occupied env file_id file_name output_dir _ st Hocc)
    as (Hsub & _ & Hreq).
  split; [exact Hreq|]. eapply lookup_weaken; [exact Hocc | exact Hsub].
Qed.

Lemma download_file_keeps_existing_file_witness :
  fs sentinel_state !! path_join (u "/data/OS/Week 1") (u "notes.pdf")
    = Some (File (u "sentinel"))
  /\ requests (snd (download_file quiet_env (u "id-1") (u "notes.pdf")
                      (u "/data/OS/Week 1") sentinel_state))
     = requests sentinel_state
  /\ fs (snd (download_file quiet_env (u "id-1") (u "notes.pdf")
                (u "/data/OS/Week 1") sentinel_state))
       !! path_join (u "/data/OS/Week 1") (u "notes.pdf")
     = Some (File (u "sentinel")).
Proof.
  assert (H : fs sentinel_state !! path_join (u "/data/OS/Week 1") (u "notes.pdf")
              = Some (File (u "sentinel"))) by (vm_compute; reflexivity).
  split; [exact H|].
  exact (download_file_keeps_existing_file quiet_env (u "id-1") (u "notes.pdf")
           (u "/data/OS/Week 1") (u "sentinel") sentinel_state H).
Defined.

Example download_into_blocked_path :
  let r := download_file quiet_env (u "id-1") (u "notes.pdf") (u "/data/OS/Week 1")
             blocked_state in
  fst r = Ok tt
  /\ stdout (snd r)
     = [ u "Attempting to create directory: /data/OS/Week 1";
         u "File notes.pdf already exists at /data/OS/Week 1/notes.pdf, skipping download." ]
  /\ requests (snd r) = []
  /\ calls (snd r) = [ (u "id-1", u "notes.pdf", u "/data/OS/Week 1") ].
Proof. vm_compute. repeat split; reflexivity. Qed.

Example download_into_free_path :
  let st := snd (download_file quiet_env (u "id-1") (u "notes.pdf") (u "/data/OS/Week 1")
                   empty_state) in
  fs st !! u "/data/OS/Week 1/notes.pdf" = Some (File (u "fresh"))
  /\ fs st !! u "/data/OS" = Some Dir
  /\ requests st = [u "id-1"]
  /\ stdout st = [ u "Attempting to create directory: /data/OS/Week 1";
                   u "Downloading notes.pdf: 100%";
                   u "Downloaded: /data/OS/Week 1/notes.pdf" ].
Proof. vm_compute. repeat split; reflexivity. Qed.

(** A failure of the transfer with an [OSError], after [file_path] is
    assigned, is caught: a line is printed and the call returns. *)
Lemma download_file_transfer_error env file_id file_name output_dir st st1 e st2 :
  ensure_directory env output_dir (with_call (file_id, file_name, output_dir) st)
    = (Ok tt, st1) ->
  transfer env file_id file_name (path_join output_dir file_name) st1 = (Raise e, st2) ->
  isinstance e OSError = true ->
  download_file env file_id file_name output_dir st
  = (Ok tt,
     snd (print ((if isinstance e PermissionError
                  then u "Permission denied when accessing "
                  else u "OS error when accessing ")
                 ++ path_join output_dir file_name ++ u ": " ++ exn_str e) st2)).
Proof.
  intros H1 H2 He. rewrite download_file_unfold, H1. unfold try_except. rewrite H2.
  unfold download_handlers, handle, bind, read_local, ret.
  destruct (isinstance e PermissionError); [reflexivity|].
  rewrite He. reflexivity.
Qed.

(** A failure of the directory set-up with an [OSError] is not: its handler
    reads [file_path], which nothing was assigned to yet. *)
Lemma download_file_directory_error env file_id file_name output_dir st e st1 :
  ensure_directory env output_dir (with_call (file_id, file_name, output_dir) st)
    = (Raise e, st1) ->
  isinstance e OSError = true ->
  download_file env file_id file_name output_dir st = (Raise unbound_file_path, st1).
Proof.
  intros H1 He. rewrite download_file_unfold, H1.
  unfold download_handlers, handle, bind, read_local, raise.
  destruct (isinstance e PermissionError); [reflexivity|].
  rewrite He. reflexivity.
Qed.

(** C3, where the code departs from it: when creating the directory is
    refused with a PermissionError, download_file does not return; the
    handler raises an UnboundLocalError out of it.  In a whole run the
    folder of a group is created by main before any download, so there the
    refusal ends the run: nothing of the second group is downloaded, while
    without the refusal both groups are. *)
Theorem download_file_directory_error_escapes :
  fst (download_file denied_env (u "id-1") (u "notes.pdf") (u "/data/OS/Week 1") empty_state)
    = Raise unbound_file_path
  /\ (let r := script (two_weeks denied_env) token_state in
      fst r = Normal
      /\ calls (snd r) = []
      /\ last (stdout (snd r))
         = Some (u "An error occurred: [Errno 13] Permission denied: '/data/OS/Week 1'"))
  /\ (let r := script (two_weeks quiet_env) token_state in
      fst r = Normal
      /\ calls (snd r) = [ (u "id-1", u "notes.pdf", u "/data/OS/Week 1");
                           (u "id-2", u "slides.pdf", u "/data/OS/Week 2") ]).
Proof. vm_compute. repeat split; reflexivity. Qed.

(** ** The orchestrator: which folder each file goes to *)

Lemma folder_namer_run parent_title file_name st :
  exists st1,
    get_folder_name_from_title parent_title file_name st
      = (Ok (named_folder parent_title file_name), st1)
    /\ console_only st st1.
Proof.
  pose proof (folder_namer_console parent_title file_name st) as Hc.
  exists (snd (get_folder_name_from_title parent_title file_name st)).
  split; [|exact Hc]. clear Hc.
  unfold named_folder, folder_name, get_folder_name_from_title, bind, print, ret. simpl.
  destruct parent_title as [t|]; [destruct (truthy (strip t)); [reflexivity|]|];
    (destruct file_name as [f|]; [|reflexivity]);
    (destruct (truthy f && truthy (strip f))%bool; [|reflexivity]);
    (destruct (Re.match_module (strip f)); reflexivity).
Qed.

Lemma made_calls_none {A} (c : M A) st expected :
  preserves same_calls c -> (forall a, fst (c st) = Ok a -> expected = []) ->
  made_calls (c st) st expected.
Proof.
  intros Hc Hok. exists []. split; [rewrite app_nil_r; apply Hc|].
  split; [apply prefix_nil|]. intros a Ha. symmetry. eauto.
Qed.

Lemma made_calls_bind {A B} (c : M A) (k : A -> M B) st e1 e2 :
  made_calls (c st) st e1 ->
  (forall a st1, c st = (Ok a, st1) -> made_calls (k a st1) st1 e2) ->
  made_calls (bind c k st) st (e1 ++ e2).
Proof.
  intros (m1 & Hm1 & Hp1 & Ho1) Hk. unfold bind.
  destruct (c st) as [[a|e] st1] eqn:Hc; simpl in *.
  - destruct (Hk a st1 eq_refl) as (m2 & Hm2 & Hp2 & Ho2).
    rewrite (Ho1 a eq_refl) in Hm1.
    exists (e1 ++ m2). split; [rewrite Hm2, Hm1, app_assoc; reflexivity|].
    split; [apply prefix_app, Hp2|].
    intros b Hb. rewrite (Ho2 b Hb). reflexivity.
  - exists m1. split; [exact Hm1|].
    split; [apply prefix_app_r, Hp1 | discriminate].
Qed.

Lemma made_calls_for_each {A} (body : A -> M unit) (F : A -> list call) xs st :
  (forall x st, made_calls (body x st) st (F x)) ->
  made_calls (for_each xs body st) st (xs ≫= F).
Proof.
  intros Hb. revert st. induction xs as [|x xs IH]; intros st.
  - exists []. simpl. rewrite app_nil_r. repeat split. reflexivity.
  - simpl. apply made_calls_bind; [apply Hb | intros _ st1 _; apply IH].
Qed.

Lemma made_calls_download env file_id file_name output_dir st :
  made_calls (download_file env file_id file_name output_dir st) st
    [(file_id, file_name, output_dir)].
Proof.
  exists [(file_id, file_name, output_dir)]. split; [|split; [reflexivity | reflexivity]].
  rewrite download_file_unfold.
  set (st0 := with_call (file_id, file_name, output_dir) st).
  change (calls st ++ [(file_id, file_name, output_dir)]) with (calls st0).
  pose proof (ensure_directory_same_calls env output_dir st0) as H1.
  destruct (ensure_directory env output_dir st0) as [[[]|e] st1]; simpl in H1.
  - rewrite <- H1.
    apply (preserves_try_except (R := same_calls)
             (transfer env file_id file_name (path_join output_dir file_name))
             (download_handlers file_name (Some (path_join output_dir file_name)))).
    + apply transfer_same_calls.
    + unfold download_handlers. each_handler; frame.
  - rewrite <- H1. apply handlers_same_calls.
Qed.

Lemma drive_files_bind (folder : drive_file -> str) materials :
  materials ≫= (fun m => match m with
                         | DriveFile f => [call_into folder f]
                         | OtherMaterial => []
                         end)
  = call_into folder <$> drive_files materials.
Proof.
  induction materials as [|[f|] ms IH]; simpl; [reflexivity | | exact IH].
  f_equal. exact IH.
Qed.

Lemma made_calls_folder_namer parent_title file_name st :
  made_calls (get_folder_name_from_title parent_title file_name st) st [].
Proof. apply made_calls_none; [apply folder_namer_same_calls | reflexivity]. Qed.

Lemma made_calls_makedirs env p st : made_calls (makedirs env p st) st [].
Proof. apply made_calls_none; [apply makedirs_same_calls | reflexivity]. Qed.

Lemma folder_namer_value parent_title file_name st a st1 :
  get_folder_name_from_title parent_title file_name st = (Ok a, st1) ->
  a = named_folder parent_title file_name.
Proof.
  destruct (folder_namer_run parent_title file_name st) as (st1' & H & _).
  rewrite H. congruence.
Qed.

(** An announcement sends every drive file to the one folder named after
    its title or, failing that, after the first material. *)
Lemma announcement_calls env output_dir g materials st :
  materials_of g = Some materials ->
  made_calls (process_announcement env output_dir g st) st
    (call_into (fun _ => path_join output_dir
                           (named_folder (Some (get_title g))
                              (Some (first_file_name materials))))
       <$> drive_files materials).
Proof.
  intros Hm. unfold process_announcement. rewrite Hm.
  rewrite <- drive_files_bind.
  apply (made_calls_bind _ _ st [] _ (made_calls_folder_namer _ _ st)).
  intros a st1 Ha. apply folder_namer_value in Ha. subst a.
  apply (made_calls_bind _ _ st1 [] _ (made_calls_makedirs _ _ st1)).
  intros _ st2 _. apply made_calls_for_each.
  intros [file|] st3.
  - apply made_calls_download.
  - apply made_calls_none; [apply preserves_ret | reflexivity].
Qed.

(** A coursework material without a title sends each drive file to the
    folder named after that file. *)
Lemma coursework_calls_untitled env output_dir g materials st :
  materials_of g = Some materials ->
  strip (get_title g) = [] ->
  made_calls (process_coursework env output_dir g st) st
    (call_into (fun file => path_join output_dir
                              (named_folder None (Some (file_name_of file))))
       <$> drive_files materials).
Proof.
  intros Hm Ht. unfold process_coursework. rewrite Hm, Ht. simpl truthy. cbv iota.
  rewrite <- drive_files_bind.
  apply (made_calls_bind _ _ st [] _ (made_calls_folder_namer _ _ st)).
  intros a st1 _.
  apply (made_calls_bind _ _ st1 [] _ (made_calls_makedirs _ _ st1)).
  intros _ st2 _. apply made_calls_for_each.
  intros [file|] st3.
  - apply (made_calls_bind _ _ st3 [] _ (made_calls_folder_namer _ _ st3)).
    intros b st4 Hb. apply folder_namer_value in Hb. subst b.
    apply (made_calls_bind _ _ st4 [] _ (made_calls_makedirs _ _ st4)).
    intros _ st5 _. apply made_calls_download.
  - apply made_calls_none; [apply preserves_ret | reflexivity].
Qed.

Example untitled_group_runs :
  calls (snd (process_coursework quiet_env (u "/data/OS") untitled_group empty_state))
    = [ (u "id-a", u "1.3 Threads.pdf", u "/data/OS/Module 1");
        (u "id-b", u "2.1 Scheduling.pdf", u "/data/OS/Module 2") ]
  /\ calls (snd (process_announcement quiet_env (u "/data/OS") untitled_group empty_state))
    = [ (u "id-a", u "1.3 Threads.pdf", u "/data/OS/Module 1");
        (u "id-b", u "2.1 Scheduling.pdf", u "/data/OS/Module 1") ].
Proof. vm_compute. split; reflexivity. Qed.

(** ** The top level *)

Lemma install_prerequisites_console env : preserves console_only (install_prerequisites env).
Proof. unfold install_prerequisites. frame. Qed.

Lemma authenticate_secret_missing env st :
  fs st !! credentials_json = None -> no_usable_token env st ->
  authenticate env st = (Raise secret_missing, st).
Proof.
  intros Hs Ht.
  assert (Hflow : interactive_flow env st = (Raise secret_missing, st)).
  { unfold interactive_flow, bind, exists_. rewrite Hs. reflexivity. }
  unfold authenticate, bind, exists_.
  destruct (fs st !! token_json) as [n|] eqn:Htok.
  - destruct Ht as [Ht | (c & Hc & Hv & Hr)]; [congruence|].
    unfold lift. rewrite Hc. unfold ret. rewrite Hv, Hr, Hflow. reflexivity.
  - unfold ret. rewrite Hflow. reflexivity.
Qed.

(** C7, as the code has it: when credentials.json is absent and no valid or
    refreshable stored token exists, authenticate raises a
    FileNotFoundError inside the try block of main; the handler of main
    catches it like any other exception, prints it, and the script ends
    normally, having changed nothing but the console. *)
Theorem missing_client_secret_ends_run_normally env st :
  fst (install_prerequisites env st) = Ok tt ->
  fs st !! credentials_json = None ->
  no_usable_token env st ->
  exists st',
    script env st = (Normal, st')
    /\ console_only st st'
    /\ last (stdout st')
       = Some (u "An error occurred: credentials.json not found. Please download it from Google Cloud Console.").
Proof.
  intros Hinst Hs Ht.
  pose proof (install_prerequisites_console env st) as Hc.
  destruct (install_prerequisites env st) as [r st1] eqn:Hrun. simpl in Hinst, Hc. subst r.
  assert (Hs1 : fs st1 !! credentials_json = None).
  { destruct Hc as (-> & _). exact Hs. }
  assert (Ht1 : no_usable_token env st1).
  { destruct Hc as (Hfs & _). unfold no_usable_token. rewrite Hfs. exact Ht. }
  assert (Hbody : main_body env st = (Raise secret_missing, st1)).
  { unfold main_body, bind at 1. rewrite Hrun.
    unfold bind at 1. rewrite (authenticate_secret_missing env st1 Hs1 Ht1). reflexivity. }
  exists (snd (print (u "An error occurred: " ++ exn_str secret_missing) st1)).
  split; [|split].
  - unfold script, main, try_except. rewrite Hbody. reflexivity.
  - etransitivity; [exact Hc | apply print_console].
  - simpl. rewrite last_snoc. reflexivity.
Qed.

Lemma missing_client_secret_ends_run_normally_witness :
  (fst (install_prerequisites quiet_env empty_state) = Ok tt
   /\ fs empty_state !! credentials_json = None
   /\ no_usable_token quiet_env empty_state)
  /\ exists st',
       script quiet_env empty_state = (Normal, st')
       /\ console_only empty_state st'
       /\ last (stdout st')
          = Some (u "An error occurred: credentials.json not found. Please download it from Google Cloud Console.").
Proof.
  assert (H1 : fst (install_prerequisites quiet_env empty_state) = Ok tt)
    by (vm_compute; reflexivity).
  assert (H2 : fs empty_state !! credentials_json = None) by reflexivity.
  assert (H3 : no_usable_token quiet_env empty_state) by (left; reflexivity).
  split; [repeat split; assumption|].
  exact (missing_client_secret_ends_run_normally quiet_env empty_state H1 H2 H3).
Defined.

(** C7 as stated fails: without the client secret and without a token, the
    script does not exit through sys.exit nor with a traceback; it ends
    normally. *)
Lemma missing_client_secret_is_not_fatal :
  fs empty_state !! credentials_json = None
  /\ fs empty_state !! token_json = None
  /\ fst (script quiet_env empty_state) = Normal
  /\ forall e, fst (script quiet_env empty_state) <> Exited e
               /\ fst (script quiet_env empty_state) <> Traceback e.
Proof.
  assert (H : fst (script quiet_env empty_state) = Normal) by (vm_compute; reflexivity).
  repeat split; try reflexivity; try exact H; rewrite H; discriminate.
Qed.


(** * Further properties *)

Example b64encode_ex1 : Encode.b64encode (u "605097363246") = u "NjA1MDk3MzYzMjQ2".
Proof. vm_compute. reflexivity. Qed.

Example b64encode_ex2 :
  Encode.b64encode (u "AB") = u "QUI=" /\ Encode.b64encode (u "A") = u "QQ=="
  /\ Encode.b64encode [0xFB; 0xFF; 0xBF] = u "+/+/".
Proof. vm_compute. repeat split; reflexivity. Qed.

(** ** The link decoder on the links a classroom shows *)

Lemma in_ascii_digits c : ascii_digit c = true -> In c ascii_digits.
Proof.
  unfold ascii_digit, ascii_digits. intros H. bool_to_prop.
  apply in_map_iff. exists (N.to_nat c). split; [apply N2Nat.id|].
  apply in_seq. lia.
Qed.

Lemma digit_quads_ok :
  forallb (fun a => forallb (fun b => forallb (digit_quad_ok a b) ascii_digits) ascii_digits)
    ascii_digits = true.
Proof. vm_compute. reflexivity. Qed.

Lemma digit_quad a b c :
  ascii_digit a = true -> ascii_digit b = true -> ascii_digit c = true ->
  digit_quad_ok a b c = true.
Proof.
  intros Ha Hb Hc. pose proof digit_quads_ok as H.
  rewrite forallb_forall in H. specialize (H a (in_ascii_digits a Ha)).
  rewrite forallb_forall in H. specialize (H b (in_ascii_digits b Hb)).
  rewrite forallb_forall in H. exact (H c (in_ascii_digits c Hc)).
Qed.

(** What [digit_quad_ok] says, as propositions. *)
Lemma digit_quad_facts a b c :
  digit_quad_ok a b c = true ->
  Forall (fun x => Re.id_char x = true) (Encode.quad a b c)
  /\ Forall (fun x => url_only x = false) (Encode.quad a b c)
  /\ Forall (fun x => x < 128) (Encode.quad a b c)
  /\ (Base64.PAD ∉ Encode.quad a b c)
  /\ forall out vs, finish out (values (Encode.quad a b c) ++ vs) = finish (out ++ [a; b; c]) vs.
Proof.
  unfold digit_quad_ok. intros H. apply andb_true_iff in H. destruct H as [Hall Hval].
  rewrite forallb_forall in Hall.
  assert (Hx : forall x, x ∈ Encode.quad a b c ->
               Re.id_char x = true /\ url_only x = false /\ x < 128 /\ x <> Base64.PAD).
  { intros x Hin. apply list_elem_of_In in Hin. specialize (Hall x Hin).
    repeat (apply andb_true_iff in Hall; destruct Hall as [Hall ?]).
    repeat split; try assumption.
    - apply negb_true_iff. assumption.
    - apply N.ltb_lt. assumption.
    - apply N.eqb_neq, negb_true_iff. assumption. }
  split; [apply Forall_forall; intros x Hin; apply Hx, Hin|].
  split; [apply Forall_forall; intros x Hin; apply Hx, Hin|].
  split; [apply Forall_forall; intros x Hin; apply Hx, Hin|].
  split; [intros Hin; apply Hx in Hin; tauto|].
  intros out vs.
  destruct (values (Encode.quad a b c)) as [|v1 [|v2 [|v3 [|v4 [|]]]]]; try discriminate.
  apply bool_decide_eq_true in Hval. simpl. rewrite Hval. reflexivity.
Qed.

(** The digits of a numeric id, three by three. *)
Lemma encode_digits k : forall d,
  length d = (3 * k)%nat -> Forall (fun c => ascii_digit c = true) d ->
  Forall (fun x => Re.id_char x = true) (Encode.b64encode d)
  /\ Forall (fun x => url_only x = false) (Encode.b64encode d)
  /\ Forall (fun x => x < 128) (Encode.b64encode d)
  /\ (Base64.PAD ∉ Encode.b64encode d)
  /\ length (Encode.b64encode d) = (4 * k)%nat
  /\ forall out, finish out (values (Encode.b64encode d)) = Ok (out ++ d).
Proof.
  induction k as [|k IH]; intros d Hlen Hd.
  - destruct d; [|discriminate]. simpl.
    repeat split; try constructor; try apply not_elem_of_nil.
    intros out. rewrite app_nil_r. reflexivity.
  - destruct d as [|a [|b [|c rest]]]; try (simpl in Hlen; lia).
    inversion Hd as [|? ? Ha Hd1]; subst. inversion Hd1 as [|? ? Hb Hd2]; subst.
    inversion Hd2 as [|? ? Hc Hd3]; subst.
    assert (Hrest : length rest = (3 * k)%nat) by (simpl in Hlen; lia).
    destruct (IH rest Hrest Hd3) as (I1 & I2 & I3 & I4 & I5 & I6).
    destruct (digit_quad_facts a b c (digit_quad a b c Ha Hb Hc))
      as (Q1 & Q2 & Q3 & Q4 & Q5).
    change (Encode.b64encode (a :: b :: c :: rest))
      with (Encode.quad a b c ++ Encode.b64encode rest).
    repeat split.
    + apply Forall_app; split; assumption.
    + apply Forall_app; split; assumption.
    + apply Forall_app; split; assumption.
    + rewrite elem_of_app. tauto.
    + rewrite length_app, I5. unfold Encode.quad. simpl length. lia.
    + intros out. unfold values in *. rewrite omap_app, Q5, I6, <- app_assoc. reflexivity.
Qed.

Lemma utf8_decode_ascii s : Forall (fun c => c < 128) s -> Utf8.decode s = Some s.
Proof.
  induction 1 as [|c s Hc _ IH]; [reflexivity|].
  simpl. apply N.ltb_lt in Hc. change 128 with 0x80 in Hc. rewrite Hc, IH. reflexivity.
Qed.

Lemma ascii_digit_lt c : ascii_digit c = true -> c < 128.
Proof. unfold ascii_digit. intros H. bool_to_prop. lia. Qed.

(** The decoder undoes the encoder on the digits of a numeric id. *)
Lemma decode_course_id_encode k d :
  length d = (3 * k)%nat -> Forall (fun c => ascii_digit c = true) d ->
  decode_course_id (Encode.b64encode d) = Ok d.
Proof.
  intros Hlen Hd.
  destruct (encode_digits k d Hlen Hd) as (E1 & _ & E3 & E4 & _ & E6).
  unfold decode_course_id, Base64.b64decode.
  assert (Hascii : forallb (fun c => c <? 128) (Encode.b64encode d) = true).
  { apply forallb_forall. intros x Hx. apply N.ltb_lt.
    rewrite Forall_forall in E3. apply E3, list_elem_of_In, Hx. }
  rewrite Hascii.
  destruct (a2b_loop_pad_free _ E4 [] 0) as (-> & _).
  rewrite E6. simpl app. unfold Utf8.bytes_decode.
  rewrite utf8_decode_ascii; [reflexivity|].
  eapply Forall_impl; [exact Hd | intros c; apply ascii_digit_lt].
Qed.

(** In a link that starts with the classroom address, the segment is the
    run of segment characters right after it. *)
Lemma search_after_classroom_url seg post :
  seg <> [] -> Forall (fun c => Re.id_char c = true) seg ->
  (forall c, head post = Some c -> Re.id_char c = false) ->
  Re.search_course (classroom_url ++ seg ++ post) = Some seg.
Proof.
  intros Hne Hseg Hpost.
  change classroom_url with (u "https://classroom.google.com" ++ course_prefix).
  change (u "https://classroom.google.com")
    with [104; 116; 116; 112; 115; 58; 47; 47; 99; 108; 97; 115; 115; 114; 111; 111;
          109; 46; 103; 111; 111; 103; 108; 101; 46; 99; 111; 109].
  rewrite <- app_assoc. simpl app at 1.
  do 28 (rewrite search_course_cons;
         match goal with
         | |- context [Re.course_at (?a :: ?b :: ?c :: ?r)] =>
             change (Re.course_at (a :: b :: c :: r)) with (@None str)
         end).
  assert (Hat : Re.course_at (course_prefix ++ seg ++ post) = Some seg).
  { apply course_at_some. exists post. repeat split; assumption. }
  destruct seg as [|s0 seg]; [congruence|].
  change (course_prefix ++ (s0 :: seg) ++ post)
    with (0x2F :: (0x63 :: 0x2F :: (s0 :: seg) ++ post)) in Hat.
  match goal with
  | |- Re.search_course ?l = _ =>
      change l with (0x2F :: (0x63 :: 0x2F :: (s0 :: seg) ++ post))
  end.
  rewrite search_course_cons, Hat. reflexivity.
Qed.

(** X1: a numeric course id whose number of digits is a multiple of three
    comes back unchanged from the link that carries its base64 form,
    whatever follows the segment. *)
Theorem numeric_id_round_trip (k : nat) (d post : str) :
  length d = (3 * S k)%nat ->
  Forall (fun c => ascii_digit c = true) d ->
  (forall c, head post = Some c -> Re.id_char c = false) ->
  extract_course_id (classroom_url ++ Encode.b64encode d ++ post) = Ok d.
Proof.
  intros Hlen Hd Hpost.
  destruct (encode_digits (S k) d Hlen Hd) as (E1 & _ & _ & _ & E5 & _).
  assert (Hne : Encode.b64encode d <> []).
  { intros H. rewrite H in E5. simpl in E5. lia. }
  unfold extract_course_id.
  rewrite (search_after_classroom_url _ _ Hne E1 Hpost).
  apply (decode_course_id_encode (S k)); assumption.
Qed.

Lemma numeric_id_round_trip_witness :
  (length (u "605097363246") = (3 * 4)%nat
   /\ Forall (fun c => ascii_digit c = true) (u "605097363246")
   /\ (forall c, head (u "?cjc=abc") = Some c -> Re.id_char c = false))
  /\ extract_course_id (classroom_url ++ Encode.b64encode (u "605097363246") ++ u "?cjc=abc")
     = Ok (u "605097363246").
Proof.
  assert (H1 : length (u "605097363246") = (3 * 4)%nat) by reflexivity.
  assert (H2 : Forall (fun c => ascii_digit c = true) (u "605097363246"))
    by (repeat constructor).
  assert (H3 : forall c, head (u "?cjc=abc") = Some c -> Re.id_char c = false)
    by (intros c [= <-]; reflexivity).
  split; [repeat split; assumption|].
  exact (numeric_id_round_trip 3 (u "605097363246") (u "?cjc=abc") H1 H2 H3).
Defined.

Lemma digit_tails_ok :
  forallb (fun a => forallb (digit_tail_ok a) ascii_digits) ascii_digits = true.
Proof. vm_compute. reflexivity. Qed.

(** The encoded last digits: segment characters without padding among
    them, and too few six-bit values for a group. *)
Lemma digit_tail (tail : list N) :
  Forall (fun c => ascii_digit c = true) tail ->
  (length tail = 1 \/ length tail = 2)%nat ->
  exists body pads,
    Encode.b64encode tail = body ++ Base64.PAD :: pads
    /\ body <> []
    /\ Forall (fun x => Re.id_char x = true) body
    /\ Forall (fun x => x < 128) body
    /\ (Base64.PAD ∉ body)
    /\ forall out, finish out (values body) = Raise Base64.incorrect_padding.
Proof.
  intros Hd Hlen.
  assert (Hok : forall a b, ascii_digit a = true -> ascii_digit b = true ->
                            digit_tail_ok a b = true).
  { intros a b Ha Hb. pose proof digit_tails_ok as H.
    rewrite forallb_forall in H. specialize (H a (in_ascii_digits a Ha)).
    rewrite forallb_forall in H. exact (H b (in_ascii_digits b Hb)). }
  assert (Hfacts : forall a b, digit_tail_ok a b = true ->
            forall q, (q = take 2 (Encode.quad a 0 0) \/ q = take 3 (Encode.quad a b 0)) ->
            Forall (fun x => Re.id_char x = true) q /\ Forall (fun x => x < 128) q
            /\ (Base64.PAD ∉ q)).
  { intros a b H q Hq. unfold digit_tail_ok in H.
    apply andb_true_iff in H. destruct H as [H _].
    apply andb_true_iff in H. destruct H as [H _].
    rewrite forallb_forall in H.
    assert (Hx : forall x, x ∈ q -> Re.id_char x = true /\ x < 128 /\ x <> Base64.PAD).
    { intros x Hin.
      assert (Hin' : In x (take 2 (Encode.quad a 0 0) ++ take 3 (Encode.quad a b 0))).
      { apply in_or_app. destruct Hq as [-> | ->];
          [left | right]; apply list_elem_of_In, Hin. }
      specialize (H x Hin').
      repeat (apply andb_true_iff in H; destruct H as [H ?]).
      repeat split; [assumption | apply N.ltb_lt; assumption |].
      apply N.eqb_neq, negb_true_iff. assumption. }
    split; [apply Forall_forall; intros x Hin; apply Hx, Hin|].
    split; [apply Forall_forall; intros x Hin; apply Hx, Hin|].
    intros Hin. apply Hx in Hin. tauto. }
  destruct tail as [|a [|b [|c tail]]]; simpl in Hlen; try lia.
  - inversion Hd as [|? ? Ha _]; subst.
    pose proof (Hok a a Ha Ha) as H.
    destruct (Hfacts a a H _ (or_introl eq_refl)) as (F1 & F2 & F3).
    exists (take 2 (Encode.quad a 0 0)), [Base64.PAD]. split; [reflexivity|].
    split; [discriminate|]. repeat split; try assumption.
    intros out. unfold digit_tail_ok in H.
    apply andb_true_iff in H. destruct H as [H _].
    apply andb_true_iff in H. destruct H as [_ H]. apply Nat.eqb_eq in H.
    destruct (values (take 2 (Encode.quad a 0 0))) as [|v1 [|v2 [|]]];
      try discriminate. reflexivity.
  - inversion Hd as [|? ? Ha Hd1]; subst. inversion Hd1 as [|? ? Hb _]; subst.
    pose proof (Hok a b Ha Hb) as H.
    destruct (Hfacts a b H _ (or_intror eq_refl)) as (F1 & F2 & F3).
    exists (take 3 (Encode.quad a b 0)), []. split; [reflexivity|].
    split; [discriminate|]. repeat split; try assumption.
    intros out. unfold digit_tail_ok in H.
    apply andb_true_iff in H. destruct H as [_ H]. apply Nat.eqb_eq in H.
    destruct (values (take 3 (Encode.quad a b 0))) as [|v1 [|v2 [|v3 [|]]]];
      try discriminate. reflexivity.
Qed.

Lemma encode_digits_app k : forall d tail,
  length d = (3 * k)%nat ->
  Encode.b64encode (d ++ tail) = Encode.b64encode d ++ Encode.b64encode tail.
Proof.
  induction k as [|k IH]; intros d tail Hlen.
  - destruct d; [reflexivity | discriminate].
  - destruct d as [|a [|b [|c rest]]]; try (simpl in Hlen; lia).
    change (Encode.b64encode ((a :: b :: c :: rest) ++ tail))
      with (Encode.quad a b c ++ Encode.b64encode (rest ++ tail)).
    change (Encode.b64encode (a :: b :: c :: rest))
      with (Encode.quad a b c ++ Encode.b64encode rest).
    rewrite IH by (simpl in Hlen; lia). rewrite app_assoc. reflexivity.
Qed.

Lemma finish_encode_digits k : forall d,
  length d = (3 * k)%nat -> Forall (fun c => ascii_digit c = true) d ->
  forall out vs, finish out (values (Encode.b64encode d) ++ vs) = finish (out ++ d) vs.
Proof.
  induction k as [|k IH]; intros d Hlen Hd out vs.
  - destruct d; [|discriminate]. simpl. rewrite app_nil_r. reflexivity.
  - destruct d as [|a [|b [|c rest]]]; try (simpl in Hlen; lia).
    inversion Hd as [|? ? Ha Hd1]; subst. inversion Hd1 as [|? ? Hb Hd2]; subst.
    inversion Hd2 as [|? ? Hc Hd3]; subst.
    destruct (digit_quad_facts a b c (digit_quad a b c Ha Hb Hc)) as (_ & _ & _ & _ & Q5).
    change (Encode.b64encode (a :: b :: c :: rest))
      with (Encode.quad a b c ++ Encode.b64encode rest).
    unfold values in *. rewrite omap_app, <- app_assoc, Q5.
    rewrite IH by (simpl in Hlen; lia || assumption).
    rewrite <- app_assoc. reflexivity.
Qed.

(** X2: a numeric course id whose number of digits is not a multiple of
    three is never decoded from the link that carries its base64 form: the
    padding character ends the segment, and the decoder rejects what is
    left for its missing padding. *)
Theorem numeric_id_needing_padding_rejected (k : nat) (d post : str) :
  (length d = 3 * k + 1 \/ length d = 3 * k + 2)%nat ->
  Forall (fun c => ascii_digit c = true) d ->
  extract_course_id (classroom_url ++ Encode.b64encode d ++ post)
  = Raise incorrect_padding_error.
Proof.
  intros Hlen Hd.
  rewrite <- (take_drop (3 * k) d) in Hd |- *.
  apply Forall_app in Hd. destruct Hd as [Hfull Htail].
  assert (Hlf : length (take (3 * k) d) = (3 * k)%nat) by (rewrite length_take; lia).
  assert (Hlt : (length (drop (3 * k) d) = 1 \/ length (drop (3 * k) d) = 2)%nat)
    by (rewrite length_drop; lia).
  set (full := take (3 * k) d) in *. set (tail := drop (3 * k) d) in *.
  rewrite (encode_digits_app k full tail Hlf).
  destruct (digit_tail tail Htail Hlt) as (body & pads & -> & Hne & B1 & B2 & B3 & B4).
  destruct (encode_digits k full Hlf Hfull) as (E1 & _ & E3 & E4 & _ & _).
  set (seg := Encode.b64encode full ++ body).
  assert (Hseg : Forall (fun c => Re.id_char c = true) seg)
    by (apply Forall_app; split; assumption).
  assert (Hsne : seg <> []).
  { unfold seg. intros H. apply app_eq_nil in H. tauto. }
  replace (classroom_url ++ (Encode.b64encode full ++ body ++ Base64.PAD :: pads) ++ post)
    with (classroom_url ++ seg ++ (Base64.PAD :: pads ++ post)).
  2:{ unfold seg. rewrite <- !app_assoc. reflexivity. }
  unfold extract_course_id.
  rewrite (search_after_classroom_url seg _ Hsne Hseg)
    by (intros c [= <-]; reflexivity).
  unfold decode_course_id, Base64.b64decode.
  assert (Hascii : forallb (fun c => c <? 128) seg = true).
  { apply forallb_forall. intros x Hx. apply N.ltb_lt.
    apply list_elem_of_In in Hx. unfold seg in Hx. apply elem_of_app in Hx.
    rewrite Forall_forall in E3, B2. destruct Hx; auto. }
  assert (Hpad : Base64.PAD ∉ seg).
  { unfold seg. rewrite elem_of_app. tauto. }
  rewrite Hascii. destruct (a2b_loop_pad_free _ Hpad [] 0) as (-> & _).
  unfold seg, values. rewrite omap_app.
  fold (values (Encode.b64encode full)). fold (values body).
  rewrite (finish_encode_digits k full Hlf Hfull), B4. reflexivity.
Qed.

Lemma numeric_id_needing_padding_rejected_witness :
  ((length (u "12345678901") = 3 * 3 + 1 \/ length (u "12345678901") = 3 * 3 + 2)%nat
   /\ Forall (fun c => ascii_digit c = true) (u "12345678901"))
  /\ extract_course_id (classroom_url ++ Encode.b64encode (u "12345678901") ++ u "?cjc=abc")
     = Raise incorrect_padding_error.
Proof.
  assert (H1 : (length (u "12345678901") = 3 * 3 + 1
                \/ length (u "12345678901") = 3 * 3 + 2)%nat) by (right; reflexivity).
  assert (H2 : Forall (fun c => ascii_digit c = true) (u "12345678901"))
    by (repeat constructor).
  split; [split; assumption|].
  exact (numeric_id_needing_padding_rejected 3 (u "12345678901") (u "?cjc=abc") H1 H2).
Defined.

Example padded_link_11_digits :
  classroom_url ++ Encode.b64encode (u "12345678901") = u "https://classroom.google.com/c/MTIzNDU2Nzg5MDE=".
Proof. vm_compute. reflexivity. Qed.

(** X3: a segment made only of hyphens and underscores is accepted: the
    decoder drops them all and the course id is the empty string. *)
Theorem hyphen_segment_gives_empty_id (link seg : str) :
  segment_of link seg ->
  Forall (fun c => url_only c = true) seg ->
  extract_course_id link = Ok [].
Proof.
  intros Hs Hu. pose proof (segment_chars _ _ Hs) as Hseg.
  apply search_course_some in Hs. unfold extract_course_id. rewrite Hs.
  pose proof (decode_course_id_spec seg Hseg) as H.
  assert (Hstd : standard_part seg = []).
  { unfold standard_part. clear - Hu. induction Hu as [|c seg Hc _ IH]; [reflexivity|].
    simpl. rewrite Hc. exact IH. }
  rewrite Hstd in H. exact H.
Qed.

Lemma hyphen_segment_gives_empty_id_witness :
  (segment_of (u "https://classroom.google.com/c/_-_?x") (u "_-_")
   /\ Forall (fun c => url_only c = true) (u "_-_"))
  /\ extract_course_id (u "https://classroom.google.com/c/_-_?x") = Ok [].
Proof.
  assert (H1 : segment_of (u "https://classroom.google.com/c/_-_?x") (u "_-_")).
  { apply search_course_some. vm_compute. reflexivity. }
  assert (H2 : Forall (fun c => url_only c = true) (u "_-_")) by (repeat constructor).
  split; [split; assumption|].
  exact (hyphen_segment_gives_empty_id _ _ H1 H2).
Defined.

(** ** The folder namer: every name is fit for a folder *)

Lemma decimal_not_illegal c : Unicode.isdecimal c = true -> Re.illegal_char c = false.
Proof.
  intros H.
  assert (Hr : 0x30 <= c <= 0x39 \/ 0x660 <= c).
  { unfold Unicode.isdecimal, Unicode.decimal_ranges in H. simpl in H.
    bool_to_prop; lia. }
  unfold Re.illegal_char.
  repeat (apply orb_false_iff; split); apply N.eqb_neq; lia.
Qed.

Lemma not_illegal_spec c : Re.illegal_char c = false <-> c ∉ illegal_chars.
Proof.
  rewrite <- illegal_char_spec. destruct (Re.illegal_char c); split; congruence.
Qed.

Lemma sub_illegal_clean s : Forall (fun c => c ∉ illegal_chars) (Re.sub_illegal s).
Proof.
  unfold Re.sub_illegal. induction s as [|c s IH]; simpl; constructor; [|exact IH].
  apply not_illegal_spec. destruct (Re.illegal_char c) eqn:Hc; [reflexivity | exact Hc].
Qed.

Lemma clean_text (s : str) :
  forallb (fun c => negb (Re.illegal_char c)) s = true ->
  Forall (fun c => c ∉ illegal_chars) s.
Proof.
  intros H. rewrite forallb_forall in H. apply Forall_forall. intros c Hc.
  apply not_illegal_spec, negb_true_iff, H, list_elem_of_In, Hc.
Qed.

(** X4: whatever the title and the file name, the folder namer returns a
    name that is not empty and holds none of the nine characters it
    replaces, the slash and the backslash among them. *)
Theorem folder_name_is_clean (parent_title file_name : option str) (st : State) :
  exists r,
    folder_name parent_title file_name st = Ok r
    /\ r <> []
    /\ Forall (fun c => c ∉ illegal_chars) r.
Proof.
  assert (Hblank : blank parent_title ->
            exists r, folder_name parent_title file_name st = Ok r /\ r <> []
                      /\ Forall (fun c => c ∉ illegal_chars) r).
  { intros Hb. rewrite (folder_name_untitled _ _ _ Hb).
    assert (Hother : exists r, Ok (u "Other_Materials") = Ok r /\ r <> []
                               /\ Forall (fun c => c ∉ illegal_chars) r).
    { exists (u "Other_Materials"). split; [reflexivity|]. split; [discriminate|].
      apply clean_text. reflexivity. }
    destruct file_name as [f|]; [|exact Hother].
    destruct (Re.match_module (strip f)) as [ds|] eqn:Hm; [|exact Hother].
    destruct (truthy f); [|exact Hother].
    apply match_module_spec in Hm. destruct Hm as (rest & _ & _ & Hds).
    exists (u "Module " ++ ds). split; [reflexivity|]. split; [discriminate|].
    apply Forall_app. split; [apply clean_text; reflexivity|].
    eapply Forall_impl; [exact Hds|]. intros c Hc.
    apply not_illegal_spec, decimal_not_illegal, Hc. }
  destruct parent_title as [t|]; [|apply Hblank; exact I].
  destruct (strip t) as [|c0 s] eqn:Ht; [apply Hblank; exact Ht|].
  exists (Re.sub_illegal (strip t)). split; [|split].
  - apply folder_name_titled. rewrite Ht. discriminate.
  - rewrite Ht. discriminate.
  - apply sub_illegal_clean.
Qed.

(** ** The orchestrator: every file, once, in order *)

Lemma named_folder_titled t file_name :
  strip t <> [] -> named_folder (Some t) file_name = Re.sub_illegal (strip t).
Proof.
  intros H. unfold named_folder. rewrite (folder_name_titled _ _ _ H). reflexivity.
Qed.

(** The coursework loop, titled or not. *)
Lemma coursework_calls env output_dir g st :
  made_calls (process_coursework env output_dir g st) st (coursework_calls_of output_dir g).
Proof.
  unfold process_coursework, coursework_calls_of, coursework_folder.
  destruct (materials_of g) as [materials|];
    [|apply made_calls_none; [apply preserves_ret | reflexivity]].
  rewrite <- drive_files_bind.
  apply (made_calls_bind _ _ st [] _ (made_calls_folder_namer _ _ st)).
  intros a st1 _.
  apply (made_calls_bind _ _ st1 [] _ (made_calls_makedirs _ _ st1)).
  intros _ st2 _. apply made_calls_for_each.
  intros [file|] st3; [|apply made_calls_none; [apply preserves_ret | reflexivity]].
  destruct (truthy (strip (get_title g))).
  - apply (made_calls_bind _ _ st3 [] _ (made_calls_folder_namer _ _ st3)).
    intros b st4 Hb. apply folder_namer_value in Hb. subst b.
    apply (made_calls_bind _ _ st4 [] _ (made_calls_makedirs _ _ st4)).
    intros _ st5 _. apply made_calls_download.
  - apply (made_calls_bind _ _ st3 [] _ (made_calls_folder_namer _ _ st3)).
    intros b st4 Hb. apply folder_namer_value in Hb. subst b.
    apply (made_calls_bind _ _ st4 [] _ (made_calls_makedirs _ _ st4)).
    intros _ st5 _. apply made_calls_download.
Qed.

Lemma announcement_calls_any env output_dir g st :
  made_calls (process_announcement env output_dir g st) st
    (announcement_calls_of output_dir g).
Proof.
  unfold announcement_calls_of, announcement_folder.
  destruct (materials_of g) as [materials|] eqn:Hm.
  - apply announcement_calls, Hm.
  - unfold process_announcement. rewrite Hm.
    apply made_calls_none; [apply preserves_ret | reflexivity].
Qed.

(** X5: for a group with a title, the coursework loop and the announcement
    loop agree: every drive file of the group goes to the one folder named
    by the sanitised title, whatever the files are called. *)
Theorem titled_group_single_folder env output_dir g materials st :
  materials_of g = Some materials ->
  strip (get_title g) <> [] ->
  made_calls (process_coursework env output_dir g st) st
    (call_into (fun _ => path_join output_dir (Re.sub_illegal (strip (get_title g))))
       <$> drive_files materials)
  /\ made_calls (process_announcement env output_dir g st) st
       (call_into (fun _ => path_join output_dir (Re.sub_illegal (strip (get_title g))))
          <$> drive_files materials).
Proof.
  intros Hm Ht. split.
  - pose proof (coursework_calls env output_dir g st) as H.
    unfold coursework_calls_of, coursework_folder in H. rewrite Hm in H.
    rewrite (proj2 (truthy_nonempty _) Ht) in H.
    rewrite (named_folder_titled _ _ Ht) in H. exact H.
  - pose proof (announcement_calls env output_dir g materials st Hm) as H.
    rewrite (named_folder_titled _ _ Ht) in H. exact H.
Qed.

Lemma titled_group_single_folder_witness :
  (materials_of titled_group = Some untitled_materials
   /\ strip (get_title titled_group) <> [])
  /\ made_calls (process_coursework quiet_env (u "/data/OS") titled_group empty_state)
       empty_state
       [ (u "id-a", u "1.3 Threads.pdf", u "/data/OS/Unit 2_ I_O");
         (u "id-b", u "2.1 Scheduling.pdf", u "/data/OS/Unit 2_ I_O") ]
  /\ made_calls (process_announcement quiet_env (u "/data/OS") titled_group empty_state)
       empty_state
       [ (u "id-a", u "1.3 Threads.pdf", u "/data/OS/Unit 2_ I_O");
         (u "id-b", u "2.1 Scheduling.pdf", u "/data/OS/Unit 2_ I_O") ].
Proof.
  assert (H1 : materials_of titled_group = Some untitled_materials) by reflexivity.
  assert (H2 : strip (get_title titled_group) <> []) by (vm_compute; discriminate).
  split; [split; assumption|].
  exact (titled_group_single_folder quiet_env (u "/data/OS") titled_group
           untitled_materials empty_state H1 H2).
Defined.

Lemma made_calls_lift {A} (r : result A) st : made_calls (lift r st) st [].
Proof. apply made_calls_none; [apply preserves_lift | reflexivity]. Qed.

Lemma made_calls_print line st : made_calls (print line st) st [].
Proof. apply made_calls_none; [apply print_same_calls | reflexivity]. Qed.

(** X6: once the course is found, the run hands every drive file of every
    group to download_file exactly once and in the order of the listings,
    the announcements before the coursework materials; a run cut short by
    an exception has made the first of these calls and no other. *)
Theorem mirror_course_calls env course_id c announcements materials st :
  announcements_list env course_id = Ok announcements ->
  courseWorkMaterials_list env course_id = Ok materials ->
  made_calls (mirror_course env course_id c st) st
    ((announcements ≫= announcement_calls_of (root_of env c))
     ++ (materials ≫= coursework_calls_of (root_of env c))).
Proof.
  intros Ha Hm. unfold mirror_course. fold (root_of env c). rewrite Ha, Hm.
  rewrite <- (app_nil_r (materials ≫= coursework_calls_of (root_of env c))).
  apply (made_calls_bind _ _ st [] _ (made_calls_makedirs _ _ st)).
  intros _ st1 _.
  apply (made_calls_bind _ _ st1 [] _ (made_calls_lift _ st1)).
  intros a st2 Hl. unfold lift in Hl. injection Hl as <- _.
  apply made_calls_bind.
  { apply made_calls_for_each. intros x st'. apply announcement_calls_any. }
  intros _ st3 _.
  apply (made_calls_bind _ _ st3 [] _ (made_calls_lift _ st3)).
  intros b st4 Hl. unfold lift in Hl. injection Hl as <- _.
  apply made_calls_bind.
  { apply made_calls_for_each. intros x st'. apply coursework_calls. }
  intros _ st5 _. apply made_calls_print.
Qed.

Lemma mirror_course_calls_witness :
  (announcements_list (with_groups [untitled_group] [titled_group; untitled_group] quiet_env)
     (u "605097363246") = Ok [untitled_group]
   /\ courseWorkMaterials_list
        (with_groups [untitled_group] [titled_group; untitled_group] quiet_env)
        (u "605097363246") = Ok [titled_group; untitled_group])
  /\ made_calls
       (mirror_course (with_groups [untitled_group] [titled_group; untitled_group] quiet_env)
          (u "605097363246") {| name_of := u "Operating Systems/2" |} empty_state)
       empty_state
       [ (u "id-a", u "1.3 Threads.pdf", u "/data/Operating_Systems_2/Module 1");
         (u "id-b", u "2.1 Scheduling.pdf", u "/data/Operating_Systems_2/Module 1");
         (u "id-a", u "1.3 Threads.pdf", u "/data/Operating_Systems_2/Unit 2_ I_O");
         (u "id-b", u "2.1 Scheduling.pdf", u "/data/Operating_Systems_2/Unit 2_ I_O");
         (u "id-a", u "1.3 Threads.pdf", u "/data/Operating_Systems_2/Module 1");
         (u "id-b", u "2.1 Scheduling.pdf", u "/data/Operating_Systems_2/Module 2") ].
Proof.
  split; [split; reflexivity|].
  exact (mirror_course_calls
           (with_groups [untitled_group] [titled_group; untitled_group] quiet_env)
           (u "605097363246") {| name_of := u "Operating Systems/2" |}
           [untitled_group] [titled_group; untitled_group] empty_state eq_refl eq_refl).
Defined.

(** ** The file downloader: what a call does *)

#[global] Instance touches_only_preorder path file_id : PreOrder (touches_only path file_id).
Proof.
  split.
  - intros st. split; [auto|]. split; [auto|]. exists 0%nat. simpl. rewrite app_nil_r. reflexivity.
  - intros a b c (H1 & H2 & k1 & H3) (H1' & H2' & k2 & H3').
    split; [auto|]. split; [auto|].
    exists (k1 + k2)%nat. rewrite H3', H3, replicate_add, app_assoc. reflexivity.
Qed.

Lemma no_transfer_touches_only path file_id st st' :
  no_transfer st st' -> touches_only path file_id st st'.
Proof.
  intros (Hsub & Hfiles & Hreq). split; [|split].
  - intros p n _ Hp. eapply lookup_weaken; eassumption.
  - intros p c _. apply Hfiles.
  - exists 0%nat. simpl. rewrite app_nil_r. exact Hreq.
Qed.

Lemma touches_only_weaken {A} path file_id (c : M A) :
  preserves no_transfer c -> preserves (touches_only path file_id) c.
Proof. apply preserves_weaken. apply no_transfer_touches_only. Qed.

Section DownloadFrames.

Variable env : Env.
Variables path file_id : str.

Lemma open_write_touches : preserves (touches_only path file_id) (open_write env path).
Proof.
  intros st. unfold open_write.
  destruct (fault env path); [reflexivity|].
  destruct (fs st !! path) as [[|c]|]; try reflexivity;
    (split; [|split; [|exists 0%nat; simpl; rewrite app_nil_r; reflexivity]];
     simpl; intros p ? Hne; rewrite lookup_insert_ne by congruence; auto).
Qed.

Lemma write_touches data : preserves (touches_only path file_id) (write path data).
Proof.
  intros st. unfold write.
  split; [|split; [|exists 0%nat; simpl; rewrite app_nil_r; reflexivity]];
    simpl; intros p ? Hne; rewrite lookup_insert_ne by congruence; auto.
Qed.

Lemma next_chunk_touches r : preserves (touches_only path file_id) (next_chunk file_id path r).
Proof.
  intros st. unfold next_chunk.
  assert (H1 : touches_only path file_id st
                 {| fs := fs st; stdout := stdout st;
                    requests := requests st ++ [file_id]; calls := calls st |}).
  { split; [auto|]. split; [auto|]. exists 1%nat. reflexivity. }
  destruct r as [data percent done|e]; [|exact H1].
  etransitivity; [exact H1|].
  apply (preserves_bind (R := touches_only path file_id));
    [apply write_touches | intros _; apply preserves_ret].
Qed.

Lemma print_touches line : preserves (touches_only path file_id) (print line).
Proof. apply touches_only_weaken, print_no_transfer. Qed.

Lemma download_loop_touches file_name answers :
  preserves (touches_only path file_id) (download_loop file_id file_name path answers).
Proof.
  induction answers as [|r answers IH]; simpl; [apply preserves_raise|].
  apply preserves_bind; [apply next_chunk_touches|]. intros status.
  apply preserves_bind; [apply print_touches|]. intros _.
  destruct (snd status); [apply preserves_ret | exact IH].
Qed.

Lemma transfer_touches file_name :
  preserves (touches_only path file_id) (transfer env file_id file_name path).
Proof.
  unfold transfer.
  apply preserves_bind; [apply exists_frame; apply _|]. intros present.
  destruct present; [apply print_touches|].
  apply preserves_bind; [apply open_write_touches|]. intros _.
  apply preserves_bind; [apply download_loop_touches|]. intros _.
  apply print_touches.
Qed.

End DownloadFrames.


(** X8: the only exception of class Exception that a call to download_file
    lets out is the UnboundLocalError of its own handlers; everything else
    that leaves it is outside Exception. *)
Theorem download_file_lets_out env file_id file_name output_dir st e :
  fst (download_file env file_id file_name output_dir st) = Raise e ->
  e = unbound_file_path \/ isinstance e Exception = false.
Proof.
  rewrite download_file_unfold.
  destruct (ensure_directory env output_dir _) as [[[]|e0] st1].
  - unfold try_except.
    destruct (transfer env file_id file_name _ st1) as [[[]|e1] st2]; [discriminate|].
    unfold download_handlers, handle, bind, read_local, ret, print, raise.
    destruct (isinstance e1 PermissionError); [discriminate|].
    destruct (isinstance e1 OSError); [discriminate|].
    destruct (isinstance e1 Exception) eqn:He; [discriminate|].
    simpl. intros [= <-]. right. exact He.
  - unfold download_handlers, handle, bind, read_local, ret, print, raise.
    destruct (isinstance e0 PermissionError); [simpl; intros [= <-]; left; reflexivity|].
    destruct (isinstance e0 OSError); [simpl; intros [= <-]; left; reflexivity|].
    destruct (isinstance e0 Exception) eqn:He; [discriminate|].
    simpl. intros [= <-]. right. exact He.
Qed.

Lemma download_file_lets_out_witness :
  fst (download_file denied_env (u "id-1") (u "notes.pdf") (u "/data/OS/Week 1") empty_state)
    = Raise unbound_file_path
  /\ (unbound_file_path = unbound_file_path
      \/ isinstance unbound_file_path Exception = false).
Proof.
  assert (H : fst (download_file denied_env (u "id-1") (u "notes.pdf")
                     (u "/data/OS/Week 1") empty_state) = Raise unbound_file_path)
    by (vm_compute; reflexivity).
  split; [exact H|].
  exact (download_file_lets_out denied_env (u "id-1") (u "notes.pdf")
           (u "/data/OS/Week 1") empty_state unbound_file_path H).
Defined.

#[local] Arguments u : simpl never.
#[local] Arguments str_of_N : simpl never.

Lemma for_each_mkdir_ready env qs st :
  Forall (fun q => fs st !! q = Some Dir) qs ->
  for_each qs (mkdir_step env false) st = (Ok tt, st).
Proof.
  induction 1 as [|q qs Hq _ IH]; [reflexivity|].
  simpl. unfold bind, mkdir_step at 1. rewrite Hq. exact IH.
Qed.

Lemma bind_run {A B} (c : M A) (k : A -> M B) st :
  bind c k st = match c st with
                | (Ok a, st') => k a st'
                | (Raise e, st') => (Raise e, st')
                end.
Proof. reflexivity. Qed.

Lemma print_run line st :
  print line st = (Ok tt, {| fs := fs st; stdout := stdout st ++ [line];
                             requests := requests st; calls := calls st |}).
Proof. reflexivity. Qed.

Lemma makedirs_ready env d st : directory_ready st d -> makedirs env d st = (Ok tt, st).
Proof.
  intros [Hd Hps]. unfold makedirs. rewrite bind_run, for_each_mkdir_ready by exact Hps.
  unfold mkdir_step. rewrite Hd. reflexivity.
Qed.

(** With the directory there, the set-up only announces itself. *)
Lemma ensure_directory_ready env d st :
  directory_ready st d ->
  ensure_directory env d st
  = (Ok tt, snd (print (u "Attempting to create directory: " ++ d) st)).
Proof.
  intros Hdir. unfold ensure_directory. rewrite bind_run, print_run.
  rewrite bind_run, makedirs_ready by exact Hdir.
  rewrite bind_run. unfold isdir. destruct Hdir as [Hd _]. cbn [fs]. rewrite Hd.
  reflexivity.
Qed.

(** The loop over pieces that are not the last, then a last piece. *)
Lemma download_loop_done file_id file_name path parts dl pl rest : forall st content,
  fs st !! path = Some (File content) ->
  download_loop file_id file_name path (pieces parts ++ Chunk dl pl true :: rest) st
  = (Ok tt,
     {| fs := <[path := File (content ++ concat (fst <$> parts) ++ dl)]> (fs st);
        stdout := stdout st ++ progress_lines file_name (parts ++ [(dl, pl)]);
        requests := requests st ++ replicate (S (length parts)) file_id;
        calls := calls st |}).
Proof.
  induction parts as [|[d p] parts IH]; intros st content Hc.
  - simpl. unfold bind, next_chunk, write, print, ret. simpl. rewrite Hc. reflexivity.
  - simpl. unfold bind at 1, next_chunk, write at 1, bind at 1, ret at 1. simpl.
    unfold bind at 1, print at 1. simpl. rewrite Hc.
    rewrite (IH _ (content ++ d)) by (simpl; apply lookup_insert_eq).
    simpl. rewrite insert_insert_eq, <- !app_assoc. reflexivity.
Qed.

(** The same with an exception in place of the last piece. *)
Lemma download_loop_failed file_id file_name path parts e rest : forall st content,
  fs st !! path = Some (File content) ->
  download_loop file_id file_name path (pieces parts ++ Failed e :: rest) st
  = (Raise e,
     {| fs := <[path := File (content ++ concat (fst <$> parts))]> (fs st);
        stdout := stdout st ++ progress_lines file_name parts;
        requests := requests st ++ replicate (S (length parts)) file_id;
        calls := calls st |}).
Proof.
  induction parts as [|[d p] parts IH]; intros st content Hc.
  - simpl. unfold bind, next_chunk. simpl.
    rewrite !app_nil_r, (insert_id _ _ _ Hc). reflexivity.
  - simpl. unfold bind at 1, next_chunk, write at 1, bind at 1, ret at 1. simpl.
    unfold bind at 1, print at 1. simpl. rewrite Hc.
    rewrite (IH _ (content ++ d)) by (simpl; apply lookup_insert_eq).
    simpl. rewrite insert_insert_eq, <- !app_assoc. reflexivity.
Qed.

Lemma directory_ready_with_call c st d : directory_ready st d -> directory_ready (with_call c st) d.
Proof. intros H. exact H. Qed.

(** X9: with the directory there, the destination free and the service
    answering piece by piece, a call to download_file writes the pieces
    one after the other into the new file, up to the piece that says it is
    the last, sends one request for each of them and none after, and
    returns the state described here in full. *)
Theorem download_file_fetches env file_id file_name output_dir parts dl pl rest st :
  directory_ready st output_dir ->
  plain_name file_name ->
  fs st !! path_join output_dir file_name = None ->
  fault env (path_join output_dir file_name) = None ->
  media env file_id = pieces parts ++ Chunk dl pl true :: rest ->
  download_file env file_id file_name output_dir st
  = (Ok tt,
     {| fs := <[path_join output_dir file_name := File (concat (fst <$> parts) ++ dl)]> (fs st);
        stdout := stdout st
                  ++ [u "Attempting to create directory: " ++ output_dir]
                  ++ progress_lines file_name (parts ++ [(dl, pl)])
                  ++ [u "Downloaded: " ++ path_join output_dir file_name];
        requests := requests st ++ replicate (S (length parts)) file_id;
        calls := calls st ++ [(file_id, file_name, output_dir)] |}).
Proof.
  intros Hdir _ Hfree Hfault Hmedia.
  rewrite download_file_unfold.
  rewrite (ensure_directory_ready env output_dir _
             (directory_ready_with_call (file_id, file_name, output_dir) st _ Hdir)).
  set (path := path_join output_dir file_name) in *.
  unfold try_except, transfer, bind at 1, exists_. simpl. rewrite Hfree.
  unfold bind at 1, open_write. rewrite Hfault. simpl. rewrite Hfree.
  unfold bind at 1. rewrite Hmedia.
  rewrite (download_loop_done _ _ _ _ _ _ _ _ []) by (simpl; apply lookup_insert_eq).
  simpl. rewrite insert_insert_eq, <- !app_assoc. reflexivity.
Qed.

Lemma download_file_fetches_witness :
  (directory_ready ready_state (u "/data/OS/Week 1")
   /\ plain_name (u "notes.pdf")
   /\ fs ready_state !! path_join (u "/data/OS/Week 1") (u "notes.pdf") = None
   /\ fault three_piece_env (path_join (u "/data/OS/Week 1") (u "notes.pdf")) = None
   /\ media three_piece_env (u "id-1")
      = pieces [(u "ab", 40); (u "cd", 80)] ++ Chunk (u "e") 100 true :: [])
  /\ download_file three_piece_env (u "id-1") (u "notes.pdf") (u "/data/OS/Week 1")
       ready_state
     = (Ok tt,
        {| fs := <[u "/data/OS/Week 1/notes.pdf" := File (u "abcde")]> (fs ready_state);
           stdout := [ u "Attempting to create directory: /data/OS/Week 1";
                       u "Downloading notes.pdf: 40%";
                       u "Downloading notes.pdf: 80%";
                       u "Downloading notes.pdf: 100%";
                       u "Downloaded: /data/OS/Week 1/notes.pdf" ];
           requests := [ u "id-1"; u "id-1"; u "id-1" ];
           calls := [ (u "id-1", u "notes.pdf", u "/data/OS/Week 1") ] |}).
Proof.
  assert (H1 : directory_ready ready_state (u "/data/OS/Week 1")).
  { split; [reflexivity|]. repeat constructor. }
  assert (H2 : plain_name (u "notes.pdf")).
  { repeat split; try discriminate.
    intros Hin. apply list_elem_of_In in Hin. cbv in Hin. intuition discriminate. }
  assert (H3 : fs ready_state !! path_join (u "/data/OS/Week 1") (u "notes.pdf") = None)
    by (vm_compute; reflexivity).
  assert (H4 : fault three_piece_env (path_join (u "/data/OS/Week 1") (u "notes.pdf")) = None)
    by reflexivity.
  assert (H5 : media three_piece_env (u "id-1")
               = pieces [(u "ab", 40); (u "cd", 80)] ++ Chunk (u "e") 100 true :: [])
    by reflexivity.
  split; [repeat split; try assumption; apply H1 || apply H2|].
  exact (download_file_fetches three_piece_env (u "id-1") (u "notes.pdf")
           (u "/data/OS/Week 1") [(u "ab", 40); (u "cd", 80)] (u "e") 100 []
           ready_state H1 H2 H3 H4 H5).
Defined.

Lemma handlers_bound_print file_name path e :
  isinstance e Exception = true ->
  exists line, forall st,
    handle (download_handlers file_name (Some path)) e st = print line st.
Proof.
  intros He. unfold download_handlers, handle, read_local.
  destruct (isinstance e PermissionError); [eexists; reflexivity|].
  destruct (isinstance e OSError); [eexists; reflexivity|].
  rewrite He. eexists; reflexivity.
Qed.

(** X10: when the service fails in the middle of a transfer, the call
    returns normally and the file stays at the destination with the pieces
    received so far; a second call then finds the path taken, sends no
    request and leaves the partial file as it is. *)
Theorem download_file_keeps_partial_file env file_id file_name output_dir parts e rest st :
  directory_ready st output_dir ->
  plain_name file_name ->
  fs st !! path_join output_dir file_name = None ->
  fault env (path_join output_dir file_name) = None ->
  media env file_id = pieces parts ++ Failed e :: rest ->
  isinstance e Exception = true ->
  exists st',
    download_file env file_id file_name output_dir st = (Ok tt, st')
    /\ fs st' = <[path_join output_dir file_name := File (concat (fst <$> parts))]> (fs st)
    /\ requests st' = requests st ++ replicate (S (length parts)) file_id
    /\ requests (snd (download_file env file_id file_name output_dir st')) = requests st'
    /\ fs (snd (download_file env file_id file_name output_dir st'))
         !! path_join output_dir file_name
       = Some (File (concat (fst <$> parts))).
Proof.
  intros Hdir _ Hfree Hfault Hmedia He.
  set (path := path_join output_dir file_name) in *.
  destruct (handlers_bound_print file_name path e He) as [line Hline].
  assert (Hrun :
            download_file env file_id file_name output_dir st
            = (Ok tt,
               {| fs := <[path := File (concat (fst <$> parts))]> (fs st);
                  stdout := (stdout st ++ [u "Attempting to create directory: " ++ output_dir]
                             ++ progress_lines file_name parts) ++ [line];
                  requests := requests st ++ replicate (S (length parts)) file_id;
                  calls := calls st ++ [(file_id, file_name, output_dir)] |})).
  { rewrite download_file_unfold.
    rewrite (ensure_directory_ready env output_dir _
               (directory_ready_with_call (file_id, file_name, output_dir) st _ Hdir)).
    fold path. unfold try_except, transfer. rewrite bind_run. unfold exists_.
    cbn [snd print with_call log_call fs]. rewrite Hfree.
    rewrite bind_run. unfold open_write. rewrite Hfault. cbn [fs]. rewrite Hfree.
    rewrite bind_run, Hmedia.
    rewrite (download_loop_failed _ _ _ _ _ _ _ [])
      by (cbn [set_fs fs]; apply lookup_insert_eq).
    rewrite Hline, print_run.
    cbn [set_fs fs stdout requests calls]. rewrite insert_insert_eq, <- !app_assoc.
    reflexivity. }
  eexists. split; [exact Hrun|].
  split; [reflexivity|]. split; [reflexivity|].
  match goal with |- context [download_file _ _ _ _ ?s] => set (st' := s) end.
  assert (Hocc : fs st' !! path = Some (File (concat (fst <$> parts))))
    by (apply lookup_insert_eq).
  destruct (download_file_occupied env file_id file_name output_dir _ st' Hocc)
    as (Hsub & _ & Hreq).
  split; [exact Hreq|]. eapply lookup_weaken; [exact Hocc | exact Hsub].
Qed.

Lemma download_file_keeps_partial_file_witness :
  (directory_ready ready_state (u "/data/OS/Week 1")
   /\ plain_name (u "notes.pdf")
   /\ fs ready_state !! path_join (u "/data/OS/Week 1") (u "notes.pdf") = None
   /\ fault broken_env (path_join (u "/data/OS/Week 1") (u "notes.pdf")) = None
   /\ media broken_env (u "id-1")
      = pieces [(u "ab", 40)] ++ Failed (Exn HttpError (u "connection reset")) :: []
   /\ isinstance (Exn HttpError (u "connection reset")) Exception = true)
  /\ exists st',
       download_file broken_env (u "id-1") (u "notes.pdf") (u "/data/OS/Week 1") ready_state
       = (Ok tt, st')
       /\ fs st' = <[path_join (u "/data/OS/Week 1") (u "notes.pdf")
                     := File (concat (fst <$> [(u "ab", 40)]))]> (fs ready_state)
       /\ requests st' = requests ready_state ++ replicate 2 (u "id-1")
       /\ requests (snd (download_file broken_env (u "id-1") (u "notes.pdf")
                           (u "/data/OS/Week 1") st')) = requests st'
       /\ fs (snd (download_file broken_env (u "id-1") (u "notes.pdf")
                     (u "/data/OS/Week 1") st'))
            !! path_join (u "/data/OS/Week 1") (u "notes.pdf")
          = Some (File (concat (fst <$> [(u "ab", 40)]))).
Proof.
  assert (H1 : directory_ready ready_state (u "/data/OS/Week 1")).
  { split; [reflexivity|]. repeat constructor. }
  assert (H2 : plain_name (u "notes.pdf")).
  { repeat split; try discriminate.
    intros Hin. apply list_elem_of_In in Hin. cbv in Hin. intuition discriminate. }
  assert (H3 : fs ready_state !! path_join (u "/data/OS/Week 1") (u "notes.pdf") = None)
    by (vm_compute; reflexivity).
  assert (H4 : fault broken_env (path_join (u "/data/OS/Week 1") (u "notes.pdf")) = None)
    by reflexivity.
  assert (H5 : media broken_env (u "id-1")
               = pieces [(u "ab", 40)] ++ Failed (Exn HttpError (u "connection reset")) :: [])
    by reflexivity.
  assert (H6 : isinstance (Exn HttpError (u "connection reset")) Exception = true)
    by reflexivity.
  split; [repeat split; try assumption; apply H1 || apply H2|].
  exact (download_file_keeps_partial_file broken_env (u "id-1") (u "notes.pdf")
           (u "/data/OS/Week 1") [(u "ab", 40)] (Exn HttpError (u "connection reset")) []
           ready_state H1 H2 H3 H4 H5 H6).
Defined.

(** ** Authentication *)

Lemma persist_run env creds st :
  fault env token_json = None ->
  (forall n, fs st !! token_json = Some n -> n <> Dir) ->
  persist env creds st
  = (Ok creds, set_fs (insert token_json (File (to_json creds))) st).
Proof.
  intros Hf Hn. unfold persist. rewrite bind_run. unfold open_write. rewrite Hf.
  assert (Hopen : match fs st !! token_json with
                  | Some Dir =>
                      (@Raise unit (Exn IsADirectoryError
                                      (u "[Errno 21] Is a directory: '" ++ token_json ++ u "'")),
                       st)
                  | _ => (Ok tt, set_fs (insert token_json (File [])) st)
                  end = (Ok tt, set_fs (insert token_json (File [])) st)).
  { destruct (fs st !! token_json) as [[|c]|] eqn:Ht; try reflexivity.
    exfalso. exact (Hn Dir eq_refl eq_refl). }
  rewrite Hopen, bind_run. unfold write, ret, set_fs. cbn [fs stdout requests calls].
  rewrite lookup_insert_eq, insert_insert_eq. reflexivity.
Qed.

(** X11: with a stored token that is still valid, authenticate returns it
    and changes nothing: the token file is not rewritten and neither a
    refresh nor the interactive flow takes place. *)
Theorem authenticate_valid_token env st n c :
  fs st !! token_json = Some n ->
  from_authorized_user_file env = Ok c ->
  valid c = true ->
  authenticate env st = (Ok c, st).
Proof.
  intros Ht Hc Hv. unfold authenticate. rewrite bind_run. unfold exists_. rewrite Ht.
  rewrite bind_run, bind_run. unfold lift. rewrite Hc. unfold ret. rewrite Hv. reflexivity.
Qed.

Lemma authenticate_valid_token_witness :
  (fs token_state !! token_json = Some (File (u "{}"))
   /\ from_authorized_user_file quiet_env = Ok sample_credentials
   /\ valid sample_credentials = true)
  /\ authenticate quiet_env token_state = (Ok sample_credentials, token_state).
Proof.
  assert (H1 : fs token_state !! token_json = Some (File (u "{}")))
    by (vm_compute; reflexivity).
  split; [repeat split; assumption || reflexivity|].
  exact (authenticate_valid_token quiet_env token_state _ sample_credentials
           H1 eq_refl eq_refl).
Defined.

(** X12: a stored token that ran out and carries a refresh token is
    refreshed, and the refreshed token is written to token.json and
    returned; the client secret is not asked for, so this works without
    credentials.json. *)
Theorem authenticate_refreshes env st old c t c' :
  fs st !! token_json = Some (File old) ->
  from_authorized_user_file env = Ok c ->
  valid c = false ->
  expired c = true ->
  refresh_token c = Some t ->
  t <> [] ->
  refresh env c = Ok c' ->
  fault env token_json = None ->
  authenticate env st
  = (Ok c', set_fs (insert token_json (File (to_json c'))) st).
Proof.
  intros Ht Hc Hv He Hr Hne Href Hf.
  unfold authenticate. rewrite bind_run. unfold exists_. rewrite Ht.
  rewrite bind_run, bind_run. unfold lift at 1. rewrite Hc. unfold ret at 1.
  rewrite Hv, He, Hr. rewrite (proj2 (truthy_nonempty t) Hne). cbn [andb].
  rewrite bind_run. unfold lift. rewrite Href.
  apply persist_run; [exact Hf|]. intros n Hn. rewrite Ht in Hn. congruence.
Qed.

Lemma authenticate_refreshes_witness :
  (fs token_state !! token_json = Some (File (u "{}"))
   /\ from_authorized_user_file stale_env = Ok stale_credentials
   /\ valid stale_credentials = false
   /\ expired stale_credentials = true
   /\ refresh_token stale_credentials = Some (u "r-token")
   /\ u "r-token" <> []
   /\ refresh stale_env stale_credentials = Ok fresh_credentials
   /\ fault stale_env token_json = None)
  /\ fs token_state !! credentials_json = None
  /\ authenticate stale_env token_state
     = (Ok fresh_credentials,
        set_fs (insert token_json (File (to_json fresh_credentials))) token_state).
Proof.
  assert (H1 : fs token_state !! token_json = Some (File (u "{}")))
    by (vm_compute; reflexivity).
  assert (H6 : u "r-token" <> []) by discriminate.
  split; [repeat split; assumption || reflexivity|].
  split; [vm_compute; reflexivity|].
  exact (authenticate_refreshes stale_env token_state (u "{}") stale_credentials
           (u "r-token") fresh_credentials H1 eq_refl eq_refl eq_refl eq_refl H6
           eq_refl eq_refl).
Defined.

Lemma persist_outcome env creds st r st' :
  persist env creds st = (r, st') ->
  match r with
  | Raise _ => st' = st
  | Ok c => c = creds /\ st' = set_fs (insert token_json (File (to_json creds))) st
  end.
Proof.
  unfold persist. rewrite bind_run. unfold open_write.
  destruct (fault env token_json); [intros [= <- <-]; reflexivity|].
  destruct (fs st !! token_json) as [[|old]|];
    [intros [= <- <-]; reflexivity| |];
    rewrite bind_run; unfold write, ret, set_fs; cbn [fs stdout requests calls];
    rewrite lookup_insert_eq, insert_insert_eq; intros [= <- <-]; split; reflexivity.
Qed.

Lemma interactive_flow_state env st r st' : interactive_flow env st = (r, st') -> st' = st.
Proof.
  unfold interactive_flow. rewrite bind_run. unfold exists_.
  destruct (fs st !! credentials_json).
  - rewrite bind_run. unfold check, lift.
    destruct (from_client_secrets_file env); intros [= _ <-]; reflexivity.
  - intros [= _ <-]; reflexivity.
Qed.

(** X13: when authenticate returns credentials, either nothing changed and
    they are the valid stored token, or the one change is that token.json
    now holds exactly their JSON text; when it fails, nothing changed. *)
Theorem authenticate_outcome env st r st' :
  authenticate env st = (r, st') ->
  match r with
  | Raise _ => st' = st
  | Ok c =>
      (st' = st /\ from_authorized_user_file env = Ok c /\ valid c = true)
      \/ st' = set_fs (insert token_json (File (to_json c))) st
  end.
Proof.
  assert (Hthen : forall (flow : M credentials),
            (forall r1 st1, flow st = (r1, st1) -> st1 = st) ->
            forall r st',
            (creds' <- flow ;; persist env creds') st = (r, st') ->
            match r with
            | Raise _ => st' = st
            | Ok c => st' = set_fs (insert token_json (File (to_json c))) st
            end).
  { intros flow Hflow r0 st0. rewrite bind_run.
    destruct (flow st) as [[c1|e1] st1] eqn:Hrun.
    - rewrite (Hflow _ _ eq_refl). intros Hp. apply persist_outcome in Hp.
      destruct r0 as [c0|e0]; [destruct Hp as [-> ->]; reflexivity | exact Hp].
    - rewrite (Hflow _ _ eq_refl). intros [= <- <-]. reflexivity. }
  unfold authenticate. rewrite bind_run. unfold exists_.
  destruct (fs st !! token_json) as [n|].
  - rewrite bind_run, bind_run. unfold lift at 1.
    destruct (from_authorized_user_file env) as [c|e] eqn:Hc;
      [|intros [= <- <-]; reflexivity].
    unfold ret at 1. destruct (valid c) eqn:Hv.
    + unfold ret. intros [= <- <-]. left. auto.
    + intros H. apply Hthen in H.
      * destruct r; [right; exact H | exact H].
      * intros r1 st1.
        destruct (expired c && match refresh_token c with
                               | Some t => truthy t
                               | None => false
                               end)%bool.
        -- unfold lift. intros [= _ <-]. reflexivity.
        -- apply interactive_flow_state.
  - rewrite bind_run. unfold ret at 1. intros H. apply Hthen in H.
    + destruct r; [right; exact H | exact H].
    + apply interactive_flow_state.
Qed.

Lemma authenticate_outcome_witness :
  authenticate stale_env token_state
  = (Ok fresh_credentials,
     set_fs (insert token_json (File (to_json fresh_credentials))) token_state)
  /\ ((set_fs (insert token_json (File (to_json fresh_credentials))) token_state = token_state
       /\ from_authorized_user_file stale_env = Ok fresh_credentials
       /\ valid fresh_credentials = true)
      \/ set_fs (insert token_json (File (to_json fresh_credentials))) token_state
         = set_fs (insert token_json (File (to_json fresh_credentials))) token_state).
Proof.
  assert (H : authenticate stale_env token_state
              = (Ok fresh_credentials,
                 set_fs (insert token_json (File (to_json fresh_credentials))) token_state))
    by (vm_compute; reflexivity).
  split; [exact H|].
  exact (authenticate_outcome stale_env token_state _ _ H).
Defined.

(** ** Prerequisites and the top level *)

Lemma install_handlers_exit e st :
  isinstance e Exception = true ->
  exists st',
    handle
      [ (CalledProcessError, fun _ : exn =>
           print (u "Error: pip is not found. Please ensure Python is installed and try again.") ;;
           print (u "To install Python, visit: https://www.python.org/downloads/") ;;
           sys_exit 1);
        (Exception, fun e : exn =>
           print (u "Error during prerequisite installation: " ++ exn_str e) ;;
           print (u "Please install Python and required packages manually using: pip install google-auth google-auth-oauthlib google-auth-httplib2 google-api-python-client") ;;
           print (u "To install Python, visit: https://www.python.org/downloads/") ;;
           @sys_exit unit 1) ] e st
    = (Raise exit_1, st')
    /\ console_only st st'
    /\ last (stdout st')
       = Some (u "To install Python, visit: https://www.python.org/downloads/").
Proof.
  intros He. unfold handle.
  destruct (isinstance e CalledProcessError).
  - eexists. split; [reflexivity|]. split; [repeat split|].
    cbn [snd stdout]. rewrite last_snoc. reflexivity.
  - rewrite He. eexists. split; [reflexivity|]. split; [repeat split|].
    cbn [snd stdout]. rewrite last_snoc. reflexivity.
Qed.


(** X14: no exception of class Exception ever leaves install_prerequisites:
    whatever goes wrong with pip or a package ends in sys.exit(1), and what
    else leaves it is a KeyboardInterrupt or the like. *)
Theorem install_prerequisites_outcome env st e :
  fst (install_prerequisites env st) = Raise e ->
  e = exit_1 \/ isinstance e Exception = false.
Proof.
  unfold install_prerequisites, try_except.
  match goal with |- context [match ?body st with _ => _ end] =>
    destruct (body st) as [[[]|e0] st1] end; [discriminate|].
  destruct (isinstance e0 Exception) eqn:He0.
  - destruct (install_handlers_exit e0 st1 He0) as (st' & Hrun & _).
    rewrite Hrun. intros [= <-]. left. reflexivity.
  - unfold handle.
    assert (Hc : isinstance e0 CalledProcessError = false).
    { unfold isinstance in *. destruct (exn_cls e0); try discriminate He0; reflexivity. }
    rewrite Hc, He0. intros [= <-]. right. exact He0.
Qed.

Lemma install_prerequisites_outcome_witness :
  fst (install_prerequisites
         (with_pip (Some (Exn CalledProcessError (u "exit status 1"))) quiet_env) token_state)
    = Raise exit_1
  /\ (exit_1 = exit_1 \/ isinstance exit_1 Exception = false).
Proof.
  assert (H : fst (install_prerequisites
                     (with_pip (Some (Exn CalledProcessError (u "exit status 1"))) quiet_env)
                     token_state) = Raise exit_1) by (vm_compute; reflexivity).
  split; [exact H|].
  exact (install_prerequisites_outcome
           (with_pip (Some (Exn CalledProcessError (u "exit status 1"))) quiet_env)
           token_state exit_1 H).
Defined.

(** X15: when the check of pip raises an exception of class Exception, the
    script ends through sys.exit(1): the handler of main does not catch
    the SystemExit, nothing but the console has changed, and neither
    authentication nor any download was tried. *)
Theorem pip_failure_exits env st e :
  pip_version env = Some e ->
  isinstance e Exception = true ->
  exists st',
    script env st = (Exited exit_1, st')
    /\ console_only st st'
    /\ last (stdout st')
       = Some (u "To install Python, visit: https://www.python.org/downloads/").
Proof.
  intros Hp He.
  destruct (install_handlers_exit e st He) as (st' & Hrun & Hc & Hl).
  assert (Hinst : install_prerequisites env st = (Raise exit_1, st')).
  { unfold install_prerequisites, try_except. rewrite bind_run. unfold check at 1.
    rewrite Hp. unfold raise at 1. exact Hrun. }
  exists st'. split; [|split; assumption].
  unfold script, main, try_except, main_body. rewrite bind_run, Hinst. reflexivity.
Qed.

Lemma pip_failure_exits_witness :
  (pip_version (with_pip (Some (Exn CalledProcessError (u "exit status 1"))) quiet_env)
   = Some (Exn CalledProcessError (u "exit status 1"))
   /\ isinstance (Exn CalledProcessError (u "exit status 1")) Exception = true)
  /\ exists st',
       script (with_pip (Some (Exn CalledProcessError (u "exit status 1"))) quiet_env)
         token_state = (Exited exit_1, st')
       /\ console_only token_state st'
       /\ last (stdout st')
          = Some (u "To install Python, visit: https://www.python.org/downloads/").
Proof.
  split; [split; reflexivity|].
  exact (pip_failure_exits
           (with_pip (Some (Exn CalledProcessError (u "exit status 1"))) quiet_env)
           token_state (Exn CalledProcessError (u "exit status 1")) eq_refl eq_refl).
Defined.

(** X16: when the course lookup raises an exception of class Exception, main
    prints it after the prompt and the course id and returns: no folder is
    created, nothing is listed and nothing is downloaded. *)
Theorem course_lookup_failure_ends_run env st st1 creds st2 link course_id e :
  install_prerequisites env st = (Ok tt, st1) ->
  authenticate env st1 = (Ok creds, st2) ->
  build env (u "classroom") = None ->
  build env (u "drive") = None ->
  input_line env = Ok link ->
  extract_course_id link = Ok course_id ->
  courses_get env course_id = Raise e ->
  isinstance e Exception = true ->
  main env st
  = (Ok tt,
     {| fs := fs st2;
        stdout := stdout st2 ++ [ u "Enter the Google Classroom link: ";
                                  u "Using Course ID: " ++ course_id;
                                  u "Error accessing course: " ++ exn_str e ];
        requests := requests st2;
        calls := calls st2 |}).
Proof.
  intros Hi Ha Hb1 Hb2 Hin Hex Hc He.
  unfold main, try_except, main_body.
  rewrite bind_run, Hi, bind_run, Ha, bind_run, Hb1. unfold check at 1, ret at 1.
  rewrite bind_run, Hb2. unfold check at 1, ret at 1.
  rewrite bind_run, print_run, bind_run, Hin. unfold lift at 1.
  rewrite bind_run, Hex. unfold lift at 1.
  rewrite bind_run, print_run, bind_run.
  unfold try_except. rewrite bind_run, Hc. unfold lift at 1, handle.
  rewrite He, bind_run, print_run. unfold ret.
  cbn [fs stdout requests calls]. rewrite <- !app_assoc. reflexivity.
Qed.

Lemma course_lookup_failure_ends_run_witness :
  (install_prerequisites
     (with_course (fun _ => Raise (Exn HttpError (u "404 not found"))) quiet_env) token_state
   = (Ok tt, snd (install_prerequisites quiet_env token_state))
   /\ authenticate
        (with_course (fun _ => Raise (Exn HttpError (u "404 not found"))) quiet_env)
        (snd (install_prerequisites quiet_env token_state))
      = (Ok sample_credentials, snd (install_prerequisites quiet_env token_state)))
  /\ fst (main (with_course (fun _ => Raise (Exn HttpError (u "404 not found"))) quiet_env)
            token_state) = Ok tt
  /\ fs (snd (main (with_course (fun _ => Raise (Exn HttpError (u "404 not found"))) quiet_env)
                token_state)) = fs token_state.
Proof.
  assert (H1 : install_prerequisites
                 (with_course (fun _ => Raise (Exn HttpError (u "404 not found"))) quiet_env)
                 token_state
               = (Ok tt, snd (install_prerequisites quiet_env token_state)))
    by (vm_compute; reflexivity).
  assert (H2 : authenticate
                 (with_course (fun _ => Raise (Exn HttpError (u "404 not found"))) quiet_env)
                 (snd (install_prerequisites quiet_env token_state))
               = (Ok sample_credentials, snd (install_prerequisites quiet_env token_state)))
    by (vm_compute; reflexivity).
  split; [split; assumption|].
  rewrite (course_lookup_failure_ends_run _ _ _ _ _ _ (u "605097363246")
             (Exn HttpError (u "404 not found")) H1 H2 eq_refl eq_refl eq_refl
             ltac:(vm_compute; reflexivity) eq_refl eq_refl).
  split; reflexivity.
Defined.

(** ** Folders on disk *)

Lemma mkdir_leaf_ok env p st st' :
  mkdir_step env true p st = (Ok tt, st') -> fs st' !! p = Some Dir.
Proof.
  unfold mkdir_step. destruct (fs st !! p) as [[|c]|] eqn:Hp.
  - intros [= <-]. exact Hp.
  - discriminate.
  - destruct (broken_link env p); [discriminate|].
    destruct (fault env p); [discriminate|]. intros [= <-]. apply lookup_insert_eq.
Qed.

Lemma makedirs_ok env p st st' :
  makedirs env p st = (Ok tt, st') -> fs st' !! p = Some Dir.
Proof.
  unfold makedirs. rewrite bind_run.
  destruct (for_each (parents p) (mkdir_step env false) st) as [[[]|e] st1];
    [apply mkdir_leaf_ok | discriminate].
Qed.

Lemma for_each_no_drive_file (body : drive_file -> M unit) materials st :
  drive_files materials = [] ->
  for_each materials (fun m => match m with
                               | DriveFile file => body file
                               | OtherMaterial => ret tt
                               end) st = (Ok tt, st).
Proof.
  induction materials as [|[file|] ms IH]; intros H; [reflexivity|discriminate|].
  simpl. rewrite bind_run. unfold ret at 1. apply IH, H.
Qed.

(** X17: a group that has a materials list without any drive file (only
    links, or nothing) still gets its folder: when either loop comes to
    its end on such a group, the folder named after the title, or
    Other_Materials, is a directory, and no download was asked for. *)
Theorem group_without_files_gets_folder env output_dir g materials st :
  materials_of g = Some materials ->
  drive_files materials = [] ->
  (forall st', process_announcement env output_dir g st = (Ok tt, st') ->
     fs st' !! path_join output_dir (named_folder (Some (get_title g)) (Some []))
       = Some Dir
     /\ requests st' = requests st /\ calls st' = calls st)
  /\ (forall st', process_coursework env output_dir g st = (Ok tt, st') ->
     fs st' !! path_join output_dir (named_folder (Some (get_title g)) (Some []))
       = Some Dir
     /\ requests st' = requests st /\ calls st' = calls st).
Proof.
  intros Hm Hnone.
  assert (Hfirst : first_file_name materials = []).
  { destruct materials as [|[file|] ms]; [reflexivity | discriminate | reflexivity]. }
  assert (Hmk : forall d st1 st',
            makedirs env d st1 = (Ok tt, st') ->
            fs st' !! d = Some Dir /\ requests st' = requests st1 /\ calls st' = calls st1).
  { intros d st1 st' H. split; [eapply makedirs_ok, H|].
    pose proof (makedirs_no_transfer env d st1) as (_ & _ & Hr).
    pose proof (makedirs_same_calls env d st1) as Hc.
    rewrite H in Hr, Hc. split; [exact Hr | exact Hc]. }
  split; intros st'.
  - unfold process_announcement. rewrite Hm, Hfirst, bind_run.
    destruct (folder_namer_run (Some (get_title g)) (Some []) st)
      as (st1 & -> & (_ & Hr1 & Hc1)).
    rewrite bind_run.
    destruct (makedirs env _ st1) as [[[]|e] st2] eqn:Hmake; [|discriminate].
    rewrite (for_each_no_drive_file _ _ _ Hnone). intros [= <-].
    destruct (Hmk _ _ _ Hmake) as (Hd & Hr & Hc).
    split; [exact Hd|]. split; congruence.
  - unfold process_coursework. rewrite Hm, Hfirst, bind_run.
    destruct (folder_namer_run (Some (get_title g)) (Some []) st)
      as (st1 & -> & (_ & Hr1 & Hc1)).
    rewrite bind_run.
    destruct (makedirs env _ st1) as [[[]|e] st2] eqn:Hmake; [|discriminate].
    rewrite (for_each_no_drive_file _ _ _ Hnone). intros [= <-].
    destruct (Hmk _ _ _ Hmake) as (Hd & Hr & Hc).
    split; [exact Hd|]. split; congruence.
Qed.

Lemma group_without_files_gets_folder_witness :
  (materials_of {| title_of := None; materials_of := Some [OtherMaterial] |}
   = Some [OtherMaterial]
   /\ drive_files [OtherMaterial] = [])
  /\ fs (snd (process_announcement quiet_env (u "/data/OS")
                {| title_of := None; materials_of := Some [OtherMaterial] |} empty_state))
       !! u "/data/OS/Other_Materials" = Some Dir.
Proof.
  split; [split; reflexivity|].
  assert (Hrun : process_announcement quiet_env (u "/data/OS")
                   {| title_of := None; materials_of := Some [OtherMaterial] |} empty_state
                 = (Ok tt, snd (process_announcement quiet_env (u "/data/OS")
                                  {| title_of := None; materials_of := Some [OtherMaterial] |}
                                  empty_state)))
    by (vm_compute; reflexivity).
  exact (proj1 (proj1 (group_without_files_gets_folder quiet_env (u "/data/OS")
                         {| title_of := None; materials_of := Some [OtherMaterial] |}
                         [OtherMaterial] empty_state eq_refl eq_refl) _ Hrun)).
Defined.

Lemma replace_char_spec old new s :
  length (replace_char old new s) = length s
  /\ (old <> new -> old ∉ replace_char old new s)
  /\ forall c, c ∈ replace_char old new s -> c = new \/ c ∈ s.
Proof.
  unfold replace_char. split; [apply length_map|]. split.
  - intros Hne Hin. apply list_elem_of_In, in_map_iff in Hin.
    destruct Hin as (c & Hc & _). destruct (c =? old) eqn:He.
    + congruence.
    + apply N.eqb_neq in He. congruence.
  - intros c Hin. apply list_elem_of_In, in_map_iff in Hin.
    destruct Hin as (c0 & Hc & Hin0). destruct (c0 =? old).
    + left. congruence.
    + right. subst. apply list_elem_of_In, Hin0.
Qed.

Lemma path_join_relative a b :
  a <> [] -> ends_with_sep a = false -> SEP ∉ b -> path_join a b = a ++ SEP :: b.
Proof.
  intros Ha Hs Hb. unfold path_join.
  assert (Hrest : match a with
                  | [] => b
                  | _ :: _ => if ends_with_sep a then a ++ b else a ++ SEP :: b
                  end = a ++ SEP :: b).
  { destruct a; [congruence|]. rewrite Hs. reflexivity. }
  destruct b as [|c b]; [exact Hrest|].
  assert (Hc : c <> SEP). { intros ->. apply Hb. left. }
  unfold SEP in Hc. destruct c as [|q]; [exact Hrest|].
  do 6 (destruct q as [q|q|]; try exact Hrest). congruence.
Qed.

(** X18: the root folder of a course lies directly in the working directory:
    its name is the course name with every space and every slash replaced
    by an underscore, so it has the length of the course name and holds
    neither a space nor a separator. *)
Theorem root_folder_is_child env c :
  getcwd env <> [] ->
  ends_with_sep (getcwd env) = false ->
  exists name,
    root_of env c = getcwd env ++ SEP :: name
    /\ length name = length (name_of c)
    /\ (SEP ∉ name) /\ (0x20 ∉ name)
    /\ forall i x, name_of c !! i = Some x ->
         name !! i = Some (if (x =? 0x20) || (x =? SEP) then UNDERSCORE else x).
Proof.
  intros Hcwd Hsep.
  set (name := replace_char 0x2F 0x5F (replace_char 0x20 0x5F (name_of c))).
  destruct (replace_char_spec 0x2F 0x5F (replace_char 0x20 0x5F (name_of c)))
    as (L1 & N1 & I1).
  destruct (replace_char_spec 0x20 0x5F (name_of c)) as (L2 & N2 & _).
  assert (Hnosep : SEP ∉ name) by (apply N1; discriminate).
  exists name. split; [apply path_join_relative; assumption|].
  split; [unfold name; congruence|]. split; [exact Hnosep|]. split.
  - intros Hin. apply I1 in Hin. destruct Hin as [Hin|Hin]; [discriminate|].
    revert Hin. apply N2. discriminate.
  - intros i x Hi. unfold name, replace_char.
    change (map ?f ?l) with (f <$> l). rewrite !list_lookup_fmap, Hi. simpl. f_equal.
    unfold SEP, UNDERSCORE. destruct (x =? 0x20) eqn:H1; simpl.
    + reflexivity.
    + destruct (x =? 0x2F); reflexivity.
Qed.

Lemma root_folder_is_child_witness :
  (getcwd quiet_env <> [] /\ ends_with_sep (getcwd quiet_env) = false)
  /\ exists name,
       root_of quiet_env {| name_of := u "Operating Systems/2" |}
       = getcwd quiet_env ++ SEP :: name
       /\ length name = length (u "Operating Systems/2")
       /\ (SEP ∉ name) /\ (0x20 ∉ name)
       /\ forall i x, u "Operating Systems/2" !! i = Some x ->
            name !! i = Some (if (x =? 0x20) || (x =? SEP) then UNDERSCORE else x).
Proof.
  assert (H1 : getcwd quiet_env <> []) by discriminate.
  assert (H2 : ends_with_sep (getcwd quiet_env) = false) by reflexivity.
  split; [split; assumption|].
  exact (root_folder_is_child quiet_env {| name_of := u "Operating Systems/2" |} H1 H2).
Defined.

(** * Whole runs *)

(** ** Directories that can be made *)

Lemma bind_ok {A B} (c : M A) (k : A -> M B) st b st' :
  bind c k st = (Ok b, st') ->
  exists a st1, c st = (Ok a, st1) /\ k a st1 = (Ok b, st').
Proof. rewrite bind_run. destruct (c st) as [[a|e] st1]; [eauto | discriminate]. Qed.

Lemma can_make_no_transfer env st st' dirs :
  no_transfer st st' -> can_make env st dirs -> can_make env st' dirs.
Proof.
  intros (_ & Hfiles & _) H q Hq. destruct (H q Hq) as (Hf & Hb & Hn).
  split; [exact Hf|]. split; [exact Hb|]. intros c Hc. exact (Hn c (Hfiles _ _ Hc)).
Qed.

Lemma can_make_sub env st dirs dirs' :
  (forall q, q ∈ dirs' -> q ∈ dirs) -> can_make env st dirs -> can_make env st dirs'.
Proof. intros Hsub H q Hq. apply H, Hsub, Hq. Qed.

Lemma mkdir_step_runs env leaf q st :
  fault env q = None -> broken_link env q = false ->
  (forall c, fs st !! q <> Some (File c)) ->
  exists st', mkdir_step env leaf q st = (Ok tt, st') /\ fs st' !! q = Some Dir.
Proof.
  intros Hf Hb Hn. unfold mkdir_step.
  destruct (fs st !! q) as [[|c]|] eqn:Hq.
  - eauto.
  - exfalso. exact (Hn c eq_refl).
  - rewrite Hb, Hf. eexists. split; [reflexivity|]. apply lookup_insert_eq.
Qed.

Lemma for_each_mkdir_runs env qs : forall st,
  can_make env st qs ->
  exists st',
    for_each qs (mkdir_step env false) st = (Ok tt, st')
    /\ Forall (fun q => fs st' !! q = Some Dir) qs.
Proof.
  induction qs as [|q qs IH]; intros st H.
  - exists st. split; [reflexivity | constructor].
  - destruct (H q) as (Hf & Hb & Hn); [left|].
    destruct (mkdir_step_runs env false q st Hf Hb Hn) as (st1 & Hrun & Hq).
    pose proof (mkdir_step_no_transfer env false q st) as Hnt.
    rewrite Hrun in Hnt. cbn [snd] in Hnt.
    destruct (IH st1) as (st' & Hrest & Hall).
    { apply (can_make_no_transfer env st st1); [exact Hnt|].
      apply (can_make_sub env st (q :: qs)); [|exact H]. intros q' Hq'. right. exact Hq'. }
    exists st'. split.
    + cbn [for_each]. rewrite bind_run, Hrun. exact Hrest.
    + constructor; [|exact Hall].
      pose proof (preserves_for_each (R := no_transfer) qs (mkdir_step env false)
                    (mkdir_step_no_transfer env false) st1) as Hnt2.
      rewrite Hrest in Hnt2. destruct Hnt2 as (Hsub & _).
      eapply lookup_weaken; [exact Hq | exact Hsub].
Qed.

(** Where nothing is in the way and nothing is refused, [os.makedirs]
    returns, and the directory and its leading directories are there. *)
Lemma makedirs_runs env d st :
  can_make env st (chain d) ->
  exists st', makedirs env d st = (Ok tt, st') /\ directory_ready st' d.
Proof.
  intros H.
  destruct (for_each_mkdir_runs env (parents d) st) as (st1 & Hrun & Hall).
  { apply (can_make_sub env st (chain d)); [|exact H].
    intros q Hq. apply elem_of_app. left. exact Hq. }
  pose proof (preserves_for_each (R := no_transfer) (parents d) (mkdir_step env false)
                (mkdir_step_no_transfer env false) st) as Hnt.
  rewrite Hrun in Hnt. cbn [snd] in Hnt.
  destruct (can_make_no_transfer env st st1 (chain d) Hnt H d) as (Hf & Hb & Hn).
  { apply elem_of_app. right. left. }
  destruct (mkdir_step_runs env true d st1 Hf Hb Hn) as (st' & Hleaf & Hd).
  exists st'. split.
  - unfold makedirs. rewrite bind_run, Hrun. exact Hleaf.
  - split; [exact Hd|].
    pose proof (mkdir_step_no_transfer env true d st1) as Hnt2.
    rewrite Hleaf in Hnt2. destruct Hnt2 as (Hsub & _).
    eapply Forall_impl; [exact Hall|]. intros q Hq.
    eapply lookup_weaken; [exact Hq | exact Hsub].
Qed.

(** ** Calls that return *)

Lemma download_loop_raises file_id file_name path answers :
  Forall (fun r => match r with
                   | Failed e => isinstance e Exception = true
                   | Chunk _ _ _ => True
                   end) answers ->
  forall st e st',
    download_loop file_id file_name path answers st = (Raise e, st') ->
    isinstance e Exception = true.
Proof.
  induction 1 as [|r answers Hr _ IH]; intros st e st'.
  - cbn [download_loop]. unfold raise. intros [= <- _]. reflexivity.
  - cbn [download_loop]. rewrite bind_run. unfold next_chunk.
    destruct r as [data percent done|e0].
    + rewrite bind_run. unfold write at 1, ret at 1. rewrite bind_run, print_run.
      cbn [snd]. destruct done; [discriminate | apply IH].
    + intros [= <- _]. exact Hr.
Qed.

Lemma transfer_raises env file_id file_name path :
  (forall e, fault env path = Some e -> isinstance e Exception = true) ->
  gentle env file_id ->
  forall st e st',
    transfer env file_id file_name path st = (Raise e, st') ->
    isinstance e Exception = true.
Proof.
  intros Hopen Hg st e st'. unfold transfer. rewrite bind_run. unfold exists_.
  destruct (fs st !! path) as [n|] eqn:Hp; [rewrite print_run; discriminate|].
  rewrite bind_run. unfold open_write.
  destruct (fault env path) as [e0|] eqn:Hf.
  - intros [= <- _]. apply Hopen. reflexivity.
  - rewrite Hp, bind_run.
    destruct (download_loop file_id file_name path (media env file_id) _)
      as [[[]|e1] st1] eqn:Hloop.
    + rewrite print_run. discriminate.
    + intros [= <- _]. exact (download_loop_raises _ _ _ _ Hg _ _ _ Hloop).
Qed.

(** With the directory there and nothing but exceptions of class
    [Exception] to come, a call returns, and what it changes is at its
    destination. *)
Lemma download_file_returns env file_id file_name output_dir st :
  directory_ready st output_dir ->
  (forall e, fault env (path_join output_dir file_name) = Some e ->
             isinstance e Exception = true) ->
  gentle env file_id ->
  exists st',
    download_file env file_id file_name output_dir st = (Ok tt, st')
    /\ touches_only (path_join output_dir file_name) file_id st st'.
Proof.
  intros Hdir Hopen Hg. rewrite download_file_unfold.
  rewrite (ensure_directory_ready env output_dir _
             (directory_ready_with_call (file_id, file_name, output_dir) st _ Hdir)).
  set (path := path_join output_dir file_name).
  set (st1 := snd (print _ _)).
  assert (H1 : touches_only path file_id st st1).
  { split; [auto|]. split; [auto|]. exists 0%nat. simpl. rewrite app_nil_r. reflexivity. }
  pose proof (transfer_touches env path file_id file_name st1) as H2.
  unfold try_except.
  destruct (transfer env file_id file_name path st1) as [[[]|e] st2] eqn:Ht; cbn [snd] in H2.
  - exists st2. split; [reflexivity|]. etransitivity; [exact H1 | exact H2].
  - apply (transfer_raises env file_id file_name path Hopen Hg) in Ht.
    destruct (handlers_bound_print file_name path e Ht) as [line Hline].
    rewrite Hline. eexists. split; [reflexivity|].
    etransitivity; [exact H1|]. etransitivity; [exact H2|].
    apply (print_touches path file_id line st2).
Qed.

Lemma can_make_touches env path file_id st st' dirs :
  touches_only path file_id st st' -> (path ∉ dirs) ->
  can_make env st dirs -> can_make env st' dirs.
Proof.
  intros (_ & Hfiles & _) Hout H q Hq. destruct (H q Hq) as (Hf & Hb & Hn).
  split; [exact Hf|]. split; [exact Hb|]. intros c Hc.
  apply (Hn c), (Hfiles q c); [|exact Hc]. intros ->. exact (Hout Hq).
Qed.

Lemma directory_ready_touches path file_id st st' d :
  touches_only path file_id st st' -> (path ∉ chain d) ->
  directory_ready st d -> directory_ready st' d.
Proof.
  intros (Hkeep & _) Hout [Hd Hps]. split.
  - apply Hkeep; [|exact Hd]. intros ->. apply Hout, elem_of_app. right. left.
  - apply Forall_forall. intros q Hq. apply Hkeep.
    + intros ->. apply Hout, elem_of_app. left. exact Hq.
    + rewrite Forall_forall in Hps. apply Hps, Hq.
Qed.

(** ** The two loops over a group *)

(** The folder the coursework loop names anew for every file of an
    untitled group; the announcement loop has one folder for them all. *)
Lemma coursework_items_run env output_dir g dirs :
  strip (get_title g) = [] ->
  forall materials st,
    can_make env st dirs ->
    (forall file, file ∈ drive_files materials ->
       (forall q, q ∈ chain (path_join output_dir (named_folder None (Some (file_name_of file))))
                  -> q ∈ dirs)
       /\ can_serve env dirs
            (call_into (fun file => path_join output_dir
                                      (named_folder None (Some (file_name_of file)))) file)) ->
    exists st',
      for_each materials (fun item =>
        match item with
        | DriveFile file =>
            let file_name := file_name_of file in
            folder_name' <-
              (if truthy (strip (get_title g))
               then get_folder_name_from_title (Some (get_title g)) (Some [])
               else get_folder_name_from_title None (Some file_name)) ;;
            let folder_dir := path_join output_dir folder_name' in
            makedirs env folder_dir ;;
            download_file env (file_id_of file) file_name folder_dir
        | OtherMaterial => ret tt
        end) st = (Ok tt, st').
Proof.
  intros Ht. rewrite Ht. change (truthy []) with false. cbv iota zeta.
  induction materials as [|[file|] ms IH]; intros st Hmake Hall.
  - exists st. reflexivity.
  - destruct (Hall file) as (Hsub & Hout & Hopen & Hg); [left|].
    cbn [for_each]. rewrite !bind_run.
    destruct (folder_namer_run None (Some (file_name_of file)) st) as (st1 & Hname & Hc1).
    rewrite Hname.
    set (folder := path_join output_dir (named_folder None (Some (file_name_of file)))) in *.
    assert (Hmake1 : can_make env st1 dirs).
    { apply (can_make_no_transfer env st); [apply console_only_no_transfer, Hc1 | exact Hmake]. }
    destruct (makedirs_runs env folder st1) as (st2 & Hmk & Hready).
    { apply (can_make_sub env st1 dirs); assumption. }
    rewrite bind_run, Hmk.
    pose proof (makedirs_no_transfer env folder st1) as Hnt. rewrite Hmk in Hnt.
    destruct (download_file_returns env (file_id_of file) (file_name_of file) folder st2
                Hready Hopen Hg) as (st3 & Hdl & Htouch).
    rewrite Hdl.
    apply IH.
    + apply (can_make_touches env _ _ st2 st3 dirs Htouch Hout).
      apply (can_make_no_transfer env st1); assumption.
    + intros file' Hin. apply Hall. right. exact Hin.
  - cbn [for_each]. rewrite bind_run. unfold ret at 1. apply IH; assumption.
Qed.

Lemma announcement_items_run env folder :
  forall materials st,
    directory_ready st folder ->
    (forall file, file ∈ drive_files materials ->
       can_serve env (chain folder) (call_into (fun _ => folder) file)) ->
    exists st',
      for_each materials (fun material =>
        match material with
        | DriveFile file => download_file env (file_id_of file) (file_name_of file) folder
        | OtherMaterial => ret tt
        end) st = (Ok tt, st').
Proof.
  induction materials as [|[file|] ms IH]; intros st Hready Hall.
  - exists st. reflexivity.
  - destruct (Hall file) as (Hout & Hopen & Hg); [left|].
    destruct (download_file_returns env (file_id_of file) (file_name_of file) folder st
                Hready Hopen Hg) as (st1 & Hdl & Htouch).
    cbn [for_each]. rewrite bind_run, Hdl. apply IH.
    + exact (directory_ready_touches _ _ st st1 folder Htouch Hout Hready).
    + intros file' Hin. apply Hall. right. exact Hin.
  - cbn [for_each]. rewrite bind_run. unfold ret at 1. apply IH; assumption.
Qed.

Lemma can_serve_sub env dirs dirs' c :
  (forall q, q ∈ dirs' -> q ∈ dirs) -> can_serve env dirs c -> can_serve env dirs' c.
Proof.
  intros Hsub. destruct c as [[file_id file_name] output_dir]. intros (Hout & Hrest).
  split; [|exact Hrest]. intros Hin. exact (Hout (Hsub _ Hin)).
Qed.


Ltac serve_quietly :=
  split; [intros Hin; apply list_elem_of_In in Hin; vm_compute in Hin; intuition discriminate|];
  split; [intros e He; vm_compute in He; discriminate He|];
  vm_compute; repeat constructor.


(** ** The guard of the file downloader *)

(** C10, as the code has it: the guard asks whether the path exists, not
    whether it is a regular file.  Whatever os.path.exists sees at the
    destination, a directory as well as a regular file, the call sends no
    request, creates or changes no file and leaves the entry as it was;
    once the directory set-up is through, the call prints that it skips
    the download and returns, without trying to open the destination; and
    with the output directory there, this is all it does. *)
Theorem download_file_skips_any_entry env file_id file_name output_dir node st :
  fs st !! path_join output_dir file_name = Some node ->
  (requests (snd (download_file env file_id file_name output_dir st)) = requests st
   /\ (forall p c,
         fs (snd (download_file env file_id file_name output_dir st)) !! p = Some (File c) ->
         fs st !! p = Some (File c))
   /\ fs (snd (download_file env file_id file_name output_dir st))
        !! path_join output_dir file_name = Some node)
  /\ (forall st1,
        ensure_directory env output_dir (with_call (file_id, file_name, output_dir) st)
          = (Ok tt, st1) ->
        download_file env file_id file_name output_dir st
        = (Ok tt, snd (print (skip_line file_name (path_join output_dir file_name)) st1)))
  /\ (directory_ready st output_dir ->
      download_file env file_id file_name output_dir st
      = (Ok tt,
         {| fs := fs st;
            stdout := stdout st
                      ++ [ u "Attempting to create directory: " ++ output_dir;
                           skip_line file_name (path_join output_dir file_name) ];
            requests := requests st;
            calls := calls st ++ [(file_id, file_name, output_dir)] |})).
Proof.
  intros Hocc.
  assert (Hskip : forall st1,
             ensure_directory env output_dir (with_call (file_id, file_name, output_dir) st)
               = (Ok tt, st1) ->
             download_file env file_id file_name output_dir st
             = (Ok tt, snd (print (skip_line file_name (path_join output_dir file_name)) st1))).
  { intros st1 Hset. rewrite download_file_unfold, Hset. unfold try_except.
    pose proof (ensure_directory_no_transfer env output_dir
                  (with_call (file_id, file_name, output_dir) st)) as (Hsub & _).
    rewrite Hset in Hsub. cbn [snd] in Hsub.
    rewrite (transfer_present env file_id file_name _ node st1);
      [reflexivity | eapply lookup_weaken; [exact Hocc | exact Hsub]]. }
  split; [|split; [exact Hskip|]].
  - destruct (download_file_occupied env file_id file_name output_dir _ st Hocc)
      as (Hsub & Hfiles & Hreq).
    split; [exact Hreq|]. split; [exact Hfiles|].
    eapply lookup_weaken; [exact Hocc | exact Hsub].
  - intros Hdir.
    rewrite (Hskip _ (ensure_directory_ready env output_dir _
                        (directory_ready_with_call (file_id, file_name, output_dir) st _ Hdir))).
    rewrite !print_run. unfold with_call, log_call. cbn [snd fs stdout requests calls].
    rewrite <- app_assoc. reflexivity.
Qed.

Lemma download_file_skips_any_entry_witness :
  (fs taken_state !! path_join (u "/data/OS/Week 1") (u "notes.pdf") = Some Dir
   /\ directory_ready taken_state (u "/data/OS/Week 1"))
  /\ download_file quiet_env (u "id-1") (u "notes.pdf") (u "/data/OS/Week 1") taken_state
     = (Ok tt,
        {| fs := fs taken_state;
           stdout := [ u "Attempting to create directory: /data/OS/Week 1";
                       u "File notes.pdf already exists at /data/OS/Week 1/notes.pdf, skipping download." ];
           requests := [];
           calls := [ (u "id-1", u "notes.pdf", u "/data/OS/Week 1") ] |}).
Proof.
  assert (H1 : fs taken_state !! path_join (u "/data/OS/Week 1") (u "notes.pdf") = Some Dir)
    by (vm_compute; reflexivity).
  assert (H2 : directory_ready taken_state (u "/data/OS/Week 1")).
  { split; [reflexivity|]. repeat constructor. }
  split; [split; assumption|].
  exact (proj2 (proj2 (download_file_skips_any_entry quiet_env (u "id-1") (u "notes.pdf")
                         (u "/data/OS/Week 1") Dir taken_state H1)) H2).
Defined.

(** C10 as stated fails: a symbolic link whose target is missing is an
    entry at the destination (a directory cannot be made there: the name is
    taken), but os.path.exists does not see it; the download goes ahead and
    the content is written through the link. *)
Lemma download_file_writes_through_broken_link :
  broken_link link_env (path_join (u "/data/OS/Week 1") (u "notes.pdf")) = true
  /\ fst (makedirs link_env (path_join (u "/data/OS/Week 1") (u "notes.pdf")) ready_state)
     = Raise (Exn FileExistsError (u "[Errno 17] File exists: '/data/OS/Week 1/notes.pdf'"))
  /\ (let r := download_file link_env (u "id-1") (u "notes.pdf") (u "/data/OS/Week 1")
                 ready_state in
      fst r = Ok tt
      /\ requests (snd r) = [u "id-1"]
      /\ fs (snd r) !! u "/data/OS/Week 1/notes.pdf" = Some (File (u "fresh"))
      /\ stdout (snd r) = [ u "Attempting to create directory: /data/OS/Week 1";
                            u "Downloading notes.pdf: 100%";
                            u "Downloaded: /data/OS/Week 1/notes.pdf" ]).
Proof. vm_compute. repeat split; reflexivity. Qed.

(** ** What main catches *)

Lemma handlers_bound_text file_name path e :
  isinstance e Exception = true ->
  exists pre, forall st,
    handle (download_handlers file_name (Some path)) e st = print (pre ++ exn_str e) st.
Proof.
  intros He. unfold download_handlers, handle, read_local.
  destruct (isinstance e PermissionError).
  - exists (u "Permission denied when accessing " ++ path ++ u ": "). intros st.
    rewrite <- !app_assoc. reflexivity.
  - destruct (isinstance e OSError).
    + exists (u "OS error when accessing " ++ path ++ u ": "). intros st.
      rewrite <- !app_assoc. reflexivity.
    + rewrite He. exists (u "Error downloading file " ++ file_name ++ u ": "). intros st.
      rewrite <- !app_assoc. reflexivity.
Qed.

Lemma print_last line st st' :
  print line st = (Ok tt, st') -> last (stdout st') = Some line.
Proof. rewrite print_run. intros [= <-]. cbn [stdout]. apply last_snoc. Qed.

(** A course that was mirrored to the end shows the completion line. *)
Lemma mirror_course_last env course_id c st st' :
  mirror_course env course_id c st = (Ok tt, st') ->
  exists dir, last (stdout st') = Some (u "All files downloaded to: " ++ dir).
Proof.
  unfold mirror_course. intros H.
  apply bind_ok in H as (_ & s1 & _ & H).
  apply bind_ok in H as (announcements & s2 & _ & H).
  apply bind_ok in H as (_ & s3 & _ & H).
  apply bind_ok in H as (materials & s4 & _ & H).
  apply bind_ok in H as (_ & s5 & _ & H).
  eexists. exact (print_last _ _ _ H).
Qed.

(** The try block of main comes to its end in two ways: the course was
    mirrored, or its lookup failed and was reported. *)
Lemma main_body_last env st st' :
  main_body env st = (Ok tt, st') ->
  exists line, last (stdout st') = Some line /\ final_line line.
Proof.
  unfold main_body. intros H.
  apply bind_ok in H as (_ & s1 & _ & H).
  apply bind_ok in H as (creds & s2 & _ & H).
  apply bind_ok in H as (_ & s3 & _ & H).
  apply bind_ok in H as (_ & s4 & _ & H).
  apply bind_ok in H as (_ & s5 & _ & H).
  apply bind_ok in H as (link & s6 & _ & H).
  apply bind_ok in H as (course_id & s7 & _ & H).
  apply bind_ok in H as (_ & s8 & _ & H).
  apply bind_ok in H as (found & s9 & Hfound & H).
  unfold try_except in Hfound. rewrite bind_run in Hfound. unfold lift at 1 in Hfound.
  destruct (courses_get env course_id) as [c|e].
  - rewrite bind_run, print_run in Hfound. unfold ret in Hfound.
    injection Hfound as <- <-.
    destruct (mirror_course_last env course_id c _ _ H) as (dir & Hlast).
    eexists. split; [exact Hlast|]. left. eexists. reflexivity.
  - unfold handle in Hfound. destruct (isinstance e Exception); [|discriminate Hfound].
    rewrite bind_run, print_run in Hfound. unfold ret in Hfound.
    injection Hfound as <- <-. unfold ret in H. injection H as <-.
    eexists. split; [cbn [stdout]; apply last_snoc|]. right. left. eexists. reflexivity.
Qed.


